(** * Batch generator of dnn-quant: cursor-based mini-batching over a table

    A shallow embedding of [scripts/batch_generator.py].  Python integers are
    [Z]; an int64 of numpy is a [Z] whose arithmetic wraps around modulo
    [2^64]; a float64 is the rational ([Q]) it denotes, and every operation
    that yields one rounds to the nearest float64, ties to even, as the
    Standard Library's specification of IEEE 754 does.  Python lists and numpy
    arrays are lists indexed with stdpp's lookup and insert, and every
    operation that can raise in Python returns an [outcome].  The two [while]
    loops take a bound on the number of times their body runs and answer
    [Timeout] beyond it.  Assertions are enabled, [/] is true division, and a
    table has no missing, infinite or not-a-number field. *)

From Stdlib Require Import ZArith QArith Qabs Lia SpecFloat.
From stdpp Require Import base list strings.

Local Open Scope Z_scope.

(** ** Exceptions and the outcome of a call *)

Inductive exn : Type :=
| RuntimeError | ValueError | KeyError | IndexError
| TypeError | ZeroDivisionError | AssertionError.

Inductive outcome (A : Type) : Type :=
| Ret (a : A)
| Raise (e : exn)
| Timeout.
Arguments Ret {A} a.
Arguments Raise {A} e.
Arguments Timeout {A}.

#[global] Instance outcome_ret : MRet outcome := fun A a => Ret a.
#[global] Instance outcome_bind : MBind outcome := fun A B k m =>
  match m with
  | Ret a => k a
  | Raise e => Raise e
  | Timeout => Timeout
  end.

(** [for x in xs: body], threading the variables the body assigns. *)
Fixpoint for_in {A S : Type} (xs : list A) (body : A → S → outcome S) (s : S)
  : outcome S :=
  match xs with
  | [] => Ret s
  | x :: xs' => s' ← body x s; for_in xs' body s'
  end.

(** [range(n)]: empty when [n <= 0]. *)
Definition range (n : Z) : list nat := seq 0 (Z.to_nat n).

(** [l[i]] for a non-negative position. *)
Definition getitem {A : Type} (l : list A) (i : nat) : outcome A :=
  match l !! i with
  | Some a => Ret a
  | None => Raise IndexError
  end.

(** [l[i] = a]: out of range raises, as in Python and numpy. *)
Definition setitem {A : Type} (l : list A) (i : nat) (a : A) : outcome (list A) :=
  if bool_decide (i < length l)%nat then Ret (<[i := a]> l)
  else Raise IndexError.

(** [a // b] and [a % b]; both are floored in Python, as [Z.div] and
    [Z.modulo] are. *)
Definition floordiv (a b : Z) : outcome Z :=
  if b =? 0 then Raise ZeroDivisionError else Ret (a / b).
Definition pymod (a b : Z) : outcome Z :=
  if b =? 0 then Raise ZeroDivisionError else Ret (a mod b).

Definition py_assert (c : bool) : outcome unit :=
  if c then Ret tt else Raise AssertionError.

(** ** The table read by pandas *)

(** A field of the table: text that does not parse as a number, an int64,
    or a float64, written as the rational it denotes.  pandas gives all the
    fields of a column one of these three types. *)
Inductive cell : Type :=
| Str (s : string)
| Int (z : Z)
| Num (q : Q).

(** The value of a number. *)
Definition number (c : cell) : option Q :=
  match c with
  | Str _ => None
  | Int z => Some (inject_Z z)
  | Num q => Some q
  end.

(** [==] on two fields.  Two numbers of the same type are equal when their
    values are; an int64 and a float64, which no column mixes, are compared
    by value too. *)
Definition cell_eqb (a b : cell) : bool :=
  match a, b with
  | Str s, Str t => bool_decide (s = t)
  | Int m, Int n => m =? n
  | _, _ => match number a, number b with
            | Some p, Some q => Qeq_bool p q
            | _, _ => false
            end
  end.

(** A data frame with the default row labels [0 .. len-1]. *)
Record DataFrame : Type := {
  columns : list string;
  rows : list (list cell)
}.

(** Every row has one field per column. *)
Definition rectangular (data : DataFrame) : Prop :=
  Forall (λ r, length r = length (columns data)) (rows data).

Definition len (data : DataFrame) : Z := Z.of_nat (length (rows data)).

Fixpoint position (name : string) (l : list string) : option nat :=
  match l with
  | [] => None
  | c :: l' => if bool_decide (c = name) then Some 0%nat
               else S <$> position name l'
  end.

(** [list(data.columns.values).index(name)] *)
Definition index (l : list string) (name : string) : outcome Z :=
  match position name l with
  | Some i => Ret (Z.of_nat i)
  | None => Raise ValueError
  end.

(** The field [data.loc[idx, name]] when the label and the column exist. *)
Definition field (data : DataFrame) (idx : Z) (name : string) : option cell :=
  if idx <? 0 then None
  else r ← rows data !! Z.to_nat idx;
       j ← position name (columns data);
       r !! j.

(** [data.loc[idx, name]] *)
Definition loc (data : DataFrame) (idx : Z) (name : string) : outcome cell :=
  match field data idx name with
  | Some c => Ret c
  | None => Raise KeyError
  end.

(** [data.iloc[idx, start:]]: positional, a negative position counts from
    the end, and a slice never fails. *)
Definition iloc_from (data : DataFrame) (idx start : Z) : outcome (list cell) :=
  let i := if idx <? 0 then idx + len data else idx in
  if (i <? 0) || (len data <=? i) then Raise IndexError
  else match rows data !! Z.to_nat i with
       | Some r =>
           Ret (drop (Z.to_nat (if start <? 0
                                then start + Z.of_nat (length r)
                                else start)) r)
       | None => Raise IndexError
       end.

(** ** The numbers of numpy *)

(** The int64 that an integer operation yields: its exact result modulo
    [2^64], between [-2^63] and [2^63 - 1]. *)
Definition wrap64 (z : Z) : Z := (z + 2 ^ 63) mod 2 ^ 64 - 2 ^ 63.

(** The rational that a float64 denotes.  An overflow, which the operations
    below do not produce from finite float64 fields, is written [2^1024]. *)
Definition float_value (f : spec_float) : Q :=
  match f with
  | S754_finite s m e =>
      let n := if s then Zneg m else Zpos m in
      if 0 <=? e then inject_Z (n * 2 ^ e)
      else Qred (n # Pos.shiftl 1 (Z.to_N (- e)))
  | S754_infinity s => inject_Z (if s then - 2 ^ 1024 else 2 ^ 1024)
  | _ => 0%Q
  end.

(** The float64 nearest to a rational, ties to even: the correctly rounded
    quotient of its numerator and its denominator. *)
Definition nearest_float (q : Q) : spec_float :=
  let q := Qred q in
  match Qnum q with
  | Z0 => S754_zero false
  | Zpos n =>
      SFdiv 53 1024 (S754_finite false n 0) (S754_finite false (Qden q) 0)
  | Zneg n =>
      SFdiv 53 1024 (S754_finite true n 0) (S754_finite false (Qden q) 0)
  end.

(** The float64 that holds the exact result [q] of an operation. *)
Definition round64 (q : Q) : Q := float_value (nearest_float q).

(** [abs(val + d) / 2] for a field [val] and an integer [d].  On an int64
    the sum and the absolute value are int64 and wrap around, and the
    division converts to float64 first; on a float64 all three operations
    are those of float64; text cannot be added to an integer. *)
Definition class_weight (val : cell) (d : Z) : outcome Q :=
  match val with
  | Int z =>
      let a := wrap64 (Z.abs (wrap64 (z + d))) in
      Ret (round64 (round64 (inject_Z a) / 2))
  | Num q => Ret (round64 (Qabs (round64 (q + inject_Z d)) / 2))
  | Str _ => Raise TypeError
  end.

(** ** numpy arrays *)

Definition np_zeros2 (r c : Z) : outcome (list (list Q)) :=
  if (r <? 0) || (c <? 0) then Raise ValueError
  else Ret (replicate (Z.to_nat r) (replicate (Z.to_nat c) 0%Q)).

Definition np_ones (n : Z) : outcome (list Q) :=
  if n <? 0 then Raise ValueError else Ret (replicate (Z.to_nat n) 1%Q).

Definition np_full (n v : Z) : outcome (list Z) :=
  if n <? 0 then Raise ValueError else Ret (replicate (Z.to_nat n) v).

(** The float64 stored for a field in an array of floats: an int64 is
    converted, and rounded when it has more than 53 significant bits. *)
Definition as_float (c : cell) : outcome Q :=
  match c with
  | Int z => Ret (round64 (inject_Z z))
  | Num q => Ret q
  | Str _ => Raise ValueError
  end.

Fixpoint as_floats (cs : list cell) : outcome (list Q) :=
  match cs with
  | [] => Ret []
  | c :: cs' => q ← as_float c; qs ← as_floats cs'; Ret (q :: qs)
  end.

(** The row written by [x[b,:] = vals] into a row of [n] floats: [vals] is
    taken as it is when it has [n] entries, and is broadcast when it has
    one. *)
Definition broadcast_row (n : nat) (vals : list cell) : outcome (list Q) :=
  qs ← as_floats vals;
  if (length qs =? n)%nat then Ret qs
  else match qs with
       | [q] => Ret (replicate n q)
       | _ => Raise ValueError
       end.

(** [x[b,:] = q] *)
Definition fill_row (x : list (list Q)) (b : nat) (q : Q)
  : outcome (list (list Q)) :=
  r ← getitem x b;
  setitem x b (replicate (length r) q).

(** [x[b,:] = vals] *)
Definition assign_row (x : list (list Q)) (b : nat) (vals : list cell)
  : outcome (list (list Q)) :=
  r ← getitem x b;
  r' ← broadcast_row (length r) vals;
  setitem x b r'.

(** [y[b,j] = q] *)
Definition setitem2 (y : list (list Q)) (b j : nat) (q : Q)
  : outcome (list (list Q)) :=
  r ← getitem y b;
  r' ← setitem r j q;
  setitem y b r'.

(** ** Batch and BatchGenerator *)

Definition _NUM_CLASSES : Z := 2.

Record Batch : Type := {
  inputs : list (list (list Q));
  targets : list (list (list Q));
  seq_lengths : list Z;
  reset_flags : list Q;
  attribs : list (list (option cell))
}.

(** The attributes of a [BatchGenerator]; [_num_batches] is [None] until
    [__init__] assigns it. *)
Record BatchGenerator : Type := {
  _num_inputs : Z;
  _key_name : string;
  _yval_name : string;
  _factor_start_idx : Z;
  _num_classes : Z;
  _num_unrollings : Z;
  _batch_size : Z;
  _data : DataFrame;
  _data_size : Z;
  _init_cursor : list Z;
  _cursor : list Z;
  _num_batches : option Z
}.

(** [self._cursor = c] *)
Definition set_cursor (self : BatchGenerator) (c : list Z) : BatchGenerator :=
  {| _num_inputs := _num_inputs self;
     _key_name := _key_name self;
     _yval_name := _yval_name self;
     _factor_start_idx := _factor_start_idx self;
     _num_classes := _num_classes self;
     _num_unrollings := _num_unrollings self;
     _batch_size := _batch_size self;
     _data := _data self;
     _data_size := _data_size self;
     _init_cursor := _init_cursor self;
     _cursor := c;
     _num_batches := _num_batches self |}.

(** [self._num_batches = n] *)
Definition set_num_batches (self : BatchGenerator) (n : Z) : BatchGenerator :=
  {| _num_inputs := _num_inputs self;
     _key_name := _key_name self;
     _yval_name := _yval_name self;
     _factor_start_idx := _factor_start_idx self;
     _num_classes := _num_classes self;
     _num_unrollings := _num_unrollings self;
     _batch_size := _batch_size self;
     _data := _data self;
     _data_size := _data_size self;
     _init_cursor := _init_cursor self;
     _cursor := _cursor self;
     _num_batches := Some n |}.

Definition rewind (self : BatchGenerator) : BatchGenerator :=
  set_cursor self (_init_cursor self).

Definition num_data_points (self : BatchGenerator) : Z := _data_size self.

(** The property [num_batches]. *)
Definition num_batches (self : BatchGenerator) : option Z := _num_batches self.

(** *** _get_reset_flags *)

Definition reset_flags_body (self : BatchGenerator) (b : nat)
    (reset_flags : list Q) : outcome (list Q) :=
  idx ← getitem (_cursor self) b;
  start ← (if idx =? 0 then Ret true
           else k ← loc (_data self) idx (_key_name self);
                kp ← loc (_data self) (idx - 1) (_key_name self);
                Ret (negb (cell_eqb k kp)));
  if start : bool then setitem reset_flags b 0%Q else Ret reset_flags.

Definition _get_reset_flags (self : BatchGenerator) : outcome (list Q) :=
  reset_flags ← np_ones (_batch_size self);
  for_in (range (_batch_size self)) (reset_flags_body self) reset_flags.

(** *** _next_step *)

(** The variables of the loop over the slots: the arrays [x] and [y], the
    list [attr], the caller's array [seq_lengths] (updated in place), and the
    generator, whose cursor the loop advances. *)
Record step_vars : Type := {
  sv_x : list (list Q);
  sv_y : list (list Q);
  sv_attr : list (option cell);
  sv_seq_lengths : list Z;
  sv_self : BatchGenerator
}.

Definition next_step_body (step : Z) (b : nat) (v : step_vars)
  : outcome step_vars :=
  let self := sv_self v in
  let data := _data self in
  idx ← getitem (_cursor self) b;
  let prev_idx := if 0 <? idx then idx - 1 else _data_size self - 1 in
  ended ← (if 0 <? step
           then kp ← loc data prev_idx (_key_name self);
                k ← loc data idx (_key_name self);
                Ret (negb (cell_eqb kp k))
           else Ret false);
  if ended : bool then
    x ← fill_row (sv_x v) b 0%Q;
    y ← fill_row (sv_y v) b 0%Q;
    l ← getitem (sv_seq_lengths v) b;
    seq_lengths ← (if l =? _num_unrollings self
                   then setitem (sv_seq_lengths v) b step
                   else Ret (sv_seq_lengths v));
    Ret {| sv_x := x; sv_y := y; sv_attr := sv_attr v ++ [None];
           sv_seq_lengths := seq_lengths; sv_self := self |}
  else
    vals ← iloc_from data idx (_factor_start_idx self);
    x ← assign_row (sv_x v) b vals;
    val ← loc data idx (_yval_name self);
    w ← class_weight val (-1);
    y ← setitem2 (sv_y v) b 0 w;
    w ← class_weight val 1;
    y ← setitem2 y b 1 w;
    a ← (if bool_decide ("date"%string ∈ columns data)
         then d ← loc data idx "date"; Ret (Some d)
         else Ret None);
    cur ← getitem (_cursor self) b;
    nxt ← pymod (cur + 1) (_data_size self);
    cursor ← setitem (_cursor self) b nxt;
    Ret {| sv_x := x; sv_y := y; sv_attr := sv_attr v ++ [a];
           sv_seq_lengths := sv_seq_lengths v;
           sv_self := set_cursor self cursor |}.

Definition _next_step (self : BatchGenerator) (step : Z) (seq_lengths : list Z)
  : outcome step_vars :=
  x ← np_zeros2 (_batch_size self) (_num_inputs self);
  y ← np_zeros2 (_batch_size self) (_num_classes self);
  for_in (range (_batch_size self)) (next_step_body step)
    {| sv_x := x; sv_y := y; sv_attr := [];
       sv_seq_lengths := seq_lengths; sv_self := self |}.

(** *** next_batch *)

Record batch_vars : Type := {
  bv_x_batch : list (list (list Q));
  bv_y_batch : list (list (list Q));
  bv_attribs : list (list (option cell));
  bv_seq_lengths : list Z;
  bv_self : BatchGenerator
}.

Definition next_batch_body (i : nat) (v : batch_vars) : outcome batch_vars :=
  s ← _next_step (bv_self v) (Z.of_nat i) (bv_seq_lengths v);
  Ret {| bv_x_batch := bv_x_batch v ++ [sv_x s];
         bv_y_batch := bv_y_batch v ++ [sv_y s];
         bv_attribs := bv_attribs v ++ [sv_attr s];
         bv_seq_lengths := sv_seq_lengths s;
         bv_self := sv_self s |}.

Definition next_batch (self : BatchGenerator) : outcome (Batch * BatchGenerator) :=
  seq_lengths ← np_full (_batch_size self) (_num_unrollings self);
  reset_flags ← _get_reset_flags self;
  v ← for_in (range (_num_unrollings self)) next_batch_body
        {| bv_x_batch := []; bv_y_batch := []; bv_attribs := [];
           bv_seq_lengths := seq_lengths; bv_self := self |};
  Ret ({| inputs := bv_x_batch v; targets := bv_y_batch v;
          seq_lengths := bv_seq_lengths v; reset_flags := reset_flags;
          attribs := bv_attribs v |}, bv_self v).

(** *** _calc_num_batches *)

(** The [while] loop of [_calc_num_batches]; [fuel] bounds the number of
    times its body runs. *)
Fixpoint calc_loop (fuel : nat) (end_idx num : Z) (self : BatchGenerator)
  : outcome (Z * BatchGenerator) :=
  c0 ← getitem (_cursor self) 0;
  if c0 <? end_idx - _num_unrollings self
  then match fuel with
       | O => Timeout
       | S fuel' =>
           '(_, self') ← next_batch self;
           calc_loop fuel' end_idx (num + 1) self'
       end
  else Ret (num, self).

Definition _calc_num_batches (fuel : nat) (self : BatchGenerator)
  : outcome (Z * BatchGenerator) :=
  let tmp_cursor := _cursor self in
  let self := rewind self in
  end_idx ← (if 1 <? _batch_size self then getitem (_init_cursor self) 1
             else Ret (_data_size self - 1));
  '(num, self) ← calc_loop fuel end_idx 0 self;
  Ret (num, set_cursor self tmp_cursor).

(** *** __init__ *)

(** The [while] loop that looks for the first record of the next entity;
    [fuel] bounds the number of times its body runs. *)
Fixpoint skip_entity (fuel : nat) (data : DataFrame) (key_name : string)
    (data_size : Z) (key : cell) (idx : Z) : outcome Z :=
  k ← loc data idx key_name;
  if cell_eqb k key
  then match fuel with
       | O => Timeout
       | S fuel' =>
           idx' ← pymod (idx + 1) data_size;
           skip_entity fuel' data key_name data_size key idx'
       end
  else Ret idx.

Definition align_body (fuel : nat) (data : DataFrame) (key_name : string)
    (data_size : Z) (b : nat) (init_cursor : list Z) : outcome (list Z) :=
  idx ← getitem init_cursor b;
  key ← loc data idx key_name;
  idx ← skip_entity fuel data key_name data_size key idx;
  if (0 <? b)%nat then setitem init_cursor b idx else Ret init_cursor.

(** [__init__] up to and including [self._cursor = self._init_cursor[:]];
    [file] is the table in the file, [None] when there is no such file. *)
Definition init_fields (fuel : nat) (file : option DataFrame)
    (key_name target_name : string) (num_inputs batch_size num_unrollings : Z)
  : outcome BatchGenerator :=
  match file with
  | None => Raise RuntimeError
  | Some data =>
      i ← index (columns data) target_name;
      let factor_start_idx := i + 1 in
      _ ← py_assert (0 <=? factor_start_idx);
      j ← index (columns data) target_name;
      _ ← py_assert (j <? factor_start_idx);
      let data_size := len data in
      segment ← floordiv data_size batch_size;
      let init_cursor :=
        (λ offset : nat, Z.of_nat offset * segment) <$> range batch_size in
      init_cursor ← for_in (range batch_size)
                       (align_body fuel data key_name data_size) init_cursor;
      Ret {| _num_inputs := num_inputs;
             _key_name := key_name;
             _yval_name := target_name;
             _factor_start_idx := factor_start_idx;
             _num_classes := _NUM_CLASSES;
             _num_unrollings := num_unrollings;
             _batch_size := batch_size;
             _data := data;
             _data_size := data_size;
             _init_cursor := init_cursor;
             _cursor := init_cursor;
             _num_batches := None |}
  end.

Definition __init__ (fuel : nat) (file : option DataFrame)
    (key_name target_name : string) (num_inputs batch_size num_unrollings : Z)
  : outcome BatchGenerator :=
  self ← init_fields fuel file key_name target_name num_inputs batch_size
           num_unrollings;
  '(num, self) ← _calc_num_batches fuel self;
  Ret (set_num_batches self num).

(** ** Examples *)

(** A record: an entity id, an integer label, and features, each read as
    the float64 nearest to the decimal written. *)
Definition row (k : string) (y : Z) (xs : list Q) : list cell :=
  Str k :: Int y :: ((λ q, Num (round64 q)) <$> xs).

(** The table of the docstring of [__init__]. *)
Definition doc_table : DataFrame :=
  {| columns := ["ID"; "YY"; "X1"; "X2"; "X3"]%string;
     rows := [ row "aa" 1    [3#10; 1#10; 9#10];
               row "aa" (-1) [2#10; 2#10; 8#10];
               row "bb" 1    [6#10; 5#10; 0];
               row "bb" (-1) [5#10; 4#10; 1#10];
               row "bb" (-1) [5#10; 5#10; 0] ]%Q |}.


(** ** Entities, and what one slot does in one step *)

(** The index before [idx], cyclically: [prev_idx] of [_next_step]. *)
Definition prev_index (self : BatchGenerator) (idx : Z) : Z :=
  if 0 <? idx then idx - 1 else _data_size self - 1.

Definition key_at (self : BatchGenerator) (idx : Z) : option cell :=
  field (_data self) idx (_key_name self).

Definition label_at (self : BatchGenerator) (idx : Z) : option cell :=
  field (_data self) idx (_yval_name self).

(** The record at [idx] is the first of its entity: its entity id differs
    from the one of the record before it, cyclically. *)
Definition entity_start (self : BatchGenerator) (idx : Z) : bool :=
  match key_at self (prev_index self idx), key_at self idx with
  | Some kp, Some k => negb (cell_eqb kp k)
  | _, _ => false
  end.

(** The condition under which [_get_reset_flags] clears a flag. *)
Definition stream_start (self : BatchGenerator) (idx : Z) : bool :=
  (idx =? 0) ||
  match key_at self idx, key_at self (idx - 1) with
  | Some k, Some kp => negb (cell_eqb k kp)
  | _, _ => false
  end.

(** The target row of a record whose label field is [val]. *)
Definition one_hot (val : cell) : outcome (list Q) :=
  w0 ← class_weight val (-1);
  w1 ← class_weight val 1;
  Ret [w0; w1].

Definition zero_row (n : Z) : list Q := replicate (Z.to_nat n) 0%Q.

(** What step [step] of [_next_step] does to the slot whose cursor is [idx]
    and whose recorded length is [l]: the rows of [x] and [y] and the entry
    of [attr] it writes, and the length and the cursor it leaves. *)
Inductive cell_step (self : BatchGenerator) (step idx l : Z)
  : option (list Q) → option (list Q) → option (option cell) →
    option Z → option Z → Prop :=
| cell_pad :
    0 < step →
    entity_start self idx = true →
    cell_step self step idx l
      (Some (zero_row (_num_inputs self)))
      (Some (zero_row (_num_classes self)))
      (Some None)
      (Some (if l =? _num_unrollings self then step else l))
      (Some idx)
| cell_emit xr val w0 w1 a :
    (0 <? step) && entity_start self idx = false →
    label_at self idx = Some val →
    class_weight val (-1) = Ret w0 →
    class_weight val 1 = Ret w1 →
    _data_size self ≠ 0 →
    cell_step self step idx l
      (Some xr)
      (Some (<[1%nat := w1]> (<[0%nat := w0]> (zero_row (_num_classes self)))))
      (Some a)
      (Some l)
      (Some ((idx + 1) mod _data_size self)).

(** Two generators that differ in their cursor only. *)
Definition same_but_cursor (self self' : BatchGenerator) : Prop :=
  ∃ c, self' = set_cursor self c.

(** Entity A with three records and entity B with two. *)
Definition two_runs : DataFrame :=
  {| columns := ["ID"; "YY"; "X1"]%string;
     rows := [ row "A" 1 [1]; row "A" (-1) [2]; row "A" (-1) [3];
               row "B" 1 [4]; row "B" (-1) [5] ]%Q |}.

(** ** Invariants of the loops, and the generators the code builds *)

(** [m[t][b]] *)
Definition at2 {A : Type} (m : list (list A)) (t b : nat) : option A :=
  r ← m !! t; r !! b.

(** The variables of the loop of [next_batch] once it has returned. *)
Definition batch_vars_of (batch : Batch) (self : BatchGenerator) : batch_vars :=
  {| bv_x_batch := inputs batch; bv_y_batch := targets batch;
     bv_attribs := attribs batch; bv_seq_lengths := seq_lengths batch;
     bv_self := self |}.

Definition in_range (self : BatchGenerator) (i : Z) : Prop :=
  0 ≤ i < _data_size self.

(** The variables of the loop of [_next_step] after the slots before [i]:
    those are done, the others untouched. *)
Definition slots_done (self : BatchGenerator) (step : Z) (sl : list Z)
    (i : nat) (v : step_vars) : Prop :=
  same_but_cursor self (sv_self v) ∧
  length (sv_x v) = Z.to_nat (_batch_size self) ∧
  length (sv_y v) = Z.to_nat (_batch_size self) ∧
  length (sv_attr v) = i ∧
  length (sv_seq_lengths v) = Z.to_nat (_batch_size self) ∧
  length (_cursor (sv_self v)) = Z.to_nat (_batch_size self) ∧
  (∀ b, (i ≤ b < Z.to_nat (_batch_size self))%nat →
     sv_x v !! b = Some (zero_row (_num_inputs self)) ∧
     sv_y v !! b = Some (zero_row (_num_classes self)) ∧
     sv_seq_lengths v !! b = sl !! b ∧
     _cursor (sv_self v) !! b = _cursor self !! b) ∧
  (∀ b idx l, (b < i)%nat → _cursor self !! b = Some idx → sl !! b = Some l →
     cell_step self step idx l (sv_x v !! b) (sv_y v !! b) (sv_attr v !! b)
       (sv_seq_lengths v !! b) (_cursor (sv_self v) !! b)).

(** The slot whose cursor was [c0] when the batch began, after [n] steps:
    it has emitted the [k] records from [c0] on, none of which but the
    first begins an entity, and was padded since. *)
Definition slot_run (self : BatchGenerator) (n b : nat) (c0 : Z)
    (v : batch_vars) : Prop :=
  ∃ k : nat,
    (k ≤ n)%nat ∧ ((0 < n)%nat → (0 < k)%nat) ∧
    _cursor (bv_self v) !! b = Some ((c0 + Z.of_nat k) mod _data_size self) ∧
    bv_seq_lengths v !! b
    = Some (if (k <? n)%nat then Z.of_nat k else _num_unrollings self) ∧
    ((k < n)%nat →
     entity_start self ((c0 + Z.of_nat k) mod _data_size self) = true) ∧
    (∀ s, (0 < s < k)%nat →
          entity_start self ((c0 + Z.of_nat s) mod _data_size self) = false) ∧
    (∀ t, (t < k)%nat →
          ∃ val row,
            label_at self ((c0 + Z.of_nat t) mod _data_size self) = Some val ∧
            one_hot val = Ret row ∧
            at2 (bv_y_batch v) t b = Some row) ∧
    (∀ t, (k ≤ t < n)%nat →
          at2 (bv_x_batch v) t b = Some (zero_row (_num_inputs self)) ∧
          at2 (bv_y_batch v) t b = Some (zero_row 2) ∧
          at2 (bv_attribs v) t b = Some None).

(** The variables of the loop of [next_batch] after [n] steps. *)
Definition steps_done (self : BatchGenerator) (n : nat) (v : batch_vars)
  : Prop :=
  same_but_cursor self (bv_self v) ∧
  length (_cursor (bv_self v)) = Z.to_nat (_batch_size self) ∧
  length (bv_seq_lengths v) = Z.to_nat (_batch_size self) ∧
  length (bv_x_batch v) = n ∧ length (bv_y_batch v) = n ∧
  length (bv_attribs v) = n ∧
  (∀ b c0, _cursor self !! b = Some c0 → slot_run self n b c0 v).

(** The starting positions once those before [i] have been aligned. *)
Definition aligned_upto (data : DataFrame) (key_name : string)
    (batch_size segment : Z) (i : nat) (ic : list Z) : Prop :=
  length ic = Z.to_nat batch_size ∧
  (∀ b, (i ≤ b < Z.to_nat batch_size)%nat →
        ic !! b = Some (Z.of_nat b * segment)) ∧
  (∀ b idx, (b < i)%nat → ic !! b = Some idx → 0 ≤ idx < len data) ∧
  ((0 < i)%nat → ic !! 0%nat = Some 0 ∧
                 is_Some (position key_name (columns data))).

(** [self] was returned by [__init__]. *)
Definition constructed (self : BatchGenerator) : Prop :=
  ∃ fuel file key_name target_name num_inputs batch_size num_unrollings,
    __init__ fuel file key_name target_name num_inputs batch_size
      num_unrollings = Ret self.

(** The states [self0] gets into by calls of [next_batch] and [rewind]. *)
Inductive reachable (self0 : BatchGenerator) : BatchGenerator → Prop :=
| reach_here : reachable self0 self0
| reach_next_batch self batch self' :
    reachable self0 self → next_batch self = Ret (batch, self') →
    reachable self0 self'
| reach_rewind self :
    reachable self0 self → reachable self0 (rewind self).

Definition engine_inv (self : BatchGenerator) : Prop :=
  _num_classes self = 2 ∧ _data_size self = len (_data self) ∧
  0 < _data_size self ∧ 1 ≤ _batch_size self ∧
  length (_init_cursor self) = Z.to_nat (_batch_size self) ∧
  length (_cursor self) = Z.to_nat (_batch_size self) ∧
  Forall (in_range self) (_init_cursor self) ∧
  Forall (in_range self) (_cursor self) ∧
  _init_cursor self !! 0%nat = Some 0.

(** [n] calls of [next_batch] in a row. *)
Fixpoint next_batches (n : nat) (self : BatchGenerator)
  : outcome (list Batch * BatchGenerator) :=
  match n with
  | O => Ret ([], self)
  | S n' =>
      '(batch, self) ← next_batch self;
      '(batches, self) ← next_batches n' self;
      Ret (batch :: batches, self)
  end.

Definition numeric (c : cell) : bool :=
  match c with
  | Int _ | Num _ => true
  | Str _ => false
  end.

(** The table has the two named columns, [num_inputs] columns after the
    label, one field per column in every row, and numbers from the label
    column on. *)
Definition table_ok (data : DataFrame) (key_name target_name : string)
    (num_inputs : Z) : bool :=
  match position key_name (columns data), position target_name (columns data) with
  | Some _, Some j =>
      (Z.of_nat (length (columns data)) =? Z.of_nat j + 1 + num_inputs) &&
      forallb (λ r, (length r =? length (columns data))%nat &&
                    forallb numeric (drop j r)) (rows data)
  | _, _ => false
  end.

(** Two records of the table have different entity ids. *)
Definition two_entities (data : DataFrame) (key_name : string) : Prop :=
  ∃ i j ki kj, field data i key_name = Some ki ∧
               field data j key_name = Some kj ∧ cell_eqb ki kj = false.

(** Every record has an entity id. *)
Definition keys_ok (data : DataFrame) (key_name : string) : Prop :=
  ∀ idx, 0 ≤ idx < len data → is_Some (field data idx key_name).

(** A generator on which no call raises. *)
Definition engine_ok (self : BatchGenerator) : Prop :=
  engine_inv self ∧
  table_ok (_data self) (_key_name self) (_yval_name self) (_num_inputs self)
    = true ∧
  ∃ j, position (_yval_name self) (columns (_data self)) = Some j ∧
       _factor_start_idx self = Z.of_nat j + 1.

(** The generator [__init__] builds over [doc_table]. *)
Definition doc_generator (batch_size num_unrollings : Z) (cursor : list Z)
    (num : Z) : BatchGenerator :=
  {| _num_inputs := 3;
     _key_name := "ID";
     _yval_name := "YY";
     _factor_start_idx := 2;
     _num_classes := 2;
     _num_unrollings := num_unrollings;
     _batch_size := batch_size;
     _data := doc_table;
     _data_size := 5;
     _init_cursor := cursor;
     _cursor := cursor;
     _num_batches := Some num |}.

(** The batch that the next call of [next_batch] returns, and the generator
    it leaves. *)
Definition coming_batch (self : BatchGenerator) : Batch :=
  match next_batch self with
  | Ret (batch, _) => batch
  | _ => {| inputs := []; targets := []; seq_lengths := [];
            reset_flags := []; attribs := [] |}
  end.

Definition after_batch (self : BatchGenerator) : BatchGenerator :=
  match next_batch self with
  | Ret (_, self') => self'
  | _ => self
  end.

(** The generator that [__init__] probes when [batch_size = 1]. *)
Definition single_slot (data : DataFrame) (key_name target_name : string)
    (num_inputs num_unrollings : Z) (j : nat) : BatchGenerator :=
  {| _num_inputs := num_inputs;
     _key_name := key_name;
     _yval_name := target_name;
     _factor_start_idx := Z.of_nat j + 1;
     _num_classes := _NUM_CLASSES;
     _num_unrollings := num_unrollings;
     _batch_size := 1;
     _data := data;
     _data_size := len data;
     _init_cursor := [0];
     _cursor := [0];
     _num_batches := None |}.

(** ** Further notions about tables and batches *)

(** All the records of the table have the same entity id. *)
Definition single_entity (data : DataFrame) (key_name : string) : Prop :=
  ∀ i j ki kj, field data i key_name = Some ki →
               field data j key_name = Some kj → cell_eqb ki kj = true.

(** One entity with three records. *)
Definition one_run : DataFrame :=
  {| columns := ["ID"; "YY"; "X1"]%string;
     rows := [ row "A" 1 [1]; row "A" (-1) [2]; row "A" (-1) [3] ]%Q |}.

(** The starting positions of the slots after slot 0 and before slot [i]
    are first records of entities. *)
Definition starts_aligned (data : DataFrame) (key_name : string) (i : nat)
    (ic : list Z) : Prop :=
  ∀ b idx, (0 < b < i)%nat → ic !! b = Some idx →
    ∃ kp k,
      field data (if 0 <? idx then idx - 1 else len data - 1) key_name
      = Some kp ∧
      field data idx key_name = Some k ∧ cell_eqb kp k = false.

(** An array of [n] rows of [c] entries. *)
Definition frame_shape (n c : nat) (f : list (list Q)) : Prop :=
  length f = n ∧ Forall (λ r, length r = c) f.

(** The row that [_next_step] writes into [x] for the record at [idx]: the
    fields after the label column, as floats. *)
Definition features_at (self : BatchGenerator) (idx : Z) : outcome (list Q) :=
  vals ← iloc_from (_data self) idx (_factor_start_idx self);
  broadcast_row (Z.to_nat (_num_inputs self)) vals.

(** The attribute that [_next_step] appends for the record at [idx]: its
    date when the table has a column of that name. *)
Definition attrib_at (self : BatchGenerator) (idx : Z)
  : outcome (option cell) :=
  if bool_decide ("date"%string ∈ columns (_data self))
  then d ← loc (_data self) idx "date"; Ret (Some d)
  else Ret None.

(** The cells of slot [b] in the steps before [n] and before the length
    recorded for the slot hold the features and the attribute of the records
    from [c0] on. *)
Definition slot_inputs (self : BatchGenerator) (n b : nat) (c0 : Z)
    (v : batch_vars) : Prop :=
  ∀ (t : nat) l,
    (t < n)%nat → bv_seq_lengths v !! b = Some l → Z.of_nat t < l →
    ∃ xrow a,
      features_at self ((c0 + Z.of_nat t) mod _data_size self) = Ret xrow ∧
      attrib_at self ((c0 + Z.of_nat t) mod _data_size self) = Ret a ∧
      at2 (bv_x_batch v) t b = Some xrow ∧
      at2 (bv_attribs v) t b = Some a.

(** The target rows of slot [b] in the steps of a batch before the length
    recorded for the slot: what the slot emitted, without the padding. *)
Definition emitted_targets (batch : Batch) (b : nat) : list (list Q) :=
  match seq_lengths batch !! b with
  | Some l => omap (λ t, at2 (targets batch) t b) (seq 0 (Z.to_nat l))
  | None => []
  end.

(** What slot [b] emitted over a run of batches. *)
Definition slot_stream (batches : list Batch) (b : nat) : list (list Q) :=
  foldr (λ batch acc, emitted_targets batch b ++ acc) [] batches.

(** The labels of the [K] records from [c0] on, cyclically. *)
Definition labels_from (self : BatchGenerator) (c0 : Z) (K : nat)
  : list (option cell) :=
  (λ i : nat, label_at self ((c0 + Z.of_nat i) mod _data_size self))
    <$> seq 0 K.

(** [row] is the target row of a record whose label field is [lab]. *)
Definition is_target (row : list Q) (lab : option cell) : Prop :=
  ∃ val, lab = Some val ∧ one_hot val = Ret row.

(** The batches that the next [n] calls of [next_batch] return, and the
    generator they leave. *)
Definition coming_batches (n : nat) (self : BatchGenerator) : list Batch :=
  match next_batches n self with
  | Ret (batches, _) => batches
  | _ => []
  end.

Definition after_batches (n : nat) (self : BatchGenerator) : BatchGenerator :=
  match next_batches n self with
  | Ret (_, self') => self'
  | _ => self
  end.

(** The generator [__init__] builds over [doc_table] when it is told of two
    input columns instead of three, with one slot and four steps. *)
Definition narrow_generator : BatchGenerator :=
  {| _num_inputs := 2;
     _key_name := "ID";
     _yval_name := "YY";
     _factor_start_idx := 2;
     _num_classes := 2;
     _num_unrollings := 4;
     _batch_size := 1;
     _data := doc_table;
     _data_size := 5;
     _init_cursor := [0];
     _cursor := [0];
     _num_batches := Some 0 |}.

(** ** The outcome monad and [for] loops *)

Lemma bind_Ret {A B : Type} (k : A → outcome B) (m : outcome A) (b : B) :
  m ≫= k = Ret b ↔ ∃ a, m = Ret a ∧ k a = Ret b.
Proof.
  destruct m as [a| |]; simpl; split.
  - intros H. by exists a.
  - by intros (a' & [= ->] & H).
  - discriminate.
  - by intros (? & ? & _).
  - discriminate.
  - by intros (? & ? & _).
Qed.

Lemma getitem_Ret {A : Type} (l : list A) (i : nat) (a : A) :
  getitem l i = Ret a ↔ l !! i = Some a.
Proof. unfold getitem. destruct (l !! i); split; congruence. Qed.

Lemma setitem_Ret {A : Type} (l l' : list A) (i : nat) (a : A) :
  setitem l i a = Ret l' ↔ (i < length l)%nat ∧ l' = <[i := a]> l.
Proof.
  unfold setitem. case_bool_decide; split.
  - by intros [= <-].
  - by intros [_ ->].
  - discriminate.
  - by intros [? _].
Qed.

Lemma loc_Ret (data : DataFrame) (idx : Z) (name : string) (c : cell) :
  loc data idx name = Ret c ↔ field data idx name = Some c.
Proof. unfold loc. destruct (field data idx name); split; congruence. Qed.

Lemma pymod_Ret (a b r : Z) : pymod a b = Ret r ↔ b ≠ 0 ∧ r = a mod b.
Proof.
  unfold pymod. destruct (Z.eqb_spec b 0); split.
  - discriminate.
  - by intros [? _].
  - by intros [= <-].
  - by intros [_ ->].
Qed.

(** Takes apart the hypotheses that say that a sequence of calls returned. *)
Ltac inv_ret :=
  repeat match goal with
    | H : _ ≫= _ = Ret _ |- _ =>
        let a := fresh "a" in
        let Ha := fresh "Ha" in
        apply bind_Ret in H as (a & Ha & H)
    | H : mret _ = Ret _ |- _ => injection H as H
    | H : Ret _ = Ret _ |- _ => injection H as H
    | H : Raise _ = Ret _ |- _ => discriminate H
    | H : Timeout = Ret _ |- _ => discriminate H
    | H : getitem _ _ = Ret _ |- _ => apply getitem_Ret in H
    | H : setitem _ _ _ = Ret _ |- _ => apply setitem_Ret in H as [? H]
    | H : loc _ _ _ = Ret _ |- _ => apply loc_Ret in H
    | H : pymod _ _ = Ret _ |- _ => apply pymod_Ret in H as [? H]
    end.

Section for_loops.
Context {S : Type}.
Implicit Types (body : nat → S → outcome S) (P : nat → S → Prop).

Lemma for_in_app {A : Type} (xs ys : list A) (f : A → S → outcome S) (s : S) :
  for_in (xs ++ ys) f s = s' ← for_in xs f s; for_in ys f s'.
Proof.
  revert s. induction xs as [|x xs IH]; intros s; simpl; [done|].
  destruct (f x s); simpl; auto.
Qed.

(** An invariant of a loop over [start .. start+n-1] holds when the loop
    returns. *)
Lemma for_in_seq_inv P body (n start : nat) (s s' : S) :
  P start s →
  (∀ i t t', (start ≤ i < start + n)%nat → P i t → body i t = Ret t' →
             P (Datatypes.S i) t') →
  for_in (seq start n) body s = Ret s' →
  P (start + n)%nat s'.
Proof.
  revert start s. induction n as [|n IH]; intros start s H0 Hstep Hrun.
  - simpl in Hrun. injection Hrun as <-. by rewrite Nat.add_0_r.
  - simpl in Hrun. inv_ret.
    replace (start + Datatypes.S n)%nat with (Datatypes.S start + n)%nat by lia.
    apply (IH (Datatypes.S start) a); [|intros; apply (Hstep i t); auto; lia|done].
    apply (Hstep start s); auto. lia.
Qed.

(** A loop whose body returns under the invariant returns. *)
Lemma for_in_seq_total P body (n start : nat) (s : S) :
  P start s →
  (∀ i t t', (start ≤ i < start + n)%nat → P i t → body i t = Ret t' →
             P (Datatypes.S i) t') →
  (∀ i t, (start ≤ i < start + n)%nat → P i t → ∃ t', body i t = Ret t') →
  ∃ s', for_in (seq start n) body s = Ret s'.
Proof.
  revert start s. induction n as [|n IH]; intros start s H0 Hstep Htot.
  - by exists s.
  - destruct (Htot start s) as [t Ht]; [lia|done|].
    simpl. rewrite Ht. simpl.
    apply (IH (Datatypes.S start) t).
    + apply (Hstep start s); auto. lia.
    + intros; apply (Hstep i t0); auto; lia.
    + intros; apply (Htot i t0); auto; lia.
Qed.
End for_loops.

(** ** One slot in one step *)

Lemma broadcast_row_length (n : nat) (vals : list cell) (qs : list Q) :
  broadcast_row n vals = Ret qs → length qs = n.
Proof.
  unfold broadcast_row. intros H. inv_ret.
  destruct (Nat.eqb_spec (length a) n).
  - by injection H as <-.
  - destruct a as [|q [|]]; try discriminate.
    injection H as <-. by rewrite length_replicate.
Qed.

Lemma fill_row_Ret (x x' : list (list Q)) (b : nat) (q : Q) :
  fill_row x b q = Ret x' →
  ∃ r, x !! b = Some r ∧ x' = <[b := replicate (length r) q]> x.
Proof. unfold fill_row. intros H. inv_ret. eauto. Qed.

Lemma assign_row_Ret (x x' : list (list Q)) (b : nat) (vals : list cell) :
  assign_row x b vals = Ret x' →
  ∃ r r', x !! b = Some r ∧ length r' = length r ∧ x' = <[b := r']> x.
Proof.
  unfold assign_row. intros H. inv_ret.
  apply broadcast_row_length in Ha0. eauto.
Qed.

Lemma setitem2_Ret (y y' : list (list Q)) (b j : nat) (q : Q) :
  setitem2 y b j q = Ret y' →
  ∃ r, y !! b = Some r ∧ (j < length r)%nat ∧ y' = <[b := <[j := q]> r]> y.
Proof. unfold setitem2. intros H. inv_ret. subst. eauto. Qed.

Lemma next_step_body_Ret (step : Z) (b : nat) (v v' : step_vars) :
  next_step_body step b v = Ret v' →
  let self := sv_self v in
  ∃ idx xr yr a,
    _cursor self !! b = Some idx ∧ sv_x v !! b = Some xr ∧
    sv_y v !! b = Some yr ∧ sv_attr v' = sv_attr v ++ [a] ∧
    ((0 < step ∧ entity_start self idx = true ∧ a = None ∧
      sv_x v' = <[b := replicate (length xr) 0%Q]> (sv_x v) ∧
      sv_y v' = <[b := replicate (length yr) 0%Q]> (sv_y v) ∧
      (∃ l, sv_seq_lengths v !! b = Some l ∧
            sv_seq_lengths v' =
              if l =? _num_unrollings self
              then <[b := step]> (sv_seq_lengths v)
              else sv_seq_lengths v) ∧
      sv_self v' = self)
     ∨
     ((0 <? step) && entity_start self idx = false ∧
      (∃ xr', length xr' = length xr ∧ sv_x v' = <[b := xr']> (sv_x v)) ∧
      (∃ val w0 w1,
          label_at self idx = Some val ∧
          class_weight val (-1) = Ret w0 ∧ class_weight val 1 = Ret w1 ∧
          sv_y v' = <[b := <[1%nat := w1]> (<[0%nat := w0]> yr)]> (sv_y v)) ∧
      sv_seq_lengths v' = sv_seq_lengths v ∧
      _data_size self ≠ 0 ∧
      sv_self v' =
        set_cursor self (<[b := (idx + 1) mod _data_size self]> (_cursor self)))).
Proof.
  unfold next_step_body. intros H. cbv zeta in *.
  apply bind_Ret in H as (idx & Hidx & H). apply getitem_Ret in Hidx.
  apply bind_Ret in H as (ended & Hend & H).
  assert (Hended : ended = (0 <? step) && entity_start (sv_self v) idx).
  { destruct (Z.ltb_spec 0 step) as [Hs|Hs]; simpl.
    - inv_ret. unfold entity_start, key_at, prev_index. by rewrite Ha, Ha0.
    - by injection Hend as <-. }
  destruct ended.
  - symmetry in Hended. apply andb_true_iff in Hended as [Hs He].
    apply Z.ltb_lt in Hs.
    apply bind_Ret in H as (x & Hx & H). apply fill_row_Ret in Hx as (xr & Hxr & ->).
    apply bind_Ret in H as (y & Hy & H). apply fill_row_Ret in Hy as (yr & Hyr & ->).
    apply bind_Ret in H as (l & Hl & H). apply getitem_Ret in Hl.
    apply bind_Ret in H as (sl & Hsl & H). injection H as <-. simpl.
    exists idx, xr, yr, None. do 4 (split; [done|]). left.
    do 5 (split; [done|]). split; [|done].
    exists l. split; [done|].
    destruct (l =? _num_unrollings (sv_self v)); inv_ret; by subst.
  - apply bind_Ret in H as (vals & Hvals & H).
    apply bind_Ret in H as (x & Hx & H).
    apply assign_row_Ret in Hx as (xr & xr' & Hxr & Hlen & ->).
    apply bind_Ret in H as (val & Hval & H). apply loc_Ret in Hval.
    apply bind_Ret in H as (w0 & Hw0 & H).
    apply bind_Ret in H as (y & Hy & H).
    apply setitem2_Ret in Hy as (yr & Hyr & Hlt0 & ->).
    apply bind_Ret in H as (w1 & Hw1 & H).
    apply bind_Ret in H as (y & Hy & H).
    apply setitem2_Ret in Hy as (yr1 & Hyr1 & Hlt1 & ->).
    apply bind_Ret in H as (a & Ha & H).
    apply bind_Ret in H as (cur & Hcur & H). apply getitem_Ret in Hcur.
    apply bind_Ret in H as (nxt & Hnxt & H). apply pymod_Ret in Hnxt as [Hsz ->].
    apply bind_Ret in H as (cursor & Hcursor & H).
    apply setitem_Ret in Hcursor as [Hb ->].
    injection H as <-. simpl.
    assert (cur = idx) as -> by congruence.
    exists idx, xr, yr, a. do 4 (split; [done|]). right.
    split; [done|]. split; [by exists xr'|]. split; [|done].
    exists val, w0, w1. do 3 (split; [done|]).
    rewrite list_lookup_insert_eq in Hyr1 by (by apply lookup_lt_Some in Hyr).
    injection Hyr1 as <-. by rewrite list_insert_insert_eq.
Qed.

(** ** One step of all slots *)

Lemma set_cursor_id (self : BatchGenerator) : set_cursor self (_cursor self) = self.
Proof. by destruct self. Qed.

Lemma same_but_cursor_refl (self : BatchGenerator) : same_but_cursor self self.
Proof. exists (_cursor self). by rewrite set_cursor_id. Qed.

Lemma same_but_cursor_trans (a b c : BatchGenerator) :
  same_but_cursor a b → same_but_cursor b c → same_but_cursor a c.
Proof. intros [x ->] [y ->]. by exists y. Qed.

Lemma same_but_cursor_set (a b : BatchGenerator) (c : list Z) :
  same_but_cursor a b → same_but_cursor a (set_cursor b c).
Proof. intros [x ->]. by exists c. Qed.

Lemma same_but_cursor_eq (a b : BatchGenerator) :
  same_but_cursor a b → b = set_cursor a (_cursor b).
Proof. by intros [x ->]. Qed.

Lemma lookup_snoc_last {A : Type} (l : list A) (a : A) (i : nat) :
  i = length l → (l ++ [a]) !! i = Some a.
Proof. intros ->. apply list_lookup_middle. done. Qed.

Section next_step.
Variables (self : BatchGenerator) (step : Z) (sl : list Z).
Let B := Z.to_nat (_batch_size self).


Lemma slots_done_step (i : nat) (v v' : step_vars) :
  (i < B)%nat → length sl = B →
  slots_done self step sl i v → next_step_body step i v = Ret v' → slots_done self step sl (S i) v'.
Proof.
  intros Hi Hsl (Hsame & Hx & Hy & Hattr & Hlen & Hcur & Htodo & Hdone) Hbody.
  apply next_step_body_Ret in Hbody. cbv zeta in Hbody.
  destruct Hbody as (idx & xr & yr & a & Hidx & Hxr & Hyr & Ha & Hcase).
  destruct (Htodo i) as (Hx0 & Hy0 & Hsl0 & Hc0); [lia|].
  assert (xr = zero_row (_num_inputs self)) as -> by congruence.
  assert (yr = zero_row (_num_classes self)) as -> by congruence.
  rewrite Hidx in Hc0. symmetry in Hc0.
  destruct Hsame as [c Hself].
  destruct Hcase as
    [(Hs & He & -> & Hx' & Hy' & (l & Hl & Hsl') & Hself')
    |(Hne & (xr' & Hxlen & Hx') & (val & w0 & w1 & Hval & Hw0 & Hw1 & Hy') &
      Hsl' & Hsz & Hself')].
  - (* the slot is padded *)
    unfold zero_row in Hx', Hy'. rewrite length_replicate in Hx', Hy'.
    assert (Hlen' : length (sv_seq_lengths v') = B).
    { rewrite Hsl'. destruct (l =? _); by rewrite ?length_insert. }
    split; [exists c; congruence|].
    split; [by rewrite Hx', length_insert|].
    split; [by rewrite Hy', length_insert|].
    split; [rewrite Ha, length_app; simpl; lia|].
    split; [done|]. split; [by rewrite Hself'|]. split.
    + intros b Hb. destruct (Htodo b) as (? & ? & ? & ?); [lia|].
      rewrite Hx', Hy', Hself', Hsl'.
      rewrite !list_lookup_insert_ne by lia.
      repeat split; try done.
      destruct (l =? _); [rewrite list_lookup_insert_ne by lia; done|done].
    + intros b idx' l' Hb Hidx' Hl'.
      destruct (decide (b = i)) as [->|Hbi].
      * assert (idx' = idx) as -> by congruence.
        assert (l' = l) as -> by congruence.
        rewrite Hx', Hy', Ha, Hself', Hsl', Hidx.
        rewrite !list_lookup_insert_eq by lia.
        rewrite lookup_snoc_last by done.
        replace ((if l =? _num_unrollings (sv_self v)
                  then <[i:=step]> (sv_seq_lengths v)
                  else sv_seq_lengths v) !! i)
          with (Some (if l =? _num_unrollings self then step else l)).
        { apply cell_pad; [done|]. by rewrite Hself in He. }
        rewrite Hself; simpl.
        destruct (l =? _num_unrollings self);
          [rewrite list_lookup_insert_eq by lia; done|done].
      * specialize (Hdone b idx' l' ltac:(lia) Hidx' Hl').
        rewrite Hx', Hy', Ha, Hself', Hsl'.
        rewrite !list_lookup_insert_ne by lia.
        rewrite lookup_app_l by lia.
        destruct (l =? _); [rewrite list_lookup_insert_ne by lia; done|done].
  - (* the slot emits its record *)
    split; [exists (<[i:=(idx + 1) mod _data_size (sv_self v)]> (_cursor (sv_self v)));
            rewrite Hself', Hself; done|].
    split; [by rewrite Hx', length_insert|].
    split; [by rewrite Hy', length_insert|].
    split; [rewrite Ha, length_app; simpl; lia|].
    split; [by rewrite Hsl'|].
    split; [rewrite Hself'; simpl; by rewrite length_insert|]. split.
    + intros b Hb. destruct (Htodo b) as (? & ? & ? & ?); [lia|].
      rewrite Hx', Hy', Hself', Hsl'. simpl.
      rewrite !list_lookup_insert_ne by lia. done.
    + intros b idx' l' Hb Hidx' Hl'.
      destruct (decide (b = i)) as [->|Hbi].
      * assert (idx' = idx) as -> by congruence.
        rewrite Hx', Hy', Ha, Hself', Hsl'. simpl.
        rewrite !list_lookup_insert_eq by lia.
        rewrite lookup_snoc_last by done.
        rewrite Hsl0, Hl'.
        replace (_data_size (sv_self v)) with (_data_size self)
          by (by rewrite Hself).
        apply (cell_emit _ _ _ _ _ val).
        -- by rewrite Hself in Hne.
        -- by rewrite Hself in Hval.
        -- done.
        -- done.
        -- by rewrite Hself in Hsz.
      * specialize (Hdone b idx' l' ltac:(lia) Hidx' Hl').
        rewrite Hx', Hy', Ha, Hself', Hsl'. simpl.
        rewrite !list_lookup_insert_ne by lia.
        by rewrite lookup_app_l by lia.
Qed.

Lemma np_zeros2_Ret (r c : Z) (x : list (list Q)) :
  np_zeros2 r c = Ret x →
  0 ≤ r ∧ 0 ≤ c ∧ x = replicate (Z.to_nat r) (zero_row c).
Proof.
  unfold np_zeros2. destruct (Z.ltb_spec r 0), (Z.ltb_spec c 0); simpl;
    try discriminate.
  intros [= <-]. done.
Qed.

Lemma slots_done_0 (x y : list (list Q)) :
  length (_cursor self) = B → length sl = B →
  np_zeros2 (_batch_size self) (_num_inputs self) = Ret x →
  np_zeros2 (_batch_size self) (_num_classes self) = Ret y →
  slots_done self step sl 0 {| sv_x := x; sv_y := y; sv_attr := [];
                  sv_seq_lengths := sl; sv_self := self |}.
Proof.
  intros Hcur Hsl (_ & _ & ->)%np_zeros2_Ret (_ & _ & ->)%np_zeros2_Ret.
  split; [apply same_but_cursor_refl|]. simpl.
  rewrite !length_replicate. repeat split; try done.
  - apply lookup_replicate_2. unfold B in *. lia.
  - apply lookup_replicate_2. unfold B in *. lia.
  - intros. lia.
Qed.

(** What [_next_step] returns, slot by slot. *)
Lemma _next_step_Ret (v' : step_vars) :
  length (_cursor self) = B → length sl = B →
  _next_step self step sl = Ret v' →
  slots_done self step sl B v'.
Proof.
  intros Hcur Hsl H. unfold _next_step in H.
  apply bind_Ret in H as (x & Hx & H). apply bind_Ret in H as (y & Hy & H).
  apply (for_in_seq_inv (slots_done self step sl)) in H; [done| |].
  - by apply slots_done_0.
  - intros i t t' Hi. apply slots_done_step; [unfold B; lia|done].
Qed.
End next_step.

(** ** The steps of one batch *)


Lemma at2_snoc_lt {A : Type} (m : list (list A)) (r : list A) (t b : nat) :
  (t < length m)%nat → at2 (m ++ [r]) t b = at2 m t b.
Proof. intros Ht. unfold at2. by rewrite lookup_app_l. Qed.

Lemma at2_snoc_last {A : Type} (m : list (list A)) (r : list A) (t b : nat) :
  t = length m → at2 (m ++ [r]) t b = r !! b.
Proof. intros Ht. unfold at2. by rewrite lookup_snoc_last. Qed.

Section next_batch.
Variable self : BatchGenerator.
Let B := Z.to_nat (_batch_size self).
Let U := _num_unrollings self.
Let size := _data_size self.


Hypothesis classes : _num_classes self = 2.

Lemma slot_run_step (n b : nat) (c0 : Z) (v : batch_vars) (s : step_vars) :
  Z.of_nat n < U →
  length (bv_x_batch v) = n → length (bv_y_batch v) = n →
  length (bv_attribs v) = n →
  slot_run self n b c0 v →
  (∀ idx l, _cursor (bv_self v) !! b = Some idx →
            bv_seq_lengths v !! b = Some l →
            cell_step self (Z.of_nat n) idx l (sv_x s !! b) (sv_y s !! b)
              (sv_attr s !! b) (sv_seq_lengths s !! b)
              (_cursor (sv_self s) !! b)) →
  slot_run self (S n) b c0
    {| bv_x_batch := bv_x_batch v ++ [sv_x s];
       bv_y_batch := bv_y_batch v ++ [sv_y s];
       bv_attribs := bv_attribs v ++ [sv_attr s];
       bv_seq_lengths := sv_seq_lengths s;
       bv_self := sv_self s |}.
Proof.
  intros Hn Hxl Hyl Hal (k & Hkn & Hpos & Hcur & Hlen & Hend & Hmid & Hreal & Hpad) Hstep.
  specialize (Hstep _ _ Hcur Hlen).
  inversion Hstep
    as [Hs He Hx Hy Ha Hl Hc|xr val w0 w1 a Hne Hval Hw0 Hw1 Hsz Hx Hy Ha Hl Hc];
    clear Hstep.
  - (* padded at step n *)
    exists k. simpl. rewrite <- Hl, <- Hc.
    split; [lia|]. split; [lia|]. split; [done|]. split.
    { destruct (Nat.ltb_spec k n) as [Hlt|Hge].
      - destruct (Z.eqb_spec (Z.of_nat k) (_num_unrollings self)) as [Heq|_].
        + unfold U in Hn. lia.
        + by destruct (Nat.ltb_spec k (S n)); [|lia].
      - assert (k = n) as -> by lia.
        rewrite Z.eqb_refl. by destruct (Nat.ltb_spec n (S n)); [|lia]. }
    split; [done|]. split; [done|]. split.
    + intros t Ht. destruct (Hreal t Ht) as (v0 & r0 & Hv0 & Hr0 & Hy0).
      exists v0, r0. do 2 (split; [done|]). by rewrite at2_snoc_lt by lia.
    + intros t Ht. destruct (decide (t = n)) as [->|Hne].
      * rewrite !at2_snoc_last by done. rewrite <- Hx, <- Hy, <- Ha.
        by rewrite classes.
      * rewrite !at2_snoc_lt by lia. apply Hpad. lia.
  - (* a record is emitted at step n *)
    assert (k = n) as ->.
    { destruct (decide (k = n)) as [|Hkn']; [done|].
      rewrite Hend in Hne by lia.
      destruct (Z.ltb_spec 0 (Z.of_nat n)); [discriminate|lia]. }
    exists (S n). simpl. rewrite <- Hl, <- Hc.
    split; [lia|]. split; [lia|]. split.
    { f_equal. fold size. rewrite Z.add_mod_idemp_l by done. f_equal. lia. }
    split.
    { rewrite Nat.ltb_irrefl. by destruct (Nat.ltb_spec (S n) (S n)); [lia|]. }
    split; [lia|]. split.
    + intros s0 Hs0. destruct (decide (s0 = n)) as [->|Hs0n].
      * destruct (Z.ltb_spec 0 (Z.of_nat n)); [done|lia].
      * apply Hmid. lia.
    + split; [|intros; lia].
      intros t Ht. destruct (decide (t = n)) as [->|Htn].
      * exists val, [w0; w1]. split; [done|].
        split; [unfold one_hot; by rewrite Hw0, Hw1|].
        rewrite at2_snoc_last by done. rewrite <- Hy. by rewrite classes.
      * destruct (Hreal t ltac:(lia)) as (v0 & r0 & Hv0 & Hr0 & Hy0).
        exists v0, r0. do 2 (split; [done|]). by rewrite at2_snoc_lt by lia.
Qed.

Lemma steps_done_step (n : nat) (v v' : batch_vars) :
  Z.of_nat n < U →
  steps_done self n v → next_batch_body n v = Ret v' → steps_done self (S n) v'.
Proof.
  intros Hn (Hsame & Hcl & Hsl & Hxl & Hyl & Hal & Hslots) Hbody.
  unfold next_batch_body in Hbody.
  apply bind_Ret in Hbody as (s & Hs & Hbody). injection Hbody as <-.
  destruct Hsame as [c Hself].
  apply _next_step_Ret in Hs; [|rewrite Hself; simpl; by rewrite Hself in Hcl
                                |rewrite Hself; simpl; done].
  rewrite Hself in Hs. simpl in Hs. fold B in Hs.
  destruct Hs as (Hsame' & Hx & Hy & Hattr & Hlen & Hcur & _ & Hdone).
  split; [simpl; destruct Hsame' as [c' ->]; by exists c'|]. simpl.
  split; [done|]. split; [done|].
  rewrite !length_app; simpl.
  split; [lia|]. split; [lia|]. split; [lia|].
  intros b c0 Hc0. apply slot_run_step; try done; [by apply Hslots|].
  intros idx l Hidx Hl.
  assert (Hb : (b < B)%nat).
  { apply lookup_lt_Some in Hidx. lia. }
  rewrite Hself in Hidx. simpl in Hidx.
  specialize (Hdone b idx l Hb Hidx Hl).
  inversion Hdone; [by apply cell_pad|by eapply cell_emit].
Qed.
End next_batch.

(** ** A whole batch *)

Lemma np_ones_Ret (n : Z) (l : list Q) :
  np_ones n = Ret l → l = replicate (Z.to_nat n) 1%Q.
Proof. unfold np_ones. destruct (n <? 0); [discriminate|]. by intros [= <-]. Qed.

Lemma np_full_Ret (n v : Z) (l : list Z) :
  np_full n v = Ret l → l = replicate (Z.to_nat n) v.
Proof. unfold np_full. destruct (n <? 0); [discriminate|]. by intros [= <-]. Qed.

Lemma reset_flags_body_Ret (self : BatchGenerator) (b : nat) (rf rf' : list Q) :
  reset_flags_body self b rf = Ret rf' →
  ∃ idx, _cursor self !! b = Some idx ∧
         rf' = if stream_start self idx then <[b := 0%Q]> rf else rf.
Proof.
  unfold reset_flags_body. intros H.
  apply bind_Ret in H as (idx & Hidx & H). apply getitem_Ret in Hidx.
  apply bind_Ret in H as (start & Hstart & H).
  exists idx. split; [done|].
  assert (start = stream_start self idx) as <-.
  { unfold stream_start. destruct (idx =? 0); simpl.
    - by injection Hstart as <-.
    - inv_ret. unfold key_at. by rewrite Ha, Ha0. }
  destruct start; inv_ret; by subst.
Qed.

Lemma _get_reset_flags_Ret (self : BatchGenerator) (rf : list Q) :
  length (_cursor self) = Z.to_nat (_batch_size self) →
  _get_reset_flags self = Ret rf →
  length rf = Z.to_nat (_batch_size self) ∧
  ∀ b idx, _cursor self !! b = Some idx →
           rf !! b = Some (if stream_start self idx then 0%Q else 1%Q).
Proof.
  intros Hcur H. unfold _get_reset_flags in H.
  apply bind_Ret in H as (rf0 & Hrf0 & H). apply np_ones_Ret in Hrf0 as ->.
  set (B := Z.to_nat (_batch_size self)) in *.
  apply (for_in_seq_inv (λ i (l : list Q),
           length l = B ∧
           (∀ b, (i ≤ b < B)%nat → l !! b = Some 1%Q) ∧
           (∀ b idx, (b < i)%nat → _cursor self !! b = Some idx →
                     l !! b = Some (if stream_start self idx then 0%Q else 1%Q))))
    in H.
  - destruct H as (Hlen & _ & Hdone). split; [done|].
    intros b idx Hidx. apply Hdone; [|done].
    apply lookup_lt_Some in Hidx. lia.
  - rewrite length_replicate. split; [done|]. split; [|intros; lia].
    intros b Hb. apply lookup_replicate_2. lia.
  - intros i l l' Hi (Hlen & Htodo & Hdone) Hbody.
    apply reset_flags_body_Ret in Hbody as (idx & Hidx & ->).
    split; [destruct (stream_start self idx); by rewrite ?length_insert|].
    split.
    + intros b Hb. destruct (stream_start self idx);
        [rewrite list_lookup_insert_ne by lia|]; apply Htodo; lia.
    + intros b idx' Hb Hidx'. destruct (decide (b = i)) as [->|Hbi].
      * assert (idx' = idx) as -> by congruence.
        destruct (stream_start self idx).
        -- rewrite list_lookup_insert_eq by lia. done.
        -- apply Htodo. lia.
      * destruct (stream_start self idx);
          [rewrite list_lookup_insert_ne by lia|]; apply Hdone; auto; lia.
Qed.



Lemma next_batch_Ret (self self' : BatchGenerator) (batch : Batch) :
  _num_classes self = 2 →
  length (_cursor self) = Z.to_nat (_batch_size self) →
  Forall (in_range self) (_cursor self) →
  next_batch self = Ret (batch, self') →
  steps_done self (Z.to_nat (_num_unrollings self)) (batch_vars_of batch self') ∧
  length (reset_flags batch) = Z.to_nat (_batch_size self) ∧
  ∀ b idx, _cursor self !! b = Some idx →
           reset_flags batch !! b
           = Some (if stream_start self idx then 0%Q else 1%Q).
Proof.
  intros Hcls Hcur Hrange H. unfold next_batch in H.
  apply bind_Ret in H as (sl & Hsl & H). apply np_full_Ret in Hsl as ->.
  apply bind_Ret in H as (rf & Hrf & H).
  apply bind_Ret in H as (v & Hv & H). injection H as <- <-.
  apply _get_reset_flags_Ret in Hrf as [Hrfl Hrf]; [|done].
  split; [|done].
  apply (for_in_seq_inv (steps_done self)) in Hv.
  - by destruct v.
  - split; [apply same_but_cursor_refl|]. simpl.
    rewrite length_replicate. repeat split; try done.
    intros b c0 Hc0. exists 0%nat. simpl.
    assert (Hb : (b < Z.to_nat (_batch_size self))%nat).
    { apply lookup_lt_Some in Hc0. lia. }
    split; [done|]. split; [lia|]. split.
    { rewrite Hc0. f_equal. rewrite Z.add_0_r. symmetry. apply Z.mod_small.
      rewrite Forall_lookup in Hrange. by apply (Hrange b). }
    split; [by apply lookup_replicate_2|].
    repeat split; intros; lia.
  - intros i t t' Hi. apply steps_done_step; [done|lia].
Qed.

(** ** What every call leaves alone *)

Lemma next_step_body_same (step : Z) (b : nat) (v v' : step_vars) :
  next_step_body step b v = Ret v' → same_but_cursor (sv_self v) (sv_self v').
Proof.
  intros H. apply next_step_body_Ret in H. cbv zeta in H.
  destruct H as (idx & xr & yr & a & _ & _ & _ & _ & [H|H]).
  - destruct H as (_ & _ & _ & _ & _ & _ & ->). apply same_but_cursor_refl.
  - destruct H as (_ & _ & _ & _ & _ & ->). by eexists.
Qed.

Lemma _next_step_same (self : BatchGenerator) (step : Z) (sl : list Z)
    (v : step_vars) :
  _next_step self step sl = Ret v → same_but_cursor self (sv_self v).
Proof.
  unfold _next_step. intros H.
  apply bind_Ret in H as (x & _ & H). apply bind_Ret in H as (y & _ & H).
  apply (for_in_seq_inv (λ _ v, same_but_cursor self (sv_self v))) in H; auto.
  - apply same_but_cursor_refl.
  - intros i t t' _ Ht Hb. apply next_step_body_same in Hb.
    by apply (same_but_cursor_trans _ (sv_self t)).
Qed.

Lemma next_batch_same (self self' : BatchGenerator) (batch : Batch) :
  next_batch self = Ret (batch, self') → same_but_cursor self self'.
Proof.
  unfold next_batch. intros H.
  apply bind_Ret in H as (sl & _ & H). apply bind_Ret in H as (rf & _ & H).
  apply bind_Ret in H as (v & Hv & H). injection H as _ <-.
  apply (for_in_seq_inv (λ _ v, same_but_cursor self (bv_self v))) in Hv; auto.
  - apply same_but_cursor_refl.
  - intros i t t' _ Ht Hb. unfold next_batch_body in Hb.
    apply bind_Ret in Hb as (s & Hs & Hb). injection Hb as <-. simpl.
    apply _next_step_same in Hs. by apply (same_but_cursor_trans _ (bv_self t)).
Qed.

Lemma calc_loop_same (fuel : nat) (end_idx num num' : Z)
    (self self' : BatchGenerator) :
  calc_loop fuel end_idx num self = Ret (num', self') →
  same_but_cursor self self' ∧ num ≤ num' ∧ is_Some (_cursor self !! 0%nat).
Proof.
  revert num self. induction fuel as [|fuel IH]; intros num self H;
    simpl in H; apply bind_Ret in H as (c0 & Hc0 & H);
    apply getitem_Ret in Hc0;
    (destruct (c0 <? end_idx - _num_unrollings self);
     [|injection H as <- <-; split; [apply same_but_cursor_refl|];
       split; [lia|eauto]]); [done|].
  - apply bind_Ret in H as ([batch self1] & Hb & H).
    apply next_batch_same in Hb. apply IH in H as (Hs & Hn & _).
    split; [by apply (same_but_cursor_trans _ self1)|]. split; [lia|eauto].
Qed.

(** [_calc_num_batches] gives the generator back as it got it. *)
Lemma _calc_num_batches_same (fuel : nat) (num : Z) (self self' : BatchGenerator) :
  _calc_num_batches fuel self = Ret (num, self') →
  self' = self ∧ 0 ≤ num ∧ is_Some (_init_cursor self !! 0%nat).
Proof.
  unfold _calc_num_batches. intros H.
  apply bind_Ret in H as (end_idx & _ & H).
  apply bind_Ret in H as ([n s1] & Hloop & H). injection H as <- <-.
  apply calc_loop_same in Hloop as ([c ->] & Hn & Hc). simpl in *.
  split; [by destruct self|done].
Qed.

(** ** Construction *)

Lemma field_Some (data : DataFrame) (idx : Z) (name : string) (c : cell) :
  field data idx name = Some c →
  0 ≤ idx < len data ∧ is_Some (position name (columns data)).
Proof.
  unfold field, len. destruct (Z.ltb_spec idx 0); [done|].
  destruct (rows data !! Z.to_nat idx) as [r|] eqn:Hr; [|done]. simpl.
  apply lookup_lt_Some in Hr.
  destruct (position name (columns data)); [|done].
  intros _. split; [lia|eauto].
Qed.

(** Two fields are equal when they are the same text, or numbers of the
    same value. *)
Lemma cell_eqb_true (a b : cell) :
  cell_eqb a b = true ↔
  match a, b with
  | Str s, Str t => s = t
  | _, _ => match number a, number b with
            | Some p, Some q => (p == q)%Q
            | _, _ => False
            end
  end.
Proof.
  destruct a as [s|m|p], b as [t|n|q]; simpl; try (split; [discriminate|done]).
  - apply bool_decide_eq_true.
  - rewrite Z.eqb_eq. split; [by intros ->|apply inject_Z_injective].
  - apply Qeq_bool_iff.
  - apply Qeq_bool_iff.
  - apply Qeq_bool_iff.
Qed.

Lemma cell_eqb_refl (c : cell) : cell_eqb c c = true.
Proof. apply cell_eqb_true. destruct c; simpl; reflexivity. Qed.

(** ** The arithmetic of numpy *)

(** Rounding depends on the value of a rational only. *)
Lemma round64_Qeq (p q : Q) : (p == q)%Q → round64 p = round64 q.
Proof.
  intros H. unfold round64, nearest_float. by rewrite (Qred_complete _ _ H).
Qed.

Lemma digits2_pos_bounds (p : positive) :
  2 ^ (Zpos (digits2_pos p) - 1) ≤ Zpos p < 2 ^ Zpos (digits2_pos p).
Proof.
  induction p as [p IH|p IH|]; cbn [digits2_pos]; [| |simpl; lia];
    rewrite Pos2Z.inj_succ;
    replace (Z.succ (Zpos (digits2_pos p)) - 1)
      with (Z.succ (Zpos (digits2_pos p) - 1)) by lia;
    rewrite !Z.pow_succ_r by lia; lia.
Qed.

Lemma Zdigits2_unique (m n : Z) :
  2 ^ (n - 1) ≤ m < 2 ^ n → 0 < n → Zdigits2 m = n.
Proof.
  intros Hm Hn. assert (0 < m) by (pose proof (Z.pow_pos_nonneg 2 (n - 1)); lia).
  destruct m as [|p|p]; try lia. cbn [Zdigits2].
  pose proof (digits2_pos_bounds p) as Hp.
  destruct (Z.lt_trichotomy (Zpos (digits2_pos p)) n) as [Hlt|[Heq|Hgt]];
    [|done|].
  - assert (2 ^ Zpos (digits2_pos p) ≤ 2 ^ (n - 1))
      by (apply Z.pow_le_mono_r; lia). lia.
  - assert (2 ^ n ≤ 2 ^ (Zpos (digits2_pos p) - 1))
      by (apply Z.pow_le_mono_r; lia). lia.
Qed.

Lemma binary_round_aux_exact (s : bool) (m e : Z) :
  2 ^ 53 ≤ m < 2 ^ 54 → Z.even m = true → -1075 ≤ e ≤ 970 →
  binary_round_aux 53 1024 s m e loc_Exact
  = S754_finite s (Z.to_pos (Z.div2 m)) (e + 1).
Proof.
  intros Hm Hev He.
  destruct m as [|[M|M|]|]; try done; try lia.
  assert (HM : 2 ^ 52 ≤ Zpos M < 2 ^ 53) by lia.
  unfold binary_round_aux, shr_fexp.
  rewrite (Zdigits2_unique (Zpos M~0) 54) by lia.
  assert (Hf1 : fexp 53 1024 (54 + e) - e = 1) by (unfold fexp, emin; lia).
  rewrite Hf1. cbn [shr shr_record_of_loc SpecFloat.iter_pos shr_1 orb].
  cbn [loc_of_shr_record shr_m round_nearest_even].
  rewrite (Zdigits2_unique (Zpos M) 53) by lia.
  assert (Hf2 : fexp 53 1024 (53 + (e + 1)) - (e + 1) = 0)
    by (unfold fexp, emin; lia).
  rewrite Hf2. cbn [shr shr_record_of_loc shr_m].
  replace (e + 1 <=? 1024 - 53) with true by (symmetry; apply Z.leb_le; lia).
  reflexivity.
Qed.

Lemma div_eucl_pair (a b : Z) : Z.div_eucl a b = (a / b, a mod b).
Proof. unfold Z.div, Z.modulo. by destruct (Z.div_eucl a b). Qed.

Lemma new_location_0 (n : Z) : new_location n 0 = loc_Exact.
Proof. unfold new_location. by destruct (Z.even n). Qed.

Lemma SFdiv_exact (s : bool) (p den : positive) (k : Z) :
  Zpos den = 2 ^ k → 0 ≤ k ≤ 1000 → Zpos p < 2 ^ 53 →
  SFdiv 53 1024 (S754_finite s p 0) (S754_finite false den 0)
  = S754_finite s (Z.to_pos (Zpos p * 2 ^ (53 - Zpos (digits2_pos p))))
      (Zpos (digits2_pos p) - 53 - k).
Proof.
  intros Hden Hk Hp. pose proof (digits2_pos_bounds p) as Hd.
  set (d := Zpos (digits2_pos p)) in *.
  assert (Hd53 : 1 ≤ d ≤ 53).
  { split; [unfold d; lia|].
    destruct (Z.le_gt_cases d 53) as [|Hgt]; [done|].
    assert (2 ^ 53 ≤ 2 ^ (d - 1)) by (apply Z.pow_le_mono_r; lia). lia. }
  unfold SFdiv, SFdiv_core_binary.
  assert (Hdd : Zdigits2 (Zpos den) = k + 1).
  { apply Zdigits2_unique; [|lia].
    rewrite Hden, Z.add_simpl_r, Z.add_1_r, Z.pow_succ_r by lia.
    pose proof (Z.pow_pos_nonneg 2 k). lia. }
  rewrite Hdd.
  change (Zdigits2 (Zpos p)) with d.
  assert (He : Z.min (fexp 53 1024 (d + 0 - (k + 1 + 0))) (0 - 0) = d - k - 54)
    by (unfold fexp, emin; lia).
  rewrite He.
  destruct (0 - 0 - (d - k - 54)) as [|sh|sh] eqn:Hs; try lia.
  rewrite <- Hs. rewrite Z.shiftl_mul_pow2 by lia.
  rewrite div_eucl_pair.
  replace (0 - 0 - (d - k - 54)) with (54 - d + k) by lia.
  rewrite Z.pow_add_r by lia. rewrite <- Hden, Z.mul_assoc.
  rewrite Z.div_mul, Z.mod_mul by lia.
  rewrite new_location_0, xorb_false_r.
  rewrite binary_round_aux_exact.
  - f_equal; [|lia]. f_equal.
    replace (54 - d) with (Z.succ (53 - d)) by lia.
    rewrite Z.pow_succ_r by lia.
    replace (Zpos p * (2 * 2 ^ (53 - d))) with (2 * (Zpos p * 2 ^ (53 - d)))
      by lia.
    rewrite Z.div2_div, Z.mul_comm, Z.div_mul by lia. done.
  - assert (H53 : 2 ^ 53 = 2 ^ (54 - d) * 2 ^ (d - 1))
      by (rewrite <- Z.pow_add_r by lia; f_equal; lia).
    assert (H54 : 2 ^ 54 = 2 ^ (54 - d) * 2 ^ d)
      by (rewrite <- Z.pow_add_r by lia; f_equal; lia).
    rewrite H53, H54.
    pose proof (Z.pow_pos_nonneg 2 (54 - d) ltac:(lia) ltac:(lia)). nia.
  - replace (54 - d) with (Z.succ (53 - d)) by lia.
    rewrite Z.pow_succ_r by lia.
    replace (Zpos p * (2 * 2 ^ (53 - d))) with (2 * (Zpos p * 2 ^ (53 - d)))
      by lia.
    apply Z.even_mul.
  - lia.
Qed.

Lemma pos_shiftl_1 (j : Z) : 0 ≤ j → Zpos (Pos.shiftl 1 (Z.to_N j)) = 2 ^ j.
Proof.
  intros Hj. destruct j as [|j|j]; [done| |lia].
  change (Pos.shiftl 1 (Z.to_N (Zpos j))) with (shift_pos j 1).
  rewrite shift_pos_correct. change (Z.pow_pos 2 j) with (2 ^ Zpos j). lia.
Qed.

Lemma Qred_reduced (n : Z) (d : positive) :
  Z.gcd n (Zpos d) = 1 → Qred (n # d) = n # d.
Proof.
  intros Hg. unfold Qred.
  pose proof (Z.ggcd_gcd n (Zpos d)) as H1.
  pose proof (Z.ggcd_correct_divisors n (Zpos d)) as H2.
  destruct (Z.ggcd n (Zpos d)) as [g [aa bb]]. simpl in *.
  rewrite Hg in H1. subst g. destruct H2 as [-> Hb].
  rewrite Z.mul_1_l in *. by rewrite <- Hb.
Qed.

Lemma Qred_Qred (q : Q) : Qred (Qred q) = Qred q.
Proof. apply Qred_complete, Qred_correct. Qed.

(** A rational with a numerator below [2^53] and a power of two below
    [2^1001] as denominator, in lowest terms, is a float64. *)
Lemma round64_dyadic (q : Q) (k : Z) :
  Zpos (Qden (Qred q)) = 2 ^ k → 0 ≤ k ≤ 1000 →
  Z.abs (Qnum (Qred q)) < 2 ^ 53 →
  round64 q = Qred q.
Proof.
  intros Hden Hk Hnum. unfold round64, nearest_float.
  pose proof (Qred_Qred q) as Hrr. pose proof (gcd_Qred q) as Hg.
  destruct (Qred q) as [n den]. cbn [Qnum Qden] in *.
  assert (Hval : ∀ (b : bool) (p : positive),
    n = (if b then Zneg p else Zpos p) →
    float_value
      (S754_finite b (Z.to_pos (Zpos p * 2 ^ (53 - Zpos (digits2_pos p))))
         (Zpos (digits2_pos p) - 53 - k)) = n # den).
  { intros b p Hn. assert (Hp : Zpos p < 2 ^ 53) by (destruct b; lia).
    pose proof (digits2_pos_bounds p) as Hd.
    set (d := Zpos (digits2_pos p)) in *.
    assert (Hd53 : 1 ≤ d ≤ 53).
    { split; [unfold d; lia|].
      destruct (Z.le_gt_cases d 53) as [|Hgt]; [done|].
      assert (2 ^ 53 ≤ 2 ^ (d - 1)) by (apply Z.pow_le_mono_r; lia). lia. }
    assert (Hpow : 0 < 2 ^ (53 - d)) by (apply Z.pow_pos_nonneg; lia).
    unfold float_value.
    set (M := Z.to_pos (Zpos p * 2 ^ (53 - d))).
    assert (HM : Zpos M = Zpos p * 2 ^ (53 - d))
      by (unfold M; rewrite Z2Pos.id; lia).
    clearbody M.
    destruct (Z.leb_spec 0 (d - 53 - k)) as [He|He].
    - assert (d = 53) as Hd' by lia. assert (k = 0) by lia. subst k.
      rewrite Hd' in *.
      change (53 - 53) with 0 in HM. change (53 - 53 - 0) with 0.
      change (2 ^ 0) with 1 in *.
      assert (den = 1%positive) as -> by lia.
      unfold inject_Z. f_equal. destruct b; lia.
    - rewrite <- Hrr. apply Qred_complete. unfold Qeq. cbn [Qnum Qden].
      rewrite pos_shiftl_1 by lia.
      replace (- (d - 53 - k)) with (53 - d + k) by lia.
      rewrite Z.pow_add_r, Hden by lia. destruct b; subst n; nia. }
  destruct n as [|p|p].
  - cbn [float_value]. rewrite Z.gcd_0_l in Hg. simpl in Hg.
    by assert (den = 1%positive) as -> by lia.
  - rewrite (SFdiv_exact false p den k) by (done || lia). by apply Hval.
  - rewrite (SFdiv_exact true p den k) by (done || lia). by apply Hval.
Qed.

Lemma round64_int (a : Z) : Z.abs a < 2 ^ 53 → round64 (inject_Z a) = inject_Z a.
Proof.
  intros Ha.
  assert (Hred : Qred (inject_Z a) = inject_Z a)
    by (apply Qred_reduced, Z.gcd_1_r).
  rewrite (round64_dyadic _ 0); rewrite ?Hred; done.
Qed.

Lemma round64_half (a : Z) :
  Z.abs a < 2 ^ 53 → (round64 (inject_Z a / 2) == inject_Z a / 2)%Q.
Proof.
  intros Ha. destruct (Z.Even_or_Odd a) as [[b ->]|[b ->]].
  - assert (Hq : (inject_Z (2 * b) / 2 == inject_Z b)%Q).
    { unfold Qeq, Qdiv, Qmult, Qinv, inject_Z. cbn [Qnum Qden]. lia. }
    rewrite (round64_Qeq _ _ Hq), round64_int by lia. by rewrite Hq.
  - assert (Hred : Qred (inject_Z (2 * b + 1) / 2) = (2 * b + 1) # 2).
    { rewrite <- (Qred_reduced (2 * b + 1) 2).
      - apply Qred_complete. unfold Qeq, Qdiv, Qmult, Qinv, inject_Z.
        cbn [Qnum Qden]. lia.
      - rewrite Z.gcd_comm, Z.add_comm, Z.mul_comm, Z.gcd_add_mult_diag_r.
        apply Z.gcd_1_r. }
    rewrite (round64_dyadic _ 1); rewrite ?Hred; [|done|lia|cbn [Qnum]; lia].
    unfold Qeq, Qdiv, Qmult, Qinv, inject_Z. cbn [Qnum Qden]. lia.
Qed.

Lemma wrap64_small (z : Z) : - 2 ^ 63 ≤ z < 2 ^ 63 → wrap64 z = z.
Proof. intros H. unfold wrap64. rewrite Z.mod_small; lia. Qed.

(** On an int64 label [z] with [|z + d| < 2^53] nothing wraps around and
    nothing is rounded: the weight is [|z + d| / 2]. *)
Lemma class_weight_small (z d : Z) :
  Z.abs (z + d) < 2 ^ 53 →
  ∃ w, class_weight (Int z) d = Ret w ∧ (w == Qabs (inject_Z (z + d)) / 2)%Q.
Proof.
  intros H. eexists. split; [done|].
  rewrite (wrap64_small (z + d)) by lia.
  rewrite (wrap64_small (Z.abs (z + d))) by lia.
  rewrite round64_int by lia. by rewrite round64_half by lia.
Qed.

Lemma one_hot_plus (val : cell) :
  cell_eqb val (Int 1) = true → one_hot val = Ret [0; 1]%Q.
Proof.
  intros H%cell_eqb_true. destruct val as [s|z|q]; simpl in H; [done| |].
  - apply inject_Z_injective in H as ->. vm_compute. reflexivity.
  - unfold one_hot, class_weight.
    rewrite (round64_Qeq (q + inject_Z (-1)) 0) by (rewrite H; reflexivity).
    rewrite (round64_Qeq (q + inject_Z 1) 2) by (rewrite H; reflexivity).
    vm_compute. reflexivity.
Qed.

Lemma one_hot_minus (val : cell) :
  cell_eqb val (Int (-1)) = true → one_hot val = Ret [1; 0]%Q.
Proof.
  intros H%cell_eqb_true. destruct val as [s|z|q]; simpl in H; [done| |].
  - apply inject_Z_injective in H as ->. vm_compute. reflexivity.
  - unfold one_hot, class_weight.
    rewrite (round64_Qeq (q + inject_Z (-1)) (-2)) by (rewrite H; reflexivity).
    rewrite (round64_Qeq (q + inject_Z 1) 0) by (rewrite H; reflexivity).
    vm_compute. reflexivity.
Qed.

(** At the ends of the two formats: the largest int64 label plus one wraps
    around to the smallest int64, whose absolute value is itself; an int64
    field of 54 bits is rounded to 53; a decimal is read as the nearest
    float64. *)
Example int64_label_wraps :
  one_hot (Int (2 ^ 63 - 1))
  = Ret [inject_Z (2 ^ 62); inject_Z (- 2 ^ 62)].
Proof. vm_compute. reflexivity. Qed.

Lemma as_float_small (z : Z) :
  Z.abs z < 2 ^ 53 → as_float (Int z) = Ret (inject_Z z).
Proof. intros H. cbn [as_float]. by rewrite round64_int. Qed.

Example int64_field_rounds :
  as_float (Int (2 ^ 53 + 1)) = Ret (inject_Z (2 ^ 53)).
Proof. vm_compute. reflexivity. Qed.

Example decimal_field :
  round64 (3 # 10) = (5404319552844595 # 18014398509481984)%Q.
Proof. vm_compute. reflexivity. Qed.

(** ** The scan for the next entity *)

Lemma skip_entity_range (fuel : nat) (data : DataFrame) (key_name : string)
    (size : Z) (key : cell) (idx idx' : Z) :
  0 ≤ idx < size →
  skip_entity fuel data key_name size key idx = Ret idx' →
  0 ≤ idx' < size.
Proof.
  revert idx. induction fuel as [|fuel IH]; intros idx Hidx H;
    simpl in H; apply bind_Ret in H as (k & _ & H);
    (destruct (cell_eqb k key); [|by injection H as <-]); [done|].
  apply bind_Ret in H as (i & Hi & H). apply pymod_Ret in Hi as [_ ->].
  apply IH in H; [done|]. apply Z.mod_pos_bound. lia.
Qed.

Section alignment.
Variables (fuel : nat) (data : DataFrame) (key_name : string).
Variables (batch_size segment : Z).
Let B := Z.to_nat batch_size.


Lemma aligned_upto_step (i : nat) (ic ic' : list Z) :
  (i < B)%nat →
  aligned_upto data key_name batch_size segment i ic →
  align_body fuel data key_name (len data) i ic = Ret ic' →
  aligned_upto data key_name batch_size segment (S i) ic'.
Proof.
  intros Hi (Hlen & Htodo & Hdone & Hzero) H. unfold align_body in H.
  apply bind_Ret in H as (idx & Hidx & H). apply getitem_Ret in Hidx.
  apply bind_Ret in H as (key & Hkey & H). apply loc_Ret in Hkey.
  apply bind_Ret in H as (idx' & Hskip & H).
  apply field_Some in Hkey as [Hrange Hpos].
  apply skip_entity_range in Hskip; [|done].
  destruct (Nat.ltb_spec 0 i) as [Hpos_i|Hzero_i].
  - apply setitem_Ret in H as [_ ->].
    split; [by rewrite length_insert|]. split; [|split].
    + intros b Hb. rewrite list_lookup_insert_ne by lia. apply Htodo. lia.
    + intros b j Hb. destruct (decide (b = i)) as [->|Hbi].
      * rewrite list_lookup_insert_eq by lia. by intros [= <-].
      * rewrite list_lookup_insert_ne by lia. apply Hdone. lia.
    + intros _. rewrite list_lookup_insert_ne by lia. by apply Hzero.
  - injection H as <-. assert (i = 0%nat) as -> by lia.
    rewrite Htodo in Hidx by lia. injection Hidx as <-.
    split; [done|]. split; [|split].
    + intros b Hb. apply Htodo. lia.
    + intros b j Hb Hj. assert (b = 0%nat) as -> by lia.
      rewrite (Htodo 0%nat) in Hj by lia. injection Hj as <-. lia.
    + intros _. split; [|done]. rewrite Htodo by lia. done.
Qed.

Lemma aligned_upto_0 :
  aligned_upto data key_name batch_size segment 0 ((λ offset : nat, Z.of_nat offset * segment) <$> range batch_size).
Proof.
  unfold range. split; [by rewrite length_fmap, length_seq|].
  split; [|split; intros; lia].
  intros b Hb. rewrite list_lookup_fmap, lookup_seq_lt by (unfold B in *; lia).
  done.
Qed.
End alignment.

Lemma init_fields_Ret (fuel : nat) (file : option DataFrame)
    (key_name target_name : string) (num_inputs batch_size num_unrollings : Z)
    (self : BatchGenerator) :
  init_fields fuel file key_name target_name num_inputs batch_size
    num_unrollings = Ret self →
  ∃ data i ic,
    file = Some data ∧ position target_name (columns data) = Some i ∧
    batch_size ≠ 0 ∧
    aligned_upto data key_name batch_size (len data / batch_size)
      (Z.to_nat batch_size) ic ∧
    self = {| _num_inputs := num_inputs;
              _key_name := key_name;
              _yval_name := target_name;
              _factor_start_idx := Z.of_nat i + 1;
              _num_classes := _NUM_CLASSES;
              _num_unrollings := num_unrollings;
              _batch_size := batch_size;
              _data := data;
              _data_size := len data;
              _init_cursor := ic;
              _cursor := ic;
              _num_batches := None |}.
Proof.
  unfold init_fields. destruct file as [data|]; [|done]. intros H.
  apply bind_Ret in H as (i & Hi & H). unfold index in Hi.
  destruct (position target_name (columns data)) as [j|] eqn:Hj; [|done].
  injection Hi as <-.
  apply bind_Ret in H as (? & _ & H). apply bind_Ret in H as (j' & Hj' & H).
  apply bind_Ret in H as (? & _ & H).
  apply bind_Ret in H as (segment & Hseg & H).
  unfold floordiv in Hseg. destruct (Z.eqb_spec batch_size 0); [done|].
  injection Hseg as <-.
  apply bind_Ret in H as (ic & Hic & H). injection H as <-.
  exists data, j, ic. do 3 (split; [done|]). split; [|done].
  apply (for_in_seq_inv (aligned_upto data key_name batch_size
                           (len data / batch_size))) in Hic; [done| |].
  - apply aligned_upto_0.
  - intros i t t' Hi Ht Hb.
    apply (aligned_upto_step fuel data key_name batch_size _ i t); auto. lia.
Qed.

(** ** Generators that the code can build and reach *)


Lemma __init___Ret (fuel : nat) (file : option DataFrame)
    (key_name target_name : string) (num_inputs batch_size num_unrollings : Z)
    (self : BatchGenerator) :
  __init__ fuel file key_name target_name num_inputs batch_size
    num_unrollings = Ret self →
  ∃ self1 num,
    init_fields fuel file key_name target_name num_inputs batch_size
      num_unrollings = Ret self1 ∧
    _calc_num_batches fuel self1 = Ret (num, self1) ∧
    self = set_num_batches self1 num ∧ 0 ≤ num.
Proof.
  unfold __init__. intros H.
  apply bind_Ret in H as (self1 & Hinit & H).
  apply bind_Ret in H as ([num self2] & Hcalc & H). injection H as <-.
  destruct (_calc_num_batches_same _ _ _ _ Hcalc) as (-> & Hnum & _).
  by exists self1, num.
Qed.

Lemma constructed_inv (self : BatchGenerator) :
  constructed self →
  engine_inv self ∧ _cursor self = _init_cursor self ∧
  ∃ num, _num_batches self = Some num ∧ 0 ≤ num.
Proof.
  intros (fuel & file & key & target & n & B & U & H).
  apply __init___Ret in H as (self1 & num & Hinit & Hcalc & -> & Hnum).
  apply _calc_num_batches_same in Hcalc as (_ & _ & [c0 Hc0]).
  apply init_fields_Ret in Hinit
    as (data & i & ic & -> & Hi & HB & (Hlen & Htodo & Hdone & Hzero) & ->).
  simpl in *.
  assert (HB1 : 1 ≤ B).
  { apply lookup_lt_Some in Hc0. lia. }
  destruct Hzero as [Hz _]; [lia|].
  assert (Hall : Forall (λ idx, 0 ≤ idx < len data) ic).
  { apply Forall_lookup. intros b idx Hb. apply (Hdone b); [|done].
    apply lookup_lt_Some in Hb. lia. }
  split; [|split; [done|by exists num]].
  unfold engine_inv, in_range; simpl. repeat split; try done.
  rewrite Forall_lookup in Hall. apply (Hall 0%nat 0 Hz).
Qed.

Lemma engine_inv_next_batch (self self' : BatchGenerator) (batch : Batch) :
  engine_inv self → next_batch self = Ret (batch, self') → engine_inv self'.
Proof.
  intros (Hcls & Hsz & Hpos & HB & Hil & Hcl & Hir & Hcr & Hz) H.
  apply next_batch_Ret in H as [(Hsame & Hlen & _ & _ & _ & _ & Hslots) _];
    [|done..].
  simpl in *. destruct Hsame as [c ->]. simpl in *.
  unfold engine_inv, in_range; simpl. repeat split; try done.
  apply Forall_lookup. intros b idx Hb.
  destruct (_cursor self !! b) as [c0|] eqn:Hc0.
  - destruct (Hslots b c0 Hc0) as (k & _ & _ & Hk & _). simpl in Hk.
    assert (idx = (c0 + Z.of_nat k) mod _data_size self) as -> by congruence.
    apply Z.mod_pos_bound. lia.
  - apply lookup_ge_None in Hc0. apply lookup_lt_Some in Hb. lia.
Qed.

Lemma engine_inv_rewind (self : BatchGenerator) :
  engine_inv self → engine_inv (rewind self).
Proof.
  intros (Hcls & Hsz & Hpos & HB & Hil & Hcl & Hir & Hcr & Hz).
  unfold engine_inv, in_range, rewind; simpl. repeat split; done.
Qed.

Lemma reachable_inv (self0 self : BatchGenerator) :
  engine_inv self0 → reachable self0 self →
  engine_inv self ∧ same_but_cursor self0 self.
Proof.
  intros H0. induction 1 as [|self batch self' _ [IH1 IH2] Hb|self _ [IH1 IH2]].
  - split; [done|apply same_but_cursor_refl].
  - split; [by apply (engine_inv_next_batch self self' batch)|].
    apply next_batch_same in Hb. by apply (same_but_cursor_trans _ self).
  - split; [by apply engine_inv_rewind|].
    by apply same_but_cursor_set.
Qed.

(** A reachable generator rewinds to the constructed one. *)
Lemma rewind_reachable (self0 self : BatchGenerator) :
  constructed self0 → reachable self0 self → rewind self = self0.
Proof.
  intros (Hinv & Hcur & _)%constructed_inv Hreach.
  apply reachable_inv in Hreach as [_ [c ->]]; [|done].
  unfold rewind, set_cursor; simpl. destruct self0; simpl in *. by subst.
Qed.

(** ** Tables on which no call raises *)


Lemma position_lt (name : string) (l : list string) (j : nat) :
  position name l = Some j → (j < length l)%nat.
Proof.
  revert j. induction l as [|c l IH]; intros j; simpl; [done|].
  case_bool_decide; [intros [= <-]; lia|].
  destruct (position name l) as [j'|]; [|done]. simpl.
  intros [= <-]. specialize (IH j' eq_refl). lia.
Qed.

Lemma position_None (name : string) (l : list string) :
  position name l = None ↔ name ∉ l.
Proof.
  induction l as [|c l IH]; simpl.
  - split; [intros _; apply not_elem_of_nil|done].
  - case_bool_decide as Hc.
    + subst. split; [done|]. intros []. apply list_elem_of_here.
    + rewrite not_elem_of_cons. destruct (position name l); simpl.
      * split; [done|]. intros [_ H]. by apply IH in H.
      * split; [|done]. intros _. split; [congruence|]. by apply IH.
Qed.

Section table.
Variables (data : DataFrame) (key_name target_name : string) (num_inputs : Z).
Hypothesis ok : table_ok data key_name target_name num_inputs = true.

Lemma table_ok_inv :
  ∃ jk j, position key_name (columns data) = Some jk ∧
          position target_name (columns data) = Some j ∧
          Z.of_nat (length (columns data)) = Z.of_nat j + 1 + num_inputs ∧
          ∀ i r, rows data !! i = Some r →
                 length r = length (columns data) ∧
                 forallb numeric (drop j r) = true.
Proof.
  unfold table_ok in ok.
  destruct (position key_name (columns data)) as [jk|]; [|done].
  destruct (position target_name (columns data)) as [j|]; [|done].
  apply andb_true_iff in ok as [Hn Hrows]. apply Z.eqb_eq in Hn.
  exists jk, j. do 3 (split; [done|]).
  intros i r Hr. rewrite forallb_forall in Hrows.
  specialize (Hrows r). rewrite <- list_elem_of_In in Hrows.
  destruct (andb_prop _ _ (Hrows (list_elem_of_lookup_2 _ _ _ Hr))) as [Hl Hnum].
  by apply Nat.eqb_eq in Hl.
Qed.

Lemma table_ok_field (name : string) (idx : Z) :
  name ∈ columns data → 0 ≤ idx < len data →
  is_Some (field data idx name).
Proof.
  intros Hname Hidx. destruct table_ok_inv as (jk & jt & _ & _ & _ & Hrows).
  unfold field, len in *. destruct (Z.ltb_spec idx 0); [lia|].
  destruct (lookup_lt_is_Some_2 (rows data) (Z.to_nat idx)) as [r Hr]; [lia|].
  rewrite Hr. simpl.
  destruct (position name (columns data)) as [j|] eqn:Hj.
  - simpl. apply lookup_lt_is_Some_2. apply position_lt in Hj.
    destruct (Hrows _ _ Hr) as [Hl _]. by rewrite Hl.
  - by apply position_None in Hj.
Qed.

Lemma table_ok_keys : keys_ok data key_name.
Proof.
  intros idx Hidx. apply table_ok_field; [|done].
  destruct table_ok_inv as (jk & _ & Hjk & _).
  destruct (decide (key_name ∈ columns data)) as [|Hn]; [done|].
  apply position_None in Hn. congruence.
Qed.

Lemma table_ok_label (idx : Z) :
  0 ≤ idx < len data →
  ∃ val, field data idx target_name = Some val ∧ numeric val = true.
Proof.
  intros Hidx. destruct table_ok_inv as (jk & j & _ & Hj & _ & Hrows).
  unfold field, len in *. destruct (Z.ltb_spec idx 0); [lia|].
  destruct (lookup_lt_is_Some_2 (rows data) (Z.to_nat idx)) as [r Hr]; [lia|].
  rewrite Hr, Hj. simpl. destruct (Hrows _ _ Hr) as [Hlen Hnum].
  apply position_lt in Hj.
  destruct (lookup_lt_is_Some_2 r j) as [c Hc]; [lia|]. rewrite Hc.
  rewrite forallb_forall in Hnum. specialize (Hnum c).
  rewrite <- list_elem_of_In in Hnum.
  exists c. split; [done|]. apply Hnum.
  apply list_elem_of_lookup. exists 0%nat. rewrite lookup_drop.
  by rewrite Nat.add_0_r.
Qed.

Lemma class_weight_total (val : cell) (d : Z) :
  numeric val = true → ∃ w, class_weight val d = Ret w.
Proof. destruct val; [done| |]; intros _; by eexists. Qed.

Lemma as_floats_total (cs : list cell) :
  forallb numeric cs = true →
  ∃ qs, as_floats cs = Ret qs ∧ length qs = length cs.
Proof.
  induction cs as [|c cs IH]; simpl; [by exists []|].
  intros [Hc Hcs]%andb_prop.
  destruct (IH Hcs) as (qs & -> & Hlen).
  destruct c as [|z|q]; [done| |]; simpl; eexists; (split; [done|]); simpl;
    by rewrite Hlen.
Qed.

Lemma table_ok_features (idx : Z) (j : nat) :
  position target_name (columns data) = Some j →
  0 ≤ idx < len data →
  ∃ vals qs, iloc_from data idx (Z.of_nat j + 1) = Ret vals ∧
             broadcast_row (Z.to_nat num_inputs) vals = Ret qs.
Proof.
  intros Hj Hidx. destruct table_ok_inv as (jk & j' & _ & Hj' & Hn & Hrows).
  assert (j' = j) as -> by congruence.
  unfold iloc_from, len in *.
  destruct (Z.ltb_spec idx 0); [lia|].
  destruct (Z.ltb_spec idx 0); [lia|].
  destruct (Z.leb_spec (Z.of_nat (length (rows data))) idx); [lia|]. simpl.
  destruct (lookup_lt_is_Some_2 (rows data) (Z.to_nat idx)) as [r Hr]; [lia|].
  rewrite Hr. destruct (Z.ltb_spec (Z.of_nat j + 1) 0); [lia|].
  destruct (Hrows _ _ Hr) as [Hlen Hnum].
  eexists. 
  destruct (as_floats_total (drop (Z.to_nat (Z.of_nat j + 1)) r))
    as (qs & Hqs & Hqlen).
  { replace (Z.to_nat (Z.of_nat j + 1)) with (j + 1)%nat by lia.
    rewrite <- drop_drop. rewrite forallb_forall in Hnum |- *.
    intros c Hc. apply Hnum. rewrite <- list_elem_of_In in Hc |- *.
    apply list_elem_of_lookup in Hc as [i Hi]. rewrite lookup_drop in Hi.
    by apply (list_elem_of_lookup_2 _ (1 + i)). }
  exists qs. split; [done|]. unfold broadcast_row. rewrite Hqs. simpl.
  rewrite length_drop in Hqlen.
  destruct (Nat.eqb_spec (length qs) (Z.to_nat num_inputs)); [done|lia].
Qed.
End table.

(** ** No call raises on such a table *)


Lemma engine_ok_same (self self' : BatchGenerator) :
  same_but_cursor self self' → engine_inv self' → engine_ok self →
  engine_ok self'.
Proof. intros [c ->] Hinv (_ & Hok & Hj). by split. Qed.

Lemma getitem_Some {A : Type} (l : list A) (i : nat) (a : A) :
  l !! i = Some a → getitem l i = Ret a.
Proof. apply getitem_Ret. Qed.

Lemma setitem_lt {A : Type} (l : list A) (i : nat) (a : A) :
  (i < length l)%nat → setitem l i a = Ret (<[i := a]> l).
Proof. intros. by apply setitem_Ret. Qed.

Lemma loc_Some (data : DataFrame) (idx : Z) (name : string) (c : cell) :
  field data idx name = Some c → loc data idx name = Ret c.
Proof. apply loc_Ret. Qed.

Lemma pymod_nonzero (a b : Z) : b ≠ 0 → pymod a b = Ret (a mod b).
Proof. intros. by apply pymod_Ret. Qed.

Local Opaque Qabs Qminus Qplus Qdiv round64 wrap64.

Lemma next_step_body_total (self : BatchGenerator) (step : Z) (sl : list Z)
    (i : nat) (v : step_vars) :
  engine_ok self → length sl = Z.to_nat (_batch_size self) →
  (i < Z.to_nat (_batch_size self))%nat →
  slots_done self step sl i v →
  ∃ v', next_step_body step i v = Ret v'.
Proof.
  intros (Hinv & Hok & j & Hj & Hstart) Hsl Hi
    ([c Hself] & Hx & Hy & Hattr & Hlen & Hcur & Htodo & _).
  destruct Hinv as (Hcls & Hsz & Hpos & HB & _ & Hcl & _ & Hcr & _).
  destruct (Htodo i) as (Hxi & Hyi & Hsli & Hci); [lia|].
  destruct (lookup_lt_is_Some_2 (_cursor self) i) as [idx Hidx]; [lia|].
  assert (Hrange : 0 ≤ idx < len (_data self)).
  { rewrite Forall_lookup in Hcr. rewrite <- Hsz. by apply (Hcr i). }
  destruct (lookup_lt_is_Some_2 sl i) as [l Hl]; [lia|].
  rewrite Hidx in Hci. rewrite Hl in Hsli.
  pose proof (table_ok_keys _ _ _ _ Hok) as Hkeys.
  destruct (Hkeys idx Hrange) as [k Hk].
  destruct (Hkeys (if 0 <? idx then idx - 1 else _data_size self - 1))
    as [kp Hkp]; [destruct (Z.ltb_spec 0 idx); lia|].
  destruct (table_ok_features _ _ _ _ Hok idx j Hj Hrange)
    as (vals & qs & Hvals & Hqs).
  destruct (table_ok_label _ _ _ _ Hok idx Hrange) as (val & Hq & Hnum).
  destruct (class_weight_total val (-1) Hnum) as [w0 Hw0].
  destruct (class_weight_total val 1 Hnum) as [w1 Hw1].
  assert (Hdate : ∃ a,
    (if bool_decide ("date"%string ∈ columns (_data self))
     then d ← loc (_data self) idx "date"; Ret (Some d)
     else Ret None) = Ret a).
  { case_bool_decide as Hd; [|by eexists].
    destruct (table_ok_field _ _ _ _ Hok _ idx Hd Hrange) as [d Hdt].
    rewrite (loc_Some _ _ _ _ Hdt). by eexists. }
  destruct Hdate as [a Hdate].
  unfold next_step_body. cbv zeta. rewrite Hself in *. simpl in *.
  rewrite (getitem_Some _ _ _ Hci). simpl.
  rewrite (loc_Some _ _ _ _ Hk), (loc_Some _ _ _ _ Hkp). simpl.
  assert (Hended : ∃ ended,
    (if 0 <? step then Ret (negb (cell_eqb kp k)) else Ret false)
    = Ret ended) by (destruct (0 <? step); by eexists).
  destruct Hended as [ended ->]. simpl. destruct ended.
  - unfold fill_row.
    rewrite (getitem_Some _ _ _ Hxi), (getitem_Some _ _ _ Hyi),
      (getitem_Some _ _ _ Hsli). simpl.
    rewrite !setitem_lt by lia. simpl.
    destruct (l =? _num_unrollings self); simpl; by eexists.
  - rewrite Hstart, Hvals. simpl.
    unfold assign_row, setitem2.
    rewrite (getitem_Some _ _ _ Hxi), (getitem_Some _ _ _ Hyi). simpl.
    unfold zero_row. rewrite length_replicate, Hqs. simpl.
    rewrite (loc_Some _ _ _ _ Hq). simpl.
    rewrite Hw0, Hw1, Hcls.
    simpl. unfold getitem.
    do 4 (rewrite ?setitem_lt by (rewrite ?length_insert; simpl; lia); simpl;
          rewrite ?list_lookup_insert_eq by lia; simpl).
    rewrite Hdate. simpl.
    rewrite pymod_nonzero by lia. simpl.
    rewrite setitem_lt by lia. simpl. by eexists.
Qed.

Lemma steps_done_inv (self : BatchGenerator) (n : nat) (v : batch_vars) :
  engine_inv self → steps_done self n v → engine_inv (bv_self v).
Proof.
  intros (Hcls & Hsz & Hpos & HB & Hil & Hcl & Hir & Hcr & Hz)
    (Hsame & Hlen & _ & _ & _ & _ & Hslots).
  destruct Hsame as [c Hc]. rewrite Hc in *. simpl in *.
  unfold engine_inv, in_range; simpl. repeat split; try done.
  apply Forall_lookup. intros b idx Hb.
  destruct (_cursor self !! b) as [c0|] eqn:Hc0.
  - destruct (Hslots b c0 Hc0) as (k & _ & _ & Hk & _).
    rewrite Hc in Hk. simpl in Hk.
    assert (idx = (c0 + Z.of_nat k) mod _data_size self) as -> by congruence.
    apply Z.mod_pos_bound. lia.
  - apply lookup_ge_None in Hc0. apply lookup_lt_Some in Hb. lia.
Qed.

Lemma np_zeros2_nonneg (r c : Z) :
  0 ≤ r → 0 ≤ c → np_zeros2 r c = Ret (replicate (Z.to_nat r) (zero_row c)).
Proof.
  intros. unfold np_zeros2.
  destruct (Z.ltb_spec r 0), (Z.ltb_spec c 0); simpl; done || lia.
Qed.

Lemma _next_step_total (self : BatchGenerator) (step : Z) (sl : list Z) :
  engine_ok self → length sl = Z.to_nat (_batch_size self) →
  ∃ v, _next_step self step sl = Ret v.
Proof.
  intros Hok Hsl. pose proof Hok as (Hinv & Htab & j & Hj & Hstart).
  pose proof Hinv as (Hcls & Hsz & Hpos & HB & _ & Hcl & _ & Hcr & _).
  destruct (table_ok_inv _ _ _ _ Htab) as (jk & j' & _ & Hj' & Hn & _).
  apply position_lt in Hj'.
  unfold _next_step.
  rewrite !np_zeros2_nonneg by lia. simpl.
  apply (for_in_seq_total (slots_done self step sl)).
  - apply slots_done_0; try done; by apply np_zeros2_nonneg; lia.
  - intros i t t' Hi. apply slots_done_step; [lia|done].
  - intros i t Hi Ht. apply (next_step_body_total self step sl); auto. lia.
Qed.

Lemma _get_reset_flags_total (self : BatchGenerator) :
  engine_ok self → ∃ rf, _get_reset_flags self = Ret rf.
Proof.
  intros ((Hcls & Hsz & Hpos & HB & _ & Hcl & _ & Hcr & _) & Htab & _).
  unfold _get_reset_flags, np_ones.
  destruct (Z.ltb_spec (_batch_size self) 0); [lia|]. simpl.
  apply (for_in_seq_total
           (λ _ (l : list Q), length l = Z.to_nat (_batch_size self))).
  - by rewrite length_replicate.
  - intros i l l' _ Hl Hb. apply reset_flags_body_Ret in Hb as (idx & _ & ->).
    destruct (stream_start self idx); by rewrite ?length_insert.
  - intros i l Hi Hl. unfold reset_flags_body.
    destruct (lookup_lt_is_Some_2 (_cursor self) i) as [idx Hidx]; [lia|].
    rewrite (getitem_Some _ _ _ Hidx). simpl.
    assert (Hrange : 0 ≤ idx < len (_data self)).
    { rewrite Forall_lookup in Hcr. rewrite <- Hsz. by apply (Hcr i). }
    pose proof (table_ok_keys _ _ _ _ Htab) as Hkeys.
    destruct (Z.eqb_spec idx 0) as [->|Hne]; simpl.
    + rewrite setitem_lt by lia. by eexists.
    + destruct (Hkeys idx Hrange) as [k Hk].
      destruct (Hkeys (idx - 1)) as [kp Hkp]; [lia|].
      rewrite (loc_Some _ _ _ _ Hk), (loc_Some _ _ _ _ Hkp). simpl.
      destruct (negb (cell_eqb k kp)); [rewrite setitem_lt by lia|]; by eexists.
Qed.

Lemma next_batch_total (self : BatchGenerator) :
  engine_ok self → ∃ batch self', next_batch self = Ret (batch, self').
Proof.
  intros Hok. pose proof Hok as (Hinv & Htab & Hj).
  pose proof Hinv as (Hcls & Hsz & Hpos & HB & _ & Hcl & _ & Hcr & _).
  unfold next_batch, np_full.
  destruct (Z.ltb_spec (_batch_size self) 0); [lia|]. simpl.
  destruct (_get_reset_flags_total self Hok) as [rf ->]. simpl.
  destruct (for_in_seq_total (steps_done self) next_batch_body
              (Z.to_nat (_num_unrollings self)) 0
              {| bv_x_batch := []; bv_y_batch := []; bv_attribs := [];
                 bv_seq_lengths :=
                   replicate (Z.to_nat (_batch_size self)) (_num_unrollings self);
                 bv_self := self |}) as [v Hv].
  - split; [apply same_but_cursor_refl|]. simpl.
    rewrite length_replicate. repeat split; try done.
    intros b c0 Hc0. exists 0%nat. simpl.
    assert (Hb : (b < Z.to_nat (_batch_size self))%nat).
    { apply lookup_lt_Some in Hc0. lia. }
    split; [done|]. split; [lia|]. split.
    { rewrite Hc0. f_equal. rewrite Z.add_0_r. symmetry. apply Z.mod_small.
      rewrite Forall_lookup in Hcr. by apply (Hcr b). }
    split; [by apply lookup_replicate_2|].
    repeat split; intros; lia.
  - intros i t t' Hi. apply steps_done_step; [done|lia].
  - intros i t Hi Ht. unfold next_batch_body.
    pose proof (steps_done_inv _ _ _ Hinv Ht) as Hinv'.
    destruct Ht as (Hsame & Hlen & Hsl & _).
    destruct (_next_step_total (bv_self t) (Z.of_nat i) (bv_seq_lengths t))
      as [s ->].
    + by apply (engine_ok_same self).
    + destruct Hsame as [c ->]. done.
    + by eexists.
  - unfold range. rewrite Hv. simpl. by eexists _, _.
Qed.

(** ** Construction returns *)

Lemma cell_eqb_sym (a b : cell) : cell_eqb a b = cell_eqb b a.
Proof.
  assert (Hsym : ∀ a b, cell_eqb a b = true → cell_eqb b a = true).
  { clear. intros a b H%cell_eqb_true. apply cell_eqb_true.
    destruct a, b; simpl in *; try done; by symmetry. }
  destruct (cell_eqb a b) eqn:H1, (cell_eqb b a) eqn:H2; try done.
  - apply Hsym in H1. congruence.
  - apply Hsym in H2. congruence.
Qed.

Lemma cell_eqb_trans (a b c : cell) :
  cell_eqb a b = true → cell_eqb b c = true → cell_eqb a c = true.
Proof.
  intros H1%cell_eqb_true H2%cell_eqb_true. apply cell_eqb_true.
  destruct a, b, c; simpl in *; try done; try congruence;
    by rewrite H1.
Qed.

Section skip.
Variables (data : DataFrame) (key_name : string).
Hypothesis keys : keys_ok data key_name.

(** The scan stops at the first record of another entity, which it meets
    within [d] records. *)
Lemma skip_entity_total (key : cell) (d : nat) :
  ∀ fuel idx,
    0 ≤ idx < len data → (d ≤ fuel)%nat →
    (∃ k', field data ((idx + Z.of_nat d) mod len data) key_name = Some k' ∧
           cell_eqb k' key = false) →
    ∃ idx', skip_entity fuel data key_name (len data) key idx = Ret idx'.
Proof.
  induction d as [|d IH]; intros fuel idx Hidx Hfuel (k' & Hk' & Hne);
    destruct (keys idx Hidx) as [k Hk].
  - rewrite Z.add_0_r, Z.mod_small in Hk' by done.
    assert (k' = k) as -> by congruence.
    destruct fuel; simpl; rewrite (loc_Some _ _ _ _ Hk); simpl; rewrite Hne;
      by eexists.
  - destruct fuel as [|fuel]; [lia|]. simpl.
    rewrite (loc_Some _ _ _ _ Hk). simpl.
    destruct (cell_eqb k key); [|by eexists].
    rewrite pymod_nonzero by lia. simpl.
    apply IH; [apply Z.mod_pos_bound; lia|lia|].
    exists k'. split; [|done]. rewrite <- Hk'. f_equal.
    rewrite Z.add_mod_idemp_l by lia. f_equal. lia.
Qed.

Lemma other_entity (key : cell) (idx : Z) :
  two_entities data key_name → 0 ≤ idx < len data →
  ∃ d : nat, (d < length (rows data))%nat ∧
    ∃ k', field data ((idx + Z.of_nat d) mod len data) key_name = Some k' ∧
          cell_eqb k' key = false.
Proof.
  intros (i & j & ki & kj & Hi & Hj & Hne) Hidx.
  assert (Hfar : ∀ t kt, field data t key_name = Some kt →
                         cell_eqb kt key = false →
                         ∃ d : nat, (d < length (rows data))%nat ∧
    ∃ k', field data ((idx + Z.of_nat d) mod len data) key_name = Some k' ∧
          cell_eqb k' key = false).
  { intros t kt Ht Hkt. pose proof (field_Some _ _ _ _ Ht) as [Hr _].
    exists (Z.to_nat ((t - idx) mod len data)).
    pose proof (Z.mod_pos_bound (t - idx) (len data) ltac:(lia)).
    split; [unfold len in *; lia|]. exists kt. split; [|done].
    rewrite <- Ht. f_equal. rewrite Z2Nat.id by lia.
    rewrite Z.add_mod_idemp_r by lia.
    replace (idx + (t - idx)) with t by lia. apply Z.mod_small. lia. }
  destruct (cell_eqb ki key) eqn:Hik; [|by apply (Hfar i ki)].
  destruct (cell_eqb kj key) eqn:Hjk; [|by apply (Hfar j kj)].
  rewrite cell_eqb_sym in Hjk.
  by rewrite (cell_eqb_trans _ _ _ Hik Hjk) in Hne.
Qed.

Lemma align_body_total (fuel : nat) (batch_size : Z) (i : nat) (ic : list Z) :
  two_entities data key_name → (length (rows data) ≤ fuel)%nat →
  (i < Z.to_nat batch_size)%nat →
  aligned_upto data key_name batch_size (len data / batch_size) i ic →
  ∃ ic', align_body fuel data key_name (len data) i ic = Ret ic'.
Proof.
  intros Htwo Hfuel Hi (Hlen & Htodo & _).
  assert (Hpos : 0 < len data).
  { destruct Htwo as (t & _ & kt & _ & Ht & _).
    apply field_Some in Ht. lia. }
  unfold align_body. rewrite (getitem_Some _ _ _ (Htodo i ltac:(lia))). simpl.
  assert (Hrange : 0 ≤ Z.of_nat i * (len data / batch_size) < len data).
  { pose proof (Z.mul_div_le (len data) batch_size ltac:(lia)).
    pose proof (Z.div_pos (len data) batch_size ltac:(lia) ltac:(lia)).
    nia. }
  destruct (keys _ Hrange) as [key Hkey].
  rewrite (loc_Some _ _ _ _ Hkey). simpl.
  destruct (other_entity key _ Htwo Hrange) as (d & Hd & Hother).
  destruct (skip_entity_total key d fuel _ Hrange ltac:(lia) Hother)
    as [idx' ->]. simpl.
  destruct (0 <? i)%nat; [rewrite setitem_lt by lia|]; by eexists.
Qed.
End skip.

Lemma init_fields_total (fuel : nat) (data : DataFrame)
    (key_name target_name : string) (num_inputs batch_size num_unrollings : Z) :
  is_Some (position target_name (columns data)) →
  keys_ok data key_name → two_entities data key_name →
  1 ≤ batch_size → (length (rows data) ≤ fuel)%nat →
  ∃ self, init_fields fuel (Some data) key_name target_name num_inputs
            batch_size num_unrollings = Ret self.
Proof.
  intros [j Hj] Hkeys Htwo HB Hfuel. unfold init_fields, index.
  rewrite Hj. simpl.
  destruct (Z.leb_spec 0 (Z.of_nat j + 1)); [|lia]. simpl.
  destruct (Z.ltb_spec (Z.of_nat j) (Z.of_nat j + 1)); [|lia]. simpl.
  unfold floordiv. destruct (Z.eqb_spec batch_size 0); [lia|]. simpl.
  destruct (for_in_seq_total
              (aligned_upto data key_name batch_size (len data / batch_size))
              (align_body fuel data key_name (len data))
              (Z.to_nat batch_size) 0
              ((λ offset : nat, Z.of_nat offset * (len data / batch_size))
                 <$> range batch_size)) as [ic Hic].
  - apply (aligned_upto_0 data key_name batch_size).
  - intros i t t' Hi Ht Hb.
    apply (aligned_upto_step fuel data key_name batch_size _ i t); auto. lia.
  - intros i t Hi Ht.
    apply (align_body_total data key_name Hkeys fuel batch_size); auto. lia.
  - unfold range at 1. rewrite Hic. simpl. by eexists.
Qed.

Lemma init_fields_inv (fuel : nat) (file : option DataFrame)
    (key_name target_name : string) (num_inputs batch_size num_unrollings : Z)
    (self : BatchGenerator) :
  init_fields fuel file key_name target_name num_inputs batch_size
    num_unrollings = Ret self →
  1 ≤ batch_size →
  engine_inv self ∧ _cursor self = _init_cursor self ∧
  ∃ j, file = Some (_data self) ∧ _key_name self = key_name ∧
       _yval_name self = target_name ∧ _num_inputs self = num_inputs ∧
       _batch_size self = batch_size ∧ _num_unrollings self = num_unrollings ∧
       position target_name (columns (_data self)) = Some j ∧
       _factor_start_idx self = Z.of_nat j + 1 ∧ _num_batches self = None.
Proof.
  intros Hinit HB1.
  apply init_fields_Ret in Hinit
    as (data & i & ic & -> & Hi & HB & (Hlen & Htodo & Hdone & Hzero) & ->).
  simpl in *. destruct Hzero as [Hz _]; [lia|].
  assert (Hall : Forall (λ idx, 0 ≤ idx < len data) ic).
  { apply Forall_lookup. intros b idx Hb. apply (Hdone b); [|done].
    apply lookup_lt_Some in Hb. lia. }
  split; [|split; [done|by exists i]].
  unfold engine_inv, in_range; simpl. repeat split; try done.
  rewrite Forall_lookup in Hall. apply (Hall 0%nat 0 Hz).
Qed.

Lemma engine_ok_next_batch (self self' : BatchGenerator) (batch : Batch) :
  engine_ok self → next_batch self = Ret (batch, self') → engine_ok self'.
Proof.
  intros Hok H. apply (engine_ok_same self); [|
    apply (engine_inv_next_batch self self' batch); [apply Hok|done]|done].
  by apply next_batch_same in H.
Qed.

(** Every batch moves a cursor forward by at least one and at most
    [num_unrollings] records. *)
Lemma next_batch_advance (self self' : BatchGenerator) (batch : Batch)
    (b : nat) (c0 : Z) :
  engine_inv self → 1 ≤ _num_unrollings self →
  next_batch self = Ret (batch, self') → _cursor self !! b = Some c0 →
  ∃ k, 1 ≤ k ≤ _num_unrollings self ∧
       _cursor self' !! b = Some ((c0 + k) mod _data_size self).
Proof.
  intros (Hcls & Hsz & Hpos & HB & _ & Hcl & _ & Hcr & _) HU H Hc0.
  apply next_batch_Ret in H as [(_ & _ & _ & _ & _ & _ & Hslots) _]; [|done..].
  destruct (Hslots b c0 Hc0) as (k & Hkn & Hk0 & Hk & _). simpl in Hk.
  exists (Z.of_nat k). split; [lia|done].
Qed.

Lemma calc_loop_total (end_idx : Z) (fuel : nat) :
  ∀ self num c0,
    engine_ok self → 1 ≤ _num_unrollings self →
    end_idx ≤ _data_size self - 1 →
    _cursor self !! 0%nat = Some c0 →
    (Z.to_nat (end_idx - _num_unrollings self - c0) ≤ fuel)%nat →
    ∃ num' self', calc_loop fuel end_idx num self = Ret (num', self') ∧
                  (num < num' ↔ c0 < end_idx - _num_unrollings self).
Proof.
  induction fuel as [|fuel IH]; intros self num c0 Hok HU Hend Hc0 Hfuel;
    simpl; rewrite (getitem_Some _ _ _ Hc0); simpl;
    (destruct (Z.ltb_spec c0 (end_idx - _num_unrollings self)) as [Hlt|Hge];
     [|exists num, self; split; [done|lia]]); [lia|].
  - destruct (next_batch_total self Hok) as (batch & self1 & Hb).
    rewrite Hb. simpl.
    pose proof (engine_ok_next_batch _ _ _ Hok Hb) as Hok1.
    destruct (next_batch_advance _ _ _ 0%nat c0 (proj1 Hok) HU Hb Hc0)
      as (k & Hk & Hc1).
    pose proof (next_batch_same _ _ _ Hb) as [c Hself1].
    assert (Hin : 0 ≤ c0).
    { destruct Hok as ((_ & _ & _ & _ & _ & _ & _ & Hcr & _) & _).
      rewrite Forall_lookup in Hcr. apply (Hcr 0%nat c0 Hc0). }
    rewrite Z.mod_small in Hc1 by lia.
    destruct (IH self1 (num + 1) (c0 + k)) as (num' & self' & Hloop & _);
      try done.
    + rewrite Hself1. simpl. done.
    + rewrite Hself1. simpl. done.
    + rewrite Hself1. simpl. lia.
    + exists num', self'. split; [done|].
      apply calc_loop_same in Hloop as (_ & Hnum & _). lia.
Qed.

(** On a table with two entities, with at least one slot and at least one
    step, [__init__] returns once the loops may run as long as the table;
    the estimate is positive exactly when the first probe is made. *)
Lemma __init___total (fuel : nat) (data : DataFrame)
    (key_name target_name : string) (num_inputs batch_size num_unrollings : Z) :
  table_ok data key_name target_name num_inputs = true →
  two_entities data key_name →
  1 ≤ batch_size → 1 ≤ num_unrollings →
  (length (rows data) ≤ fuel)%nat →
  ∃ self num end_idx,
    __init__ fuel (Some data) key_name target_name num_inputs batch_size
      num_unrollings = Ret self ∧
    _num_batches self = Some num ∧ 0 ≤ num ∧
    (if 1 <? batch_size then _init_cursor self !! 1%nat = Some end_idx
     else end_idx = len data - 1) ∧
    (0 < num ↔ num_unrollings < end_idx).
Proof.
  intros Htab Htwo HB HU Hfuel.
  destruct (table_ok_inv _ _ _ _ Htab) as (jk & j & _ & Hj & _).
  destruct (init_fields_total fuel data key_name target_name num_inputs
              batch_size num_unrollings) as [self1 Hinit]; eauto.
  { by apply (table_ok_keys _ _ target_name num_inputs). }
  unfold __init__. rewrite Hinit. simpl.
  apply init_fields_inv in Hinit
    as (Hinv & Hcur & j' & [= Hdata] & Hkey & Hy & Hn & HBs & HUs & Hj' & Hst & _);
    [|done].
  pose proof Hinv as (Hcls & Hsz & Hpos & _ & Hil & Hcl & Hir & Hcr & Hz).
  assert (Hok : engine_ok (rewind self1)).
  { split; [by apply engine_inv_rewind|]. simpl.
    rewrite <- Hdata, Hkey, Hy, Hn. split; [done|]. exists j'.
    by rewrite Hdata. }
  assert (Hend : ∃ end_idx,
    (if 1 <? _batch_size (rewind self1)
     then getitem (_init_cursor (rewind self1)) 1
     else Ret (_data_size (rewind self1) - 1)) = Ret end_idx ∧
    end_idx ≤ _data_size self1 - 1 ∧
    (if 1 <? batch_size then _init_cursor self1 !! 1%nat = Some end_idx
     else end_idx = len data - 1)).
  { simpl. rewrite HBs. destruct (Z.ltb_spec 1 batch_size).
    - destruct (lookup_lt_is_Some_2 (_init_cursor self1) 1) as [e He]; [lia|].
      exists e. rewrite (getitem_Some _ _ _ He). split; [done|]. split; [|done].
      rewrite Forall_lookup in Hir. specialize (Hir 1%nat e He).
      unfold in_range in Hir. lia.
    - eexists. split; [done|]. split; [lia|]. by rewrite Hsz, Hdata. }
  destruct Hend as (end_idx & Hend & Hle & Hspec).
  unfold _calc_num_batches. cbv zeta. rewrite Hend. simpl.
  destruct (calc_loop_total end_idx fuel (rewind self1) 0 0)
    as (num & self2 & Hloop & Hnum); try done.
  { simpl. lia. }
  { simpl. rewrite HUs, Hsz, <- Hdata in *. unfold len in *. lia. }
  rewrite Hloop. simpl.
  eexists _, num, end_idx. split; [done|]. simpl. split; [done|].
  apply calc_loop_same in Hloop as ([c ->] & Hnum0 & _).
  split; [done|]. split; [done|]. simpl in Hnum. rewrite HUs in Hnum. lia.
Qed.

Lemma constructed_start (self : BatchGenerator) :
  constructed self →
  ∃ j, position (_yval_name self) (columns (_data self)) = Some j ∧
       _factor_start_idx self = Z.of_nat j + 1.
Proof.
  intros (fuel & file & key & target & n & B & U & H).
  apply __init___Ret in H as (self1 & num & Hinit & _ & -> & _).
  apply init_fields_Ret in Hinit as (data & i & ic & _ & Hi & _ & _ & ->).
  by exists i.
Qed.

Lemma reachable_ok (self0 self : BatchGenerator) :
  constructed self0 → reachable self0 self →
  table_ok (_data self) (_key_name self) (_yval_name self) (_num_inputs self)
    = true →
  engine_ok self.
Proof.
  intros Hc Hr Htab. pose proof (constructed_inv _ Hc) as (Hinv & _).
  destruct (reachable_inv _ _ Hinv Hr) as [Hinv' [c ->]].
  split; [done|]. split; [done|]. exact (constructed_start self0 Hc).
Qed.

(** ** The table of the docstring *)


Lemma doc_generator_1_3 :
  __init__ 5 (Some doc_table) "ID" "YY" 3 1 3 = Ret (doc_generator 1 3 [0] 1).
Proof. vm_compute. reflexivity. Qed.

Lemma doc_generator_1_2 :
  __init__ 5 (Some doc_table) "ID" "YY" 3 1 2 = Ret (doc_generator 1 2 [0] 1).
Proof. vm_compute. reflexivity. Qed.

Lemma doc_generator_2_2 :
  __init__ 5 (Some doc_table) "ID" "YY" 3 2 2 = Ret (doc_generator 2 2 [0; 0] 0).
Proof. vm_compute. reflexivity. Qed.

(** Over [two_runs] with one slot and two steps: the first batch has length
    2 and reset flag 0; the second one meets entity B after one record, has
    length 1 and a padded second step; the third one starts on B's first
    record with reset flag 0. *)
Example two_runs_batches :
  (self ← __init__ 5 (Some two_runs) "ID" "YY" 1 1 2;
   r ← next_batches 3 self;
   Ret (map (λ b : Batch, (seq_lengths b, reset_flags b, inputs b)) r.1,
        _cursor r.2))
  = Ret ([ ([2], [0%Q], [[[1%Q]]; [[2%Q]]]);
           ([1], [1%Q], [[[3%Q]]; [[0%Q]]]);
           ([2], [0%Q], [[[4%Q]]; [[5%Q]]]) ], [0]).
Proof. vm_compute. reflexivity. Qed.

Lemma doc_table_two_entities : two_entities doc_table "ID".
Proof. exists 0, 2, (Str "aa"), (Str "bb"). by vm_compute. Qed.

(** ** The records a batch emits *)

(** What the body of [_next_step] writes when it does not pad. *)
Lemma next_step_body_emit (step : Z) (b : nat) (v v' : step_vars)
    (idx : Z) (xr : list Q) :
  next_step_body step b v = Ret v' →
  _cursor (sv_self v) !! b = Some idx → sv_x v !! b = Some xr →
  (0 <? step) && entity_start (sv_self v) idx = false →
  ∃ xrow a,
    (vals ← iloc_from (_data (sv_self v)) idx (_factor_start_idx (sv_self v));
     broadcast_row (length xr) vals) = Ret xrow ∧
    attrib_at (sv_self v) idx = Ret a ∧
    sv_x v' = <[b := xrow]> (sv_x v) ∧ sv_attr v' = sv_attr v ++ [a].
Proof.
  unfold next_step_body. intros H Hidx Hxr Hcond. cbv zeta in H.
  rewrite (getitem_Some _ _ _ Hidx) in H. simpl in H.
  apply bind_Ret in H as (ended & Hend & H).
  assert (ended = false) as ->.
  { destruct (Z.ltb_spec 0 step) as [Hs|Hs]; simpl in *.
    - inv_ret. unfold entity_start, key_at, prev_index in Hcond.
      rewrite Ha, Ha0 in Hcond. congruence.
    - by injection Hend as <-. }
  apply bind_Ret in H as (vals & Hvals & H).
  apply bind_Ret in H as (x & Hx & H). unfold assign_row in Hx.
  rewrite (getitem_Some _ _ _ Hxr) in Hx. simpl in Hx.
  apply bind_Ret in Hx as (xrow & Hxrow & Hx).
  apply setitem_Ret in Hx as [_ ->].
  apply bind_Ret in H as (val & _ & H). apply bind_Ret in H as (w0 & _ & H).
  apply bind_Ret in H as (y & _ & H). apply bind_Ret in H as (w1 & _ & H).
  apply bind_Ret in H as (y' & _ & H).
  apply bind_Ret in H as (a & Ha & H).
  apply bind_Ret in H as (nxt & _ & H).
  apply bind_Ret in H as (cursor & _ & H). injection H as <-. simpl.
  exists xrow, a. rewrite Hvals. simpl. done.
Qed.

Section next_step_emit.
Variables (self : BatchGenerator) (step : Z) (sl : list Z).

Lemma _next_step_emit (v' : step_vars) (b : nat) (idx : Z) :
  length (_cursor self) = Z.to_nat (_batch_size self) →
  length sl = Z.to_nat (_batch_size self) →
  _next_step self step sl = Ret v' →
  _cursor self !! b = Some idx →
  (0 <? step) && entity_start self idx = false →
  ∃ xrow a, features_at self idx = Ret xrow ∧ attrib_at self idx = Ret a ∧
            sv_x v' !! b = Some xrow ∧ sv_attr v' !! b = Some a.
Proof.
  intros Hcur Hsl H Hidx Hcond. unfold _next_step in H.
  apply bind_Ret in H as (x & Hx & H). apply bind_Ret in H as (y & Hy & H).
  apply (for_in_seq_inv (λ i v,
           slots_done self step sl i v ∧
           ((b < i)%nat →
            ∃ xrow a, features_at self idx = Ret xrow ∧
                      attrib_at self idx = Ret a ∧
                      sv_x v !! b = Some xrow ∧ sv_attr v !! b = Some a)))
    in H.
  - apply H. apply lookup_lt_Some in Hidx. lia.
  - split; [by apply slots_done_0|]. lia.
  - intros i t t' Hi [Hdone Hemit] Hbody.
    split; [apply (slots_done_step self step sl i t); [lia|done..]|].
    intros Hb.
    destruct Hdone as ([c Hself] & Hxl & Hyl & Hal & _ & _ & Htodo & _).
    pose proof Hbody as Hbody'.
    apply next_step_body_Ret in Hbody'. cbv zeta in Hbody'.
    destruct Hbody' as (idx' & xr & yr & a & Hidx' & Hxr & _ & Ha & Hcase).
    assert (Hx' : ∃ r, sv_x t' = <[i := r]> (sv_x t)).
    { destruct Hcase as [(_ & _ & _ & -> & _)|(_ & (r & _ & ->) & _)];
        by eexists. }
    destruct Hx' as [r Hx'].
    destruct (decide (b = i)) as [->|Hbi].
    + destruct (Htodo i) as (Hxi & _ & _ & Hci); [lia|].
      rewrite Hidx in Hci.
      destruct (next_step_body_emit _ _ _ _ idx _ Hbody Hci Hxi)
        as (xrow & a' & Hrow & Hattr & -> & ->).
      { by rewrite Hself. }
      exists xrow, a'. rewrite Hself in Hrow, Hattr. simpl in *.
      unfold zero_row in Hrow. rewrite length_replicate in Hrow.
      split; [done|]. split; [done|].
      rewrite list_lookup_insert_eq by lia. by rewrite lookup_snoc_last.
    + destruct Hemit as (xrow & a' & Hrow & Hattr & Hxb & Hab); [lia|].
      exists xrow, a'. split; [done|]. split; [done|].
      rewrite Hx', Ha, list_lookup_insert_ne by lia.
      split; [done|]. by rewrite lookup_app_l by lia.
Qed.
End next_step_emit.

Lemma slot_inputs_step (self : BatchGenerator) (n b : nat) (c0 : Z)
    (v : batch_vars) (s : step_vars) :
  0 < _data_size self →
  Z.of_nat n < _num_unrollings self →
  length (bv_x_batch v) = n → length (bv_attribs v) = n →
  slot_run self n b c0 v → slot_inputs self n b c0 v →
  (∀ idx l, _cursor (bv_self v) !! b = Some idx →
            bv_seq_lengths v !! b = Some l →
            cell_step self (Z.of_nat n) idx l (sv_x s !! b) (sv_y s !! b)
              (sv_attr s !! b) (sv_seq_lengths s !! b)
              (_cursor (sv_self s) !! b)) →
  (∀ idx, _cursor (bv_self v) !! b = Some idx →
          (0 <? Z.of_nat n) && entity_start self idx = false →
          ∃ xrow a, features_at self idx = Ret xrow ∧
                    attrib_at self idx = Ret a ∧
                    sv_x s !! b = Some xrow ∧ sv_attr s !! b = Some a) →
  slot_inputs self (S n) b c0
    {| bv_x_batch := bv_x_batch v ++ [sv_x s];
       bv_y_batch := bv_y_batch v ++ [sv_y s];
       bv_attribs := bv_attribs v ++ [sv_attr s];
       bv_seq_lengths := sv_seq_lengths s;
       bv_self := sv_self s |}.
Proof.
  intros Hpos Hn Hxl Hal (k & Hkn & Hk0 & Hcur & Hlen & Hend & _) Hin Hstep Hemit.
  specialize (Hstep _ _ Hcur Hlen). specialize (Hemit _ Hcur).
  intros t l Ht Hl Htl. simpl in *.
  inversion Hstep
    as [Hs He Hx Hy Ha Hl' Hc
       |xr val w0 w1 a Hne Hval Hw0 Hw1 Hsz Hx Hy Ha Hl' Hc];
    clear Hstep; rewrite Hl in Hl'; injection Hl' as Hl'.
  - (* the slot is padded at step n: the cell of step n is not counted *)
    assert (Htn : (t < n)%nat ∧
                  Z.of_nat t < (if (k <? n)%nat then Z.of_nat k
                                else _num_unrollings self)).
    { destruct (Nat.ltb_spec k n).
      - destruct (Z.eqb_spec (Z.of_nat k) (_num_unrollings self)); lia.
      - rewrite Z.eqb_refl in Hl'. lia. }
    destruct Htn as [Htn Htk].
    destruct (Hin t _ Htn Hlen Htk) as (xrow & a & Hf & Hat & Hxt & Hatt).
    exists xrow, a. by rewrite !at2_snoc_lt by lia.
  - (* the slot emits at step n *)
    destruct (decide (t = n)) as [->|Htn].
    + assert (k = n) as ->.
      { destruct (decide (k = n)) as [|Hkn']; [done|].
        rewrite Hend in Hne by lia.
        destruct (Z.ltb_spec 0 (Z.of_nat n)); [discriminate|lia]. }
      destruct (Hemit Hne) as (xrow & a' & Hf & Hat & Hxt & Hatt).
      exists xrow, a'. by rewrite !at2_snoc_last by done.
    + subst l.
      destruct (Hin t _ ltac:(lia) Hlen Htl) as (xrow & a' & Hf & Hat & Hxt & Hatt).
      exists xrow, a'. by rewrite !at2_snoc_lt by lia.
Qed.

(** The cells of a slot that [next_batch] fills from records. *)
Lemma next_batch_inputs (self self' : BatchGenerator) (batch : Batch)
    (b : nat) (c0 : Z) :
  engine_inv self →
  next_batch self = Ret (batch, self') → _cursor self !! b = Some c0 →
  slot_inputs self (Z.to_nat (_num_unrollings self)) b c0
    (batch_vars_of batch self').
Proof.
  intros (Hcls & Hsz & Hpos & HB & _ & Hcl & _ & Hcr & _) Hb. revert b c0.
  unfold next_batch in Hb.
  apply bind_Ret in Hb as (sl & Hsl0 & Hb). apply np_full_Ret in Hsl0 as ->.
  apply bind_Ret in Hb as (rf & _ & Hb).
  apply bind_Ret in Hb as (v & Hv & Hb). injection Hb as <- <-.
  apply (for_in_seq_inv (λ n v,
           steps_done self n v ∧
           ∀ b c0, _cursor self !! b = Some c0 → slot_inputs self n b c0 v))
    in Hv.
  - destruct v. apply Hv.
  - split; [|intros b c0 _ t l' Ht; lia].
    split; [apply same_but_cursor_refl|]. simpl.
    rewrite length_replicate. repeat split; try done.
    intros b c0 Hc0. exists 0%nat. simpl.
    assert (Hlt : (b < Z.to_nat (_batch_size self))%nat).
    { apply lookup_lt_Some in Hc0. lia. }
    split; [done|]. split; [lia|]. split.
    { rewrite Hc0. f_equal. rewrite Z.add_0_r. symmetry. apply Z.mod_small.
      rewrite Forall_lookup in Hcr. by apply (Hcr b). }
    split; [by apply lookup_replicate_2|].
    repeat split; intros; lia.
  - intros i u u' Hi [Hdone Hin] Hbody.
    split; [apply (steps_done_step self Hcls i u); [lia|done..]|].
    destruct Hdone as ([c Hself] & Hcl' & Hsl' & Hxl & _ & Hal & Hslots).
    unfold next_batch_body in Hbody.
    apply bind_Ret in Hbody as (s & Hs & Hbody). injection Hbody as <-.
    intros b c0 Hc0.
    assert (Hlt : (b < Z.to_nat (_batch_size self))%nat).
    { apply lookup_lt_Some in Hc0. lia. }
    apply slot_inputs_step; try done; [lia|by apply Hslots|by apply Hin| |].
    + intros idx l' Hidx Hl'.
      apply _next_step_Ret in Hs as (_ & _ & _ & _ & _ & _ & _ & Hd);
        [|by rewrite Hself in *..].
      rewrite Hself in Hidx, Hd. simpl in Hidx, Hd.
      specialize (Hd b idx l' Hlt Hidx Hl').
      inversion Hd; [by apply cell_pad|by eapply cell_emit].
    + intros idx Hidx Hcond.
      rewrite Hself in Hs, Hidx. simpl in Hidx.
      apply (_next_step_emit _ _ _ _ b idx) in Hs; try done.
      by rewrite Hself in Hcl'.
Qed.

(** The cursor that one step leaves to a slot: where it was when the slot is
    padded, one record further, cyclically, when it emits. *)
Lemma _next_step_cursor (self : BatchGenerator) (step : Z) (sl : list Z)
    (v : step_vars) (b : nat) (idx : Z) :
  length (_cursor self) = Z.to_nat (_batch_size self) →
  length sl = Z.to_nat (_batch_size self) →
  _next_step self step sl = Ret v → _cursor self !! b = Some idx →
  _cursor (sv_self v) !! b
  = Some (if (0 <? step) && entity_start self idx then idx
          else (idx + 1) mod _data_size self).
Proof.
  intros Hcl Hsl H Hidx.
  apply _next_step_Ret in H as (_ & _ & _ & _ & _ & _ & _ & Hdone); [|done..].
  assert (Hb : (b < Z.to_nat (_batch_size self))%nat).
  { apply lookup_lt_Some in Hidx. lia. }
  destruct (lookup_lt_is_Some_2 sl b) as [l Hl]; [lia|].
  specialize (Hdone b idx l Hb Hidx Hl).
  inversion Hdone
    as [Hs He Hx Hy Ha Hl' Hc
       |xr val w0 w1 a Hne Hval Hw0 Hw1 Hsz Hx Hy Ha Hl' Hc].
  - rewrite He. by destruct (Z.ltb_spec 0 step); [|lia].
  - by rewrite Hne.
Qed.

(** ** The claims *)

(** C4: after construction and after any number of calls of [next_batch] and
    [rewind], every live cursor index lies in [0, size).  One step leaves
    the cursor of a slot where it was when it pads the slot, and at the next
    index modulo the size of the table when the slot emits a record.  A call
    of [next_batch] leaves the cursor of a slot [k] records further modulo
    the size of the table, where [k] is the number of records the slot
    emitted: at most [num_unrollings], at least one when there is a step, as
    many as there are before the first record of the next entity, and the
    length recorded for the slot when that is below [num_unrollings]. *)
Theorem C4_cursor_in_range (self0 self : BatchGenerator) :
  constructed self0 → reachable self0 self →
  Forall (λ idx, 0 ≤ idx < _data_size self) (_cursor self) ∧
  (∀ step sl v b idx,
     length sl = Z.to_nat (_batch_size self) →
     _next_step self step sl = Ret v → _cursor self !! b = Some idx →
     _cursor (sv_self v) !! b
     = Some (if (0 <? step) && entity_start self idx then idx
             else (idx + 1) mod _data_size self)) ∧
  ∀ batch self' b c0,
    next_batch self = Ret (batch, self') → _cursor self !! b = Some c0 →
    ∃ k : nat,
      _cursor self' !! b = Some ((c0 + Z.of_nat k) mod _data_size self) ∧
      (k ≤ Z.to_nat (_num_unrollings self))%nat ∧
      ((0 < Z.to_nat (_num_unrollings self))%nat → (0 < k)%nat) ∧
      (∀ s, (0 < s < k)%nat →
            entity_start self ((c0 + Z.of_nat s) mod _data_size self) = false) ∧
      ((k < Z.to_nat (_num_unrollings self))%nat →
       entity_start self ((c0 + Z.of_nat k) mod _data_size self) = true) ∧
      seq_lengths batch !! b
      = Some (if (k <? Z.to_nat (_num_unrollings self))%nat then Z.of_nat k
              else _num_unrollings self).
Proof.
  intros Hc Hr. pose proof (constructed_inv _ Hc) as (Hinv0 & _).
  destruct (reachable_inv _ _ Hinv0 Hr) as [Hinv _].
  split; [apply Hinv|].
  destruct Hinv as (Hcls & Hsz & Hpos & HB & _ & Hcl & _ & Hcr & _). split.
  { intros step sl v b idx Hsl Hv Hidx.
    by apply (_next_step_cursor self step sl). }
  intros batch self' b c0 Hb Hc0.
  apply next_batch_Ret in Hb as [(_ & _ & _ & _ & _ & _ & Hslots) _]; [|done..].
  destruct (Hslots b c0 Hc0) as (k & Hkn & Hk0 & Hk & Hlen & Hend & Hmid & _).
  by exists k.
Qed.

Lemma C4_cursor_in_range_witness :
  Forall (λ idx, 0 ≤ idx < 5) [2] ∧
  (∀ step sl v b idx,
     length sl = Z.to_nat 1 →
     _next_step (after_batch (doc_generator 1 3 [0] 1)) step sl = Ret v →
     [2] !! b = Some idx →
     _cursor (sv_self v) !! b
     = Some (if (0 <? step)
                && entity_start (after_batch (doc_generator 1 3 [0] 1)) idx
             then idx else (idx + 1) mod 5)) ∧
  ∀ batch self' b c0,
    next_batch (after_batch (doc_generator 1 3 [0] 1)) = Ret (batch, self') →
    [2] !! b = Some c0 →
    ∃ k : nat,
      _cursor self' !! b = Some ((c0 + Z.of_nat k) mod 5) ∧
      (k ≤ Z.to_nat 3)%nat ∧
      ((0 < Z.to_nat 3)%nat → (0 < k)%nat) ∧
      (∀ s, (0 < s < k)%nat →
            entity_start (after_batch (doc_generator 1 3 [0] 1))
              ((c0 + Z.of_nat s) mod 5) = false) ∧
      ((k < Z.to_nat 3)%nat →
       entity_start (after_batch (doc_generator 1 3 [0] 1))
         ((c0 + Z.of_nat k) mod 5) = true) ∧
      seq_lengths batch !! b
      = Some (if (k <? Z.to_nat 3)%nat then Z.of_nat k else 3).
Proof.
  apply (C4_cursor_in_range (doc_generator 1 3 [0] 1)
           (after_batch (doc_generator 1 3 [0] 1))).
  - exists 5%nat, (Some doc_table), "ID"%string, "YY"%string, 3, 1, 3.
    vm_compute. reflexivity.
  - apply (reach_next_batch _ (doc_generator 1 3 [0] 1)
             (coming_batch (doc_generator 1 3 [0] 1))).
    + apply reach_here.
    + vm_compute. reflexivity.
Defined.

(** C5: from any state the generator can reach, [rewind] followed by [N]
    calls of [next_batch] gives what the first [N] calls after construction
    gave: the same batches, field by field, and the same final state. *)
Theorem C5_rewind_replays (self0 self : BatchGenerator) (N : nat) :
  constructed self0 → reachable self0 self →
  next_batches N (rewind self) = next_batches N self0.
Proof. intros Hc Hr. by rewrite (rewind_reachable self0 self). Qed.

Lemma C5_rewind_replays_witness :
  next_batches 3 (rewind (after_batch (doc_generator 1 3 [0] 1)))
  = next_batches 3 (doc_generator 1 3 [0] 1).
Proof.
  apply (C5_rewind_replays (doc_generator 1 3 [0] 1)
           (after_batch (doc_generator 1 3 [0] 1)) 3).
  - exists 5%nat, (Some doc_table), "ID"%string, "YY"%string, 3, 1, 3.
    vm_compute. reflexivity.
  - apply (reach_next_batch _ (doc_generator 1 3 [0] 1)
             (coming_batch (doc_generator 1 3 [0] 1))).
    + apply reach_here.
    + vm_compute. reflexivity.
Defined.

Lemma stream_start_spec (self : BatchGenerator) (idx : Z) :
  stream_start self idx = true ↔
  idx = 0 ∨ ∃ k kp, key_at self idx = Some k ∧
                    key_at self (idx - 1) = Some kp ∧ cell_eqb k kp = false.
Proof.
  unfold stream_start. destruct (Z.eqb_spec idx 0) as [->|Hne]; simpl.
  { split; auto. }
  destruct (key_at self idx) as [k|]; [destruct (key_at self (idx - 1)) as [kp|]|].
  - destruct (cell_eqb k kp) eqn:Hk; simpl.
    + split; [done|].
      intros [?|(k' & kp' & [= <-] & [= <-] & ?)]; [done|congruence].
    + split; [|done]. intros _. right. by exists k, kp.
  - split; [done|]. by intros [?|(? & ? & ? & ? & ?)].
  - split; [done|]. by intros [?|(? & ? & ? & ? & ?)].
Qed.

(** C6: the reset flag that [next_batch] returns for a slot is 0 exactly when
    the slot's cursor, as it was before the call, is 0 or points at a record
    whose entity id differs from the one of the record before it; it is 1
    otherwise. *)
Theorem C6_reset_flags (self0 self self' : BatchGenerator) (batch : Batch)
    (b : nat) (idx : Z) :
  constructed self0 → reachable self0 self →
  next_batch self = Ret (batch, self') → _cursor self !! b = Some idx →
  ∃ flag, reset_flags batch !! b = Some flag ∧
          (flag = 0%Q ∨ flag = 1%Q) ∧
          (flag = 0%Q ↔
             idx = 0 ∨
             ∃ k kp, key_at self idx = Some k ∧
                     key_at self (idx - 1) = Some kp ∧ cell_eqb k kp = false).
Proof.
  intros Hc Hr Hb Hidx. pose proof (constructed_inv _ Hc) as (Hinv0 & _).
  destruct (reachable_inv _ _ Hinv0 Hr) as [Hinv _].
  destruct Hinv as (Hcls & Hsz & Hpos & HB & _ & Hcl & _ & Hcr & _).
  apply next_batch_Ret in Hb as (_ & _ & Hflags); [|done..].
  rewrite (Hflags b idx Hidx). eexists. split; [done|].
  rewrite <- stream_start_spec.
  destruct (stream_start self idx); [split; [by left|done]|].
  split; [by right|]. split; discriminate.
Qed.

Lemma C6_reset_flags_witness :
  ∃ flag, reset_flags (coming_batch (doc_generator 1 3 [0] 1)) !! 0%nat
          = Some flag ∧
          (flag = 0%Q ∨ flag = 1%Q) ∧
          (flag = 0%Q ↔
             0 = 0 ∨
             ∃ k kp, key_at (doc_generator 1 3 [0] 1) 0 = Some k ∧
                     key_at (doc_generator 1 3 [0] 1) (0 - 1) = Some kp ∧
                     cell_eqb k kp = false).
Proof.
  apply (C6_reset_flags (doc_generator 1 3 [0] 1) (doc_generator 1 3 [0] 1)
           (after_batch (doc_generator 1 3 [0] 1))).
  - exists 5%nat, (Some doc_table), "ID"%string, "YY"%string, 3, 1, 3.
    vm_compute. reflexivity.
  - apply reach_here.
  - vm_compute. reflexivity.
  - reflexivity.
Defined.

(** C8: the probe that [__init__] runs to estimate the size of an epoch gives
    the generator back as it got it: its cursor is again the aligned
    [_init_cursor] that it was before the probe, and every other attribute
    is what it was. *)
Theorem C8_probe_restores (fuel : nat) (file : option DataFrame)
    (key_name target_name : string) (num_inputs batch_size num_unrollings : Z)
    (self : BatchGenerator) :
  __init__ fuel file key_name target_name num_inputs batch_size
    num_unrollings = Ret self →
  ∃ self1 num,
    init_fields fuel file key_name target_name num_inputs batch_size
      num_unrollings = Ret self1 ∧
    _cursor self1 = _init_cursor self1 ∧
    _calc_num_batches fuel self1 = Ret (num, self1) ∧
    self = set_num_batches self1 num.
Proof.
  intros H. apply __init___Ret in H as (self1 & num & Hinit & Hcalc & -> & _).
  exists self1, num. split; [done|]. split; [|done].
  by apply init_fields_Ret in Hinit as (? & ? & ? & _ & _ & _ & _ & ->).
Qed.

Lemma C8_probe_restores_witness :
  ∃ self1 num,
    init_fields 5 (Some doc_table) "ID" "YY" 3 1 2 = Ret self1 ∧
    _cursor self1 = _init_cursor self1 ∧
    _calc_num_batches 5 self1 = Ret (num, self1) ∧
    doc_generator 1 2 [0] 1 = set_num_batches self1 num.
Proof.
  apply (C8_probe_restores 5 (Some doc_table) "ID" "YY" 3 1 2).
  vm_compute. reflexivity.
Defined.

(** What [next_batch] does to one slot of a reachable generator. *)
Lemma next_batch_slot (self0 self self' : BatchGenerator) (batch : Batch)
    (b : nat) (c0 : Z) :
  constructed self0 → reachable self0 self →
  next_batch self = Ret (batch, self') → _cursor self !! b = Some c0 →
  0 < _data_size self ∧
  slot_run self (Z.to_nat (_num_unrollings self)) b c0
    (batch_vars_of batch self').
Proof.
  intros Hc Hr Hb Hc0. pose proof (constructed_inv _ Hc) as (Hinv0 & _).
  destruct (reachable_inv _ _ Hinv0 Hr) as [Hinv _].
  destruct Hinv as (Hcls & Hsz & Hpos & HB & _ & Hcl & _ & Hcr & _).
  apply next_batch_Ret in Hb as [(_ & _ & _ & _ & _ & _ & Hslots) _]; [|done..].
  split; [done|]. by apply Hslots.
Qed.

(** C3: when the first record after the one a slot starts at that begins an
    entity lies [t] records ahead, with [0 < t < num_unrollings], the batch
    records the length [t] for the slot, the rows of the slot in the input and
    target frames of the steps from [t] on are all zero, their attributes are
    [None], and the cursor of the slot is left on that first record of the
    new entity. *)
Theorem C3_boundary_crossing (self0 self self' : BatchGenerator)
    (batch : Batch) (b : nat) (c0 : Z) (t : nat) :
  constructed self0 → reachable self0 self →
  next_batch self = Ret (batch, self') → _cursor self !! b = Some c0 →
  (0 < t)%nat → Z.of_nat t < _num_unrollings self →
  entity_start self ((c0 + Z.of_nat t) mod _data_size self) = true →
  (∀ s, (0 < s < t)%nat →
        entity_start self ((c0 + Z.of_nat s) mod _data_size self) = false) →
  seq_lengths batch !! b = Some (Z.of_nat t) ∧
  (∀ s, (t ≤ s)%nat → Z.of_nat s < _num_unrollings self →
        at2 (inputs batch) s b = Some (zero_row (_num_inputs self)) ∧
        at2 (targets batch) s b = Some [0%Q; 0%Q] ∧
        at2 (attribs batch) s b = Some None) ∧
  _cursor self' !! b = Some ((c0 + Z.of_nat t) mod _data_size self).
Proof.
  intros Hc Hr Hb Hc0 Ht HtU Hstart Hbefore.
  destruct (next_batch_slot _ _ _ _ _ _ Hc Hr Hb Hc0)
    as (Hpos & k & Hkn & Hk0 & Hcur & Hlen & Hend & Hmid & _ & Hpad).
  simpl in *.
  assert (k = t) as ->.
  { destruct (Nat.lt_trichotomy k t) as [Hlt|[->|Hgt]]; [|done|].
    - rewrite Hbefore in Hend by lia. by specialize (Hend ltac:(lia)).
    - rewrite Hmid in Hstart by lia. done. }
  split; [|split; [|done]].
  - rewrite Hlen. by destruct (Nat.ltb_spec t (Z.to_nat (_num_unrollings self)));
      [|lia].
  - intros s Hs HsU. apply Hpad. lia.
Qed.

Lemma C3_boundary_crossing_witness :
  seq_lengths (coming_batch (doc_generator 1 3 [0] 1)) !! 0%nat
  = Some (Z.of_nat 2) ∧
  (∀ s, (2 ≤ s)%nat → Z.of_nat s < 3 →
        at2 (inputs (coming_batch (doc_generator 1 3 [0] 1))) s 0
        = Some (zero_row 3) ∧
        at2 (targets (coming_batch (doc_generator 1 3 [0] 1))) s 0
        = Some [0%Q; 0%Q] ∧
        at2 (attribs (coming_batch (doc_generator 1 3 [0] 1))) s 0
        = Some None) ∧
  _cursor (after_batch (doc_generator 1 3 [0] 1)) !! 0%nat
  = Some ((0 + Z.of_nat 2) mod 5).
Proof.
  apply (C3_boundary_crossing (doc_generator 1 3 [0] 1)
           (doc_generator 1 3 [0] 1)).
  - exists 5%nat, (Some doc_table), "ID"%string, "YY"%string, 3, 1, 3.
    vm_compute. reflexivity.
  - apply reach_here.
  - vm_compute. reflexivity.
  - reflexivity.
  - lia.
  - simpl. lia.
  - vm_compute. reflexivity.
  - intros s Hs. assert (s = 1%nat) as -> by lia. vm_compute. reflexivity.
Defined.

(** C7: in every cell [(t, b)] before the length recorded for slot [b], the
    target row is the one the code computes from the label [v] of the record
    the slot emitted there, the one [t] records after the slot's cursor:
    [abs(v - 1) / 2] and [abs(v + 1) / 2] in the arithmetic of the label's
    type.  It is [[0, 1]] for the label +1 and [[1, 0]] for the label -1,
    and [[|v-1|/2, |v+1|/2]] for every integer label below [2^53 - 1] in
    absolute value. *)
Theorem C7_one_hot_targets (self0 self self' : BatchGenerator)
    (batch : Batch) (b : nat) (c0 l : Z) (t : nat) :
  constructed self0 → reachable self0 self →
  next_batch self = Ret (batch, self') → _cursor self !! b = Some c0 →
  seq_lengths batch !! b = Some l → Z.of_nat t < l →
  ∃ val w0 w1,
    label_at self ((c0 + Z.of_nat t) mod _data_size self) = Some val ∧
    class_weight val (-1) = Ret w0 ∧ class_weight val 1 = Ret w1 ∧
    at2 (targets batch) t b = Some [w0; w1] ∧
    (cell_eqb val (Int 1) = true → [w0; w1] = [0; 1]%Q) ∧
    (cell_eqb val (Int (-1)) = true → [w0; w1] = [1; 0]%Q) ∧
    (∀ z, val = Int z → Z.abs z < 2 ^ 53 - 1 →
          (w0 == Qabs (inject_Z (z - 1)) / 2)%Q ∧
          (w1 == Qabs (inject_Z (z + 1)) / 2)%Q).
Proof.
  intros Hc Hr Hb Hc0 Hl Ht.
  destruct (next_batch_slot _ _ _ _ _ _ Hc Hr Hb Hc0)
    as (Hpos & k & Hkn & _ & _ & Hlen & _ & _ & Hreal & _).
  simpl in *. rewrite Hl in Hlen. injection Hlen as ->.
  destruct (Hreal t) as (val & row & Hval & Hrow & Hy).
  { destruct (Nat.ltb_spec k (Z.to_nat (_num_unrollings self))); lia. }
  unfold one_hot in Hrow.
  apply bind_Ret in Hrow as (w0 & Hw0 & Hrow).
  apply bind_Ret in Hrow as (w1 & Hw1 & Hrow). injection Hrow as <-.
  exists val, w0, w1. do 4 (split; [done|]).
  split; [|split].
  - intros Hv. apply one_hot_plus in Hv. unfold one_hot in Hv.
    rewrite Hw0, Hw1 in Hv. by injection Hv as -> ->.
  - intros Hv. apply one_hot_minus in Hv. unfold one_hot in Hv.
    rewrite Hw0, Hw1 in Hv. by injection Hv as -> ->.
  - intros z -> Hz.
    destruct (class_weight_small z (-1)) as (w & Hw & Heq0); [lia|].
    rewrite Hw0 in Hw. injection Hw as <-.
    destruct (class_weight_small z 1) as (w & Hw & Heq1); [lia|].
    rewrite Hw1 in Hw. injection Hw as <-. done.
Qed.

Lemma C7_one_hot_targets_witness :
  ∃ val w0 w1,
    label_at (doc_generator 1 3 [0] 1) ((0 + Z.of_nat 1) mod 5) = Some val ∧
    class_weight val (-1) = Ret w0 ∧ class_weight val 1 = Ret w1 ∧
    at2 (targets (coming_batch (doc_generator 1 3 [0] 1))) 1 0
    = Some [w0; w1] ∧
    (cell_eqb val (Int 1) = true → [w0; w1] = [0; 1]%Q) ∧
    (cell_eqb val (Int (-1)) = true → [w0; w1] = [1; 0]%Q) ∧
    (∀ z, val = Int z → Z.abs z < 2 ^ 53 - 1 →
          (w0 == Qabs (inject_Z (z - 1)) / 2)%Q ∧
          (w1 == Qabs (inject_Z (z + 1)) / 2)%Q).
Proof.
  apply (C7_one_hot_targets (doc_generator 1 3 [0] 1)
           (doc_generator 1 3 [0] 1) (after_batch (doc_generator 1 3 [0] 1))
           _ _ _ 2).
  - exists 5%nat, (Some doc_table), "ID"%string, "YY"%string, 3, 1, 3.
    vm_compute. reflexivity.
  - apply reach_here.
  - vm_compute. reflexivity.
  - reflexivity.
  - vm_compute. reflexivity.
  - simpl. lia.
Defined.

(** C10: with [num_unrollings >= 1], a call of [next_batch] records for every
    slot a length [k] between 1 and [num_unrollings] and leaves the cursor of
    the slot [k] records further modulo the size of the table; the padding
    branch is not taken at step 0, whose cell holds the record the cursor was
    at: its features as the input row, the target row computed from its
    label, and its attribute.  On a table with numeric label and feature
    columns the call returns. *)
Theorem C10_at_least_one_record (self0 self : BatchGenerator) :
  constructed self0 → reachable self0 self → 1 ≤ _num_unrollings self →
  (table_ok (_data self) (_key_name self) (_yval_name self) (_num_inputs self)
     = true →
   ∃ batch self', next_batch self = Ret (batch, self')) ∧
  ∀ batch self' b c0,
    next_batch self = Ret (batch, self') → _cursor self !! b = Some c0 →
    ∃ k, 1 ≤ k ≤ _num_unrollings self ∧
         seq_lengths batch !! b = Some k ∧
         _cursor self' !! b = Some ((c0 + k) mod _data_size self) ∧
         ∃ xrow val yrow a,
           features_at self c0 = Ret xrow ∧
           at2 (inputs batch) 0 b = Some xrow ∧
           label_at self c0 = Some val ∧ one_hot val = Ret yrow ∧
           at2 (targets batch) 0 b = Some yrow ∧
           attrib_at self c0 = Ret a ∧
           at2 (attribs batch) 0 b = Some a.
Proof.
  intros Hc Hr HU. split.
  { intros Htab. apply next_batch_total. by apply (reachable_ok self0). }
  intros batch self' b c0 Hb Hc0.
  pose proof (constructed_inv _ Hc) as (Hinv0 & _).
  destruct (reachable_inv _ _ Hinv0 Hr) as [Hinv _].
  destruct (next_batch_slot _ _ _ _ _ _ Hc Hr Hb Hc0)
    as (Hpos & k & Hkn & Hk0 & Hcur & Hlen & _ & _ & Hreal & _).
  pose proof (next_batch_inputs _ _ _ _ _ Hinv Hb Hc0) as Hin.
  simpl in *. exists (Z.of_nat k). split; [lia|].
  assert (Hl : seq_lengths batch !! b = Some (Z.of_nat k)).
  { rewrite Hlen. destruct (Nat.ltb_spec k (Z.to_nat (_num_unrollings self)));
      [done|]. f_equal. lia. }
  split; [done|]. split; [done|].
  assert (Hc0' : (c0 + Z.of_nat 0) mod _data_size self = c0).
  { rewrite Z.add_0_r. apply Z.mod_small.
    destruct Hinv as (_ & _ & _ & _ & _ & _ & _ & Hcr & _).
    rewrite Forall_lookup in Hcr. apply (Hcr b c0 Hc0). }
  destruct (Hreal 0%nat ltac:(lia)) as (val & yrow & Hval & Hrow & Hy).
  destruct (Hin 0%nat (Z.of_nat k) ltac:(lia) Hl ltac:(lia))
    as (xrow & a & Hf & Ha & Hx & Hat).
  rewrite Hc0' in Hval, Hf, Ha.
  by exists xrow, val, yrow, a.
Qed.

Lemma C10_at_least_one_record_witness :
  (table_ok doc_table "ID" "YY" 3 = true →
   ∃ batch self', next_batch (doc_generator 1 3 [0] 1) = Ret (batch, self')) ∧
  ∀ batch self' b c0,
    next_batch (doc_generator 1 3 [0] 1) = Ret (batch, self') →
    [0] !! b = Some c0 →
    ∃ k, 1 ≤ k ≤ 3 ∧
         seq_lengths batch !! b = Some k ∧
         _cursor self' !! b = Some ((c0 + k) mod 5) ∧
         ∃ xrow val yrow a,
           features_at (doc_generator 1 3 [0] 1) c0 = Ret xrow ∧
           at2 (inputs batch) 0 b = Some xrow ∧
           label_at (doc_generator 1 3 [0] 1) c0 = Some val ∧
           one_hot val = Ret yrow ∧
           at2 (targets batch) 0 b = Some yrow ∧
           attrib_at (doc_generator 1 3 [0] 1) c0 = Ret a ∧
           at2 (attribs batch) 0 b = Some a.
Proof.
  apply (C10_at_least_one_record (doc_generator 1 3 [0] 1)
           (doc_generator 1 3 [0] 1)).
  - exists 5%nat, (Some doc_table), "ID"%string, "YY"%string, 3, 1, 3.
    vm_compute. reflexivity.
  - apply reach_here.
  - simpl. lia.
Defined.

(** C1, as the code has it: on a table with two entities, with
    [batch_size >= 1] and [num_unrollings >= 1], [__init__] returns and the
    estimate is a non-negative integer; it is positive exactly when
    [num_unrollings < end_idx], where [end_idx] is [_init_cursor[1]] when
    [batch_size > 1] and [size - 1] otherwise. *)
Theorem C1_estimate_finite_and_sign (fuel : nat) (data : DataFrame)
    (key_name target_name : string) (num_inputs batch_size num_unrollings : Z) :
  table_ok data key_name target_name num_inputs = true →
  two_entities data key_name →
  1 ≤ batch_size → 1 ≤ num_unrollings →
  (length (rows data) ≤ fuel)%nat →
  ∃ self num end_idx,
    __init__ fuel (Some data) key_name target_name num_inputs batch_size
      num_unrollings = Ret self ∧
    num_batches self = Some num ∧ 0 ≤ num ∧
    (if 1 <? batch_size then _init_cursor self !! 1%nat = Some end_idx
     else end_idx = len data - 1) ∧
    (0 < num ↔ num_unrollings < end_idx).
Proof. apply __init___total. Qed.

Lemma C1_estimate_finite_and_sign_witness :
  ∃ self num end_idx,
    __init__ 5 (Some doc_table) "ID" "YY" 3 1 2 = Ret self ∧
    num_batches self = Some num ∧ 0 ≤ num ∧
    (if 1 <? 1 then _init_cursor self !! 1%nat = Some end_idx
     else end_idx = len doc_table - 1) ∧
    (0 < num ↔ 2 < end_idx).
Proof.
  apply (C1_estimate_finite_and_sign 5 doc_table "ID" "YY" 3 1 2).
  - reflexivity.
  - exists 0, 2, (Str "aa"), (Str "bb"). by vm_compute.
  - lia.
  - lia.
  - simpl. lia.
Defined.

(** C1 as stated fails: the table of the docstring has two entities, and with
    [batch_size = 1] and [num_unrollings = 4] the estimate is 0. *)
Lemma C1_estimate_zero :
  table_ok doc_table "ID" "YY" 3 = true ∧ two_entities doc_table "ID" ∧
  ∃ self, __init__ 5 (Some doc_table) "ID" "YY" 3 1 4 = Ret self ∧
          num_batches self = Some 0 ∧ ¬ 0 < 0.
Proof.
  split; [reflexivity|]. split; [apply doc_table_two_entities|].
  eexists. split; [vm_compute; reflexivity|]. split; [reflexivity|lia].
Qed.

Lemma loc_no_column (data : DataFrame) (idx : Z) (name : string) :
  position name (columns data) = None → loc data idx name = Raise KeyError.
Proof.
  intros H. unfold loc, field. destruct (idx <? 0); [done|].
  destruct (rows data !! Z.to_nat idx); simpl; [|done]. by rewrite H.
Qed.

(** C2: when the table lacks the entity-id column or the label column,
    [__init__] raises, whatever bound the loops are given: [ValueError] for
    the label column and, with at least one slot, [KeyError] for the
    entity-id column; and a generator that [__init__] returns has both
    columns and its block of feature columns begins after the label
    column. *)
Theorem C2_construction_fails (fuel : nat) (data : DataFrame)
    (key_name target_name : string) (num_inputs batch_size num_unrollings : Z) :
  (key_name ∉ columns data ∨ target_name ∉ columns data →
   ∃ e, __init__ fuel (Some data) key_name target_name num_inputs batch_size
          num_unrollings = Raise e) ∧
  (target_name ∉ columns data →
   __init__ fuel (Some data) key_name target_name num_inputs batch_size
     num_unrollings = Raise ValueError) ∧
  (key_name ∉ columns data → target_name ∈ columns data → 1 ≤ batch_size →
   __init__ fuel (Some data) key_name target_name num_inputs batch_size
     num_unrollings = Raise KeyError) ∧
  (∀ self,
     __init__ fuel (Some data) key_name target_name num_inputs batch_size
       num_unrollings = Ret self →
     key_name ∈ columns data ∧
     ∃ j, position target_name (columns data) = Some j ∧
          _factor_start_idx self = Z.of_nat j + 1 ∧
          Z.of_nat j < _factor_start_idx self).
Proof.
  assert (Hlabel : target_name ∉ columns data →
    __init__ fuel (Some data) key_name target_name num_inputs batch_size
      num_unrollings = Raise ValueError).
  { intros Ht%position_None. unfold __init__, init_fields, index.
    by rewrite Ht. }
  assert (Hkey : key_name ∉ columns data → target_name ∈ columns data →
    ∃ e, __init__ fuel (Some data) key_name target_name num_inputs batch_size
           num_unrollings = Raise e ∧ (1 ≤ batch_size → e = KeyError)).
  { intros Hk%position_None Hin.
    destruct (position target_name (columns data)) as [j|] eqn:Hj;
      [|by apply position_None in Hj].
    unfold __init__, init_fields, index. rewrite Hj. simpl.
    destruct (Z.leb_spec 0 (Z.of_nat j + 1)); [|lia]. simpl.
    destruct (Z.ltb_spec (Z.of_nat j) (Z.of_nat j + 1)); [|lia]. simpl.
    unfold floordiv.
    destruct (Z.eqb_spec batch_size 0); [eexists; split; [done|lia]|]. simpl.
    unfold range. destruct (Z.to_nat batch_size) as [|B] eqn:HB.
    - (* no slot at all: the probe reads [self._cursor[0]] *)
      simpl. unfold _calc_num_batches. simpl.
      destruct (Z.ltb_spec 1 batch_size); [lia|].
      destruct fuel; simpl; (eexists; split; [done|lia]).
    - (* the first slot reads the entity id of record 0 *)
      assert (Hal : ∀ ic,
        align_body fuel data key_name (len data) 0 ic = Raise KeyError ∨
        align_body fuel data key_name (len data) 0 ic = Raise IndexError ∧
        ic !! 0%nat = None).
      { intros ic. unfold align_body, getitem.
        destruct (ic !! 0%nat); simpl; [|by right].
        rewrite loc_no_column by done. by left. }
      simpl. match goal with
             | |- context [align_body _ _ _ _ _ ?ic] =>
                 destruct (Hal ic) as [->|[_ Hnone]]; [|done]
             end.
      simpl. by eexists. }
  split; [|split; [done|split]].
  - intros [Hk|Ht]; [|eexists; by apply Hlabel].
    destruct (decide (target_name ∈ columns data)) as [Hin|Hnin];
      [|eexists; by apply Hlabel].
    destruct (Hkey Hk Hin) as (e & He & _). by exists e.
  - intros Hk Hin HB. destruct (Hkey Hk Hin) as (e & He & HeK).
    by rewrite <- (HeK HB).
  - intros self H.
    apply __init___Ret in H as (self1 & num & Hinit & Hcalc & -> & _).
    apply _calc_num_batches_same in Hcalc as (_ & _ & [c0 Hc0]).
    apply init_fields_Ret in Hinit
      as (d & i & ic & [= <-] & Hi & HB & (Hlen & _ & _ & Hzero) & ->).
    simpl in *. apply lookup_lt_Some in Hc0.
    destruct Hzero as [_ [jk Hjk]]; [lia|]. split.
    + destruct (decide (key_name ∈ columns data)) as [|Hn]; [done|].
      apply position_None in Hn. congruence.
    + exists i. split; [done|]. split; [done|lia].
Qed.

Lemma C2_construction_fails_witness :
  (("entity"%string ∉ columns doc_table ∨ "YY"%string ∉ columns doc_table) →
   ∃ e, __init__ 0 (Some doc_table) "entity" "YY" 3 1 2 = Raise e) ∧
  ("YY"%string ∉ columns doc_table →
   __init__ 0 (Some doc_table) "entity" "YY" 3 1 2 = Raise ValueError) ∧
  ("entity"%string ∉ columns doc_table → "YY"%string ∈ columns doc_table →
   1 ≤ 1 →
   __init__ 0 (Some doc_table) "entity" "YY" 3 1 2 = Raise KeyError) ∧
  (∀ self,
     __init__ 0 (Some doc_table) "entity" "YY" 3 1 2 = Ret self →
     "entity"%string ∈ columns doc_table ∧
     ∃ j, position "YY" (columns doc_table) = Some j ∧
          _factor_start_idx self = Z.of_nat j + 1 ∧
          Z.of_nat j < _factor_start_idx self).
Proof.
  apply (C2_construction_fails 0 doc_table "entity" "YY" 3 1 2).
Defined.

Lemma skip_entity_no_raise (fuel : nat) (data : DataFrame) (key_name : string)
    (key : cell) :
  keys_ok data key_name →
  ∀ idx, 0 ≤ idx < len data →
    skip_entity fuel data key_name (len data) key idx = Timeout ∨
    ∃ idx', skip_entity fuel data key_name (len data) key idx = Ret idx'.
Proof.
  intros Hkeys. induction fuel as [|fuel IH]; intros idx Hidx;
    simpl; destruct (Hkeys idx Hidx) as [k Hk];
    rewrite (loc_Some _ _ _ _ Hk); simpl;
    (destruct (cell_eqb k key); [|right; by eexists]); [by left|].
  rewrite pymod_nonzero by lia. simpl. apply IH.
  apply Z.mod_pos_bound. lia.
Qed.


Section zero_unrollings.
Variables (data : DataFrame) (key_name target_name : string).
Variables (num_inputs : Z) (j : nat).
Let self1 := single_slot data key_name target_name num_inputs 0 j.

Lemma init_fields_single (fuel : nat) (num_unrollings : Z) :
  position target_name (columns data) = Some j →
  keys_ok data key_name → 0 < len data →
  init_fields fuel (Some data) key_name target_name num_inputs 1
    num_unrollings = Timeout ∨
  init_fields fuel (Some data) key_name target_name num_inputs 1
    num_unrollings
  = Ret (single_slot data key_name target_name num_inputs num_unrollings j).
Proof.
  intros Hj Hkeys Hlen. unfold init_fields, index. rewrite Hj. simpl.
  destruct (Z.leb_spec 0 (Z.of_nat j + 1)); [|lia]. simpl.
  destruct (Z.ltb_spec (Z.of_nat j) (Z.of_nat j + 1)); [|lia]. simpl.
  unfold align_body. simpl.
  change (Z.of_nat 0 * (len data / 1)) with 0.
  destruct (Hkeys 0 ltac:(lia)) as [k Hk].
  rewrite (loc_Some _ _ _ _ Hk). simpl.
  destruct (skip_entity_no_raise fuel data key_name k Hkeys 0 ltac:(lia))
    as [->|[idx' ->]]; simpl; [by left|by right].
Qed.

(** Without unroll steps a batch is empty and the cursor stays. *)
Lemma next_batch_zero_unrollings :
  next_batch self1
  = Ret ({| inputs := []; targets := []; seq_lengths := [0];
            reset_flags := [0%Q]; attribs := [] |}, self1).
Proof. reflexivity. Qed.

Lemma calc_loop_zero_unrollings (fuel : nat) (num : Z) :
  2 ≤ len data → calc_loop fuel (len data - 1) num self1 = Timeout.
Proof.
  intros Hlen. revert num. induction fuel as [|fuel IH]; intros num;
    simpl; (destruct (Z.ltb_spec 0 (len data - 1 - 0)); [|lia]); [done|].
  apply IH.
Qed.
End zero_unrollings.

(** C9: on a table with at least two records and two entities, construction
    with [batch_size = 1] and [num_unrollings = 0] does not return, however
    long the loops may run: the alignment returns, and then every probing
    call of [next_batch] makes no step and leaves the cursor of slot 0 at 0,
    so the condition [cursor[0] < size - 1] of the loop of
    [_calc_num_batches] holds for ever. *)
Theorem C9_zero_unrollings_diverges (data : DataFrame)
    (key_name target_name : string) (num_inputs : Z) :
  is_Some (position target_name (columns data)) →
  keys_ok data key_name → two_entities data key_name → 2 ≤ len data →
  (∀ fuel, __init__ fuel (Some data) key_name target_name num_inputs 1 0
           = Timeout) ∧
  ∃ self1,
    (∀ fuel, (length (rows data) ≤ fuel)%nat →
             init_fields fuel (Some data) key_name target_name num_inputs 1 0
             = Ret self1) ∧
    _cursor self1 = [0] ∧
    (∃ batch, next_batch self1 = Ret (batch, self1) ∧ inputs batch = []) ∧
    (∀ fuel, _calc_num_batches fuel self1 = Timeout).
Proof.
  intros [j Hj] Hkeys Htwo Hlen.
  set (self1 := single_slot data key_name target_name num_inputs 0 j).
  assert (Hcalc : ∀ fuel, _calc_num_batches fuel self1 = Timeout).
  { intros fuel. unfold _calc_num_batches. simpl.
    change (rewind self1) with self1. unfold self1.
    by rewrite (calc_loop_zero_unrollings data key_name target_name
                  num_inputs j fuel 0 Hlen). }
  split.
  - intros fuel. unfold __init__.
    destruct (init_fields_single data key_name target_name num_inputs j fuel 0)
      as [->| ->]; [done|done|lia|done|].
    simpl. fold self1. by rewrite Hcalc.
  - exists self1. split; [|split; [done|split; [|done]]].
    + intros fuel Hfuel.
      destruct (init_fields_total fuel data key_name target_name num_inputs 1 0)
        as [self Hself]; [eauto|done|done|lia|done|].
      destruct (init_fields_single data key_name target_name num_inputs j fuel 0)
        as [H|H]; [done|done|lia| |done].
      congruence.
    + eexists. split; [apply next_batch_zero_unrollings|done].
Qed.

Lemma C9_zero_unrollings_diverges_witness :
  (∀ fuel, __init__ fuel (Some doc_table) "ID" "YY" 3 1 0 = Timeout) ∧
  ∃ self1,
    (∀ fuel, (length (rows doc_table) ≤ fuel)%nat →
             init_fields fuel (Some doc_table) "ID" "YY" 3 1 0 = Ret self1) ∧
    _cursor self1 = [0] ∧
    (∃ batch, next_batch self1 = Ret (batch, self1) ∧ inputs batch = []) ∧
    (∀ fuel, _calc_num_batches fuel self1 = Timeout).
Proof.
  apply (C9_zero_unrollings_diverges doc_table "ID" "YY" 3).
  - by exists 1%nat.
  - apply (table_ok_keys doc_table "ID" "YY" 3). reflexivity.
  - exists 0, 2, (Str "aa"), (Str "bb"). by vm_compute.
  - vm_compute. discriminate.
Defined.

(** ** Further properties of the code *)

(** X1: [next_batch] and [rewind] change nothing of a generator but its
    cursor: a generator reached from a constructed one has the table, the
    geometry, the aligned starting positions, the estimate and the number of
    data points of the constructed one, and this number is the number of
    rows of the table. *)
Theorem only_the_cursor_moves (self0 self : BatchGenerator) :
  constructed self0 → reachable self0 self →
  self = set_cursor self0 (_cursor self) ∧
  num_batches self = num_batches self0 ∧
  num_data_points self = len (_data self0).
Proof.
  intros Hc Hr. pose proof (constructed_inv _ Hc) as (Hinv0 & _).
  destruct (reachable_inv _ _ Hinv0 Hr) as [_ [c ->]].
  split; [done|]. split; [done|]. apply Hinv0.
Qed.

Lemma only_the_cursor_moves_witness :
  after_batch (doc_generator 1 3 [0] 1)
  = set_cursor (doc_generator 1 3 [0] 1)
      (_cursor (after_batch (doc_generator 1 3 [0] 1))) ∧
  num_batches (after_batch (doc_generator 1 3 [0] 1))
  = num_batches (doc_generator 1 3 [0] 1) ∧
  num_data_points (after_batch (doc_generator 1 3 [0] 1))
  = len (_data (doc_generator 1 3 [0] 1)).
Proof.
  apply (only_the_cursor_moves (doc_generator 1 3 [0] 1)
           (after_batch (doc_generator 1 3 [0] 1))).
  - exists 5%nat, (Some doc_table), "ID"%string, "YY"%string, 3, 1, 3.
    vm_compute. reflexivity.
  - apply (reach_next_batch _ (doc_generator 1 3 [0] 1)
             (coming_batch (doc_generator 1 3 [0] 1))).
    + apply reach_here.
    + vm_compute. reflexivity.
Defined.

Lemma loc_no_rows (data : DataFrame) (idx : Z) (name : string) :
  rows data = [] → loc data idx name = Raise KeyError.
Proof.
  intros H. unfold loc, field. rewrite H. by destruct (idx <? 0).
Qed.

(** X2: construction rejects what it cannot batch, whatever bound the loops
    are given: without the file it raises [RuntimeError]; over a table that
    has the label column, [batch_size = 0] raises [ZeroDivisionError], a
    negative [batch_size] raises [IndexError], and a table without records
    raises [KeyError] when [batch_size >= 1]. *)
Theorem construction_rejects (fuel : nat) (data : DataFrame)
    (key_name target_name : string) (num_inputs batch_size num_unrollings : Z) :
  target_name ∈ columns data →
  __init__ fuel None key_name target_name num_inputs batch_size num_unrollings
  = Raise RuntimeError ∧
  (batch_size = 0 →
   __init__ fuel (Some data) key_name target_name num_inputs batch_size
     num_unrollings = Raise ZeroDivisionError) ∧
  (batch_size < 0 →
   __init__ fuel (Some data) key_name target_name num_inputs batch_size
     num_unrollings = Raise IndexError) ∧
  (1 ≤ batch_size → rows data = [] →
   __init__ fuel (Some data) key_name target_name num_inputs batch_size
     num_unrollings = Raise KeyError).
Proof.
  intros Hin. split; [done|].
  destruct (position target_name (columns data)) as [j|] eqn:Hj;
    [|by apply position_None in Hj].
  unfold __init__, init_fields, index. rewrite Hj. simpl.
  destruct (Z.leb_spec 0 (Z.of_nat j + 1)); [|lia]. simpl.
  destruct (Z.ltb_spec (Z.of_nat j) (Z.of_nat j + 1)); [|lia]. simpl.
  unfold floordiv. split; [|split].
  - intros ->. done.
  - intros HB. destruct (Z.eqb_spec batch_size 0); [lia|]. simpl.
    unfold range. replace (Z.to_nat batch_size) with 0%nat by lia. simpl.
    unfold _calc_num_batches. simpl.
    destruct (Z.ltb_spec 1 batch_size); [lia|].
    by destruct fuel.
  - intros HB Hrows. destruct (Z.eqb_spec batch_size 0); [lia|]. simpl.
    unfold range. destruct (Z.to_nat batch_size) as [|B] eqn:HBn; [lia|].
    assert (Hal : ∀ i ic,
      align_body fuel data key_name (len data) 0 (i :: ic) = Raise KeyError).
    { intros i ic. unfold align_body. simpl. by rewrite loc_no_rows. }
    simpl. by rewrite Hal.
Qed.

Lemma construction_rejects_witness :
  __init__ 0 None "ID" "YY" 3 0 2 = Raise RuntimeError ∧
  (0 = 0 → __init__ 0 (Some doc_table) "ID" "YY" 3 0 2
           = Raise ZeroDivisionError) ∧
  (0 < 0 → __init__ 0 (Some doc_table) "ID" "YY" 3 0 2 = Raise IndexError) ∧
  (1 ≤ 0 → rows doc_table = [] →
   __init__ 0 (Some doc_table) "ID" "YY" 3 0 2 = Raise KeyError).
Proof.
  apply (construction_rejects 0 doc_table "ID" "YY" 3 0 2).
  vm_compute. apply list_elem_of_further, list_elem_of_here.
Defined.

Lemma skip_entity_single (fuel : nat) (data : DataFrame) (key_name : string)
    (key : cell) :
  keys_ok data key_name →
  (∀ i ki, field data i key_name = Some ki → cell_eqb ki key = true) →
  ∀ idx, 0 ≤ idx < len data →
         skip_entity fuel data key_name (len data) key idx = Timeout.
Proof.
  intros Hkeys Hsame. induction fuel as [|fuel IH]; intros idx Hidx;
    simpl; destruct (Hkeys idx Hidx) as [k Hk];
    rewrite (loc_Some _ _ _ _ Hk); simpl; rewrite (Hsame _ _ Hk); [done|].
  rewrite pymod_nonzero by lia. simpl. apply IH. apply Z.mod_pos_bound. lia.
Qed.

(** X3: over a table all of whose records have one entity id, construction
    with [batch_size >= 1] does not return, however long the loops may run:
    the scan for the first record of the next entity, begun for slot 0 at
    record 0, finds none. *)
Theorem single_entity_diverges (fuel : nat) (data : DataFrame)
    (key_name target_name : string) (num_inputs batch_size num_unrollings : Z) :
  target_name ∈ columns data →
  keys_ok data key_name → single_entity data key_name →
  0 < len data → 1 ≤ batch_size →
  (∀ key, field data 0 key_name = Some key →
          skip_entity fuel data key_name (len data) key 0 = Timeout) ∧
  __init__ fuel (Some data) key_name target_name num_inputs batch_size
    num_unrollings = Timeout.
Proof.
  intros Hin Hkeys Hone Hlen HB.
  assert (Hskip : ∀ key, field data 0 key_name = Some key →
    skip_entity fuel data key_name (len data) key 0 = Timeout).
  { intros key Hkey. apply skip_entity_single; [done| |lia].
    intros i ki Hi. by apply (Hone i 0). }
  split; [done|].
  destruct (position target_name (columns data)) as [j|] eqn:Hj;
    [|by apply position_None in Hj].
  unfold __init__, init_fields, index. rewrite Hj. simpl.
  destruct (Z.leb_spec 0 (Z.of_nat j + 1)); [|lia]. simpl.
  destruct (Z.ltb_spec (Z.of_nat j) (Z.of_nat j + 1)); [|lia]. simpl.
  unfold floordiv. destruct (Z.eqb_spec batch_size 0); [lia|]. simpl.
  unfold range. destruct (Z.to_nat batch_size) as [|B] eqn:HBn; [lia|].
  assert (Hal : ∀ ic,
    align_body fuel data key_name (len data) 0 (0 :: ic) = Timeout).
  { intros ic. unfold align_body. simpl.
    destruct (Hkeys 0 ltac:(lia)) as [key Hkey].
    rewrite (loc_Some _ _ _ _ Hkey). simpl. by rewrite Hskip. }
  simpl. change (Z.of_nat 0 * (len data / batch_size)) with 0.
  by rewrite Hal.
Qed.

Lemma single_entity_diverges_witness :
  (∀ key, field one_run 0 "ID" = Some key →
          skip_entity 7 one_run "ID" (len one_run) key 0 = Timeout) ∧
  __init__ 7 (Some one_run) "ID" "YY" 1 2 2 = Timeout.
Proof.
  apply (single_entity_diverges 7 one_run "ID" "YY" 1 2 2).
  - vm_compute. apply list_elem_of_further, list_elem_of_here.
  - apply (table_ok_keys one_run "ID" "YY" 1). reflexivity.
  - intros i j ki kj Hi Hj.
    assert (Hall : ∀ t kt, field one_run t "ID" = Some kt → kt = Str "A").
    { intros t kt Ht. pose proof (field_Some _ _ _ _ Ht) as [Hr _].
      assert (t = 0 ∨ t = 1 ∨ t = 2) as [->|[->| ->]]
        by (unfold len in Hr; simpl in Hr; lia);
        vm_compute in Ht; congruence. }
    rewrite (Hall _ _ Hi), (Hall _ _ Hj). reflexivity.
  - vm_compute. reflexivity.
  - lia.
Defined.

Lemma prev_index_succ (self : BatchGenerator) (i : Z) :
  0 < _data_size self →
  prev_index self ((i + 1) mod _data_size self) = i mod _data_size self.
Proof.
  intros Hpos. unfold prev_index.
  pose proof (Z.mod_pos_bound i (_data_size self) Hpos) as Hm.
  rewrite <- Z.add_mod_idemp_l by lia.
  destruct (Z.eq_dec (i mod _data_size self + 1) (_data_size self)) as [He|Hn].
  - rewrite He, Z.mod_same by lia. simpl. lia.
  - rewrite Z.mod_small by lia.
    destruct (Z.ltb_spec 0 (i mod _data_size self + 1)); lia.
Qed.

Lemma entity_start_stream_start (self : BatchGenerator) (idx : Z) :
  0 ≤ idx → entity_start self idx = true → stream_start self idx = true.
Proof.
  intros Hidx. unfold entity_start, stream_start, prev_index.
  destruct (Z.eqb_spec idx 0) as [|Hne]; [done|]. simpl.
  destruct (Z.ltb_spec 0 idx); [|lia].
  destruct (key_at self (idx - 1)) as [kp|]; [|done].
  destruct (key_at self idx) as [k|]; [|done].
  by rewrite cell_eqb_sym.
Qed.

(** X4: a slot that meets no first record of an entity in the
    [num_unrollings - 1] records after the one its cursor is at gets the full
    length [num_unrollings], in every step the target row computed from the
    label of the record of that step, and a cursor [num_unrollings] records
    further, modulo the size of the table. *)
Theorem no_crossing_full_length (self0 self self' : BatchGenerator)
    (batch : Batch) (b : nat) (c0 : Z) :
  constructed self0 → reachable self0 self →
  next_batch self = Ret (batch, self') → _cursor self !! b = Some c0 →
  0 ≤ _num_unrollings self →
  (∀ s : nat, (0 < s)%nat → Z.of_nat s < _num_unrollings self →
      entity_start self ((c0 + Z.of_nat s) mod _data_size self) = false) →
  seq_lengths batch !! b = Some (_num_unrollings self) ∧
  _cursor self' !! b = Some ((c0 + _num_unrollings self) mod _data_size self) ∧
  ∀ t : nat, Z.of_nat t < _num_unrollings self →
    ∃ val row,
      label_at self ((c0 + Z.of_nat t) mod _data_size self) = Some val ∧
      one_hot val = Ret row ∧
      at2 (targets batch) t b = Some row.
Proof.
  intros Hc Hr Hb Hc0 HU Hnone.
  destruct (next_batch_slot _ _ _ _ _ _ Hc Hr Hb Hc0)
    as (Hpos & k & Hkn & Hk0 & Hcur & Hlen & Hend & _ & Hreal & _).
  simpl in *.
  assert (k = Z.to_nat (_num_unrollings self)) as ->.
  { destruct (decide (k = Z.to_nat (_num_unrollings self))) as [|Hne]; [done|].
    rewrite Hnone in Hend by lia. by specialize (Hend ltac:(lia)). }
  rewrite Nat.ltb_irrefl in Hlen. rewrite Z2Nat.id in Hcur by done.
  split; [done|]. split; [done|]. intros t Ht. apply Hreal. lia.
Qed.

Lemma no_crossing_full_length_witness :
  seq_lengths (coming_batch (doc_generator 1 2 [0] 1)) !! 0%nat = Some 2 ∧
  _cursor (after_batch (doc_generator 1 2 [0] 1)) !! 0%nat
  = Some ((0 + 2) mod 5) ∧
  ∀ t : nat, Z.of_nat t < 2 →
    ∃ val row,
      label_at (doc_generator 1 2 [0] 1) ((0 + Z.of_nat t) mod 5) = Some val ∧
      one_hot val = Ret row ∧
      at2 (targets (coming_batch (doc_generator 1 2 [0] 1))) t 0 = Some row.
Proof.
  apply (no_crossing_full_length (doc_generator 1 2 [0] 1)
           (doc_generator 1 2 [0] 1)).
  - exists 5%nat, (Some doc_table), "ID"%string, "YY"%string, 3, 1, 2.
    vm_compute. reflexivity.
  - apply reach_here.
  - vm_compute. reflexivity.
  - reflexivity.
  - simpl. lia.
  - intros s Hs Hs'. simpl in Hs'. assert (s = 1%nat) as -> by lia.
    vm_compute. reflexivity.
Defined.

(** X5: a slot that a batch cut short (its recorded length is below
    [num_unrollings]) begins the next batch with reset flag 0: the cursor
    was left on the first record of the entity that ended the sequence. *)
Theorem resume_with_reset (self0 self self1 self2 : BatchGenerator)
    (batch1 batch2 : Batch) (b : nat) (l : Z) :
  constructed self0 → reachable self0 self →
  next_batch self = Ret (batch1, self1) →
  next_batch self1 = Ret (batch2, self2) →
  seq_lengths batch1 !! b = Some l → l < _num_unrollings self →
  reset_flags batch2 !! b = Some 0%Q.
Proof.
  intros Hc Hr Hb1 Hb2 Hl HlU.
  pose proof (constructed_inv _ Hc) as (Hinv0 & _).
  destruct (reachable_inv _ _ Hinv0 Hr) as [Hinv _].
  pose proof (engine_inv_next_batch _ _ _ Hinv Hb1) as Hinv1.
  pose proof (next_batch_same _ _ _ Hb1) as [c Hself1].
  pose proof Hinv as (Hcls & Hsz & Hpos & HB & _ & Hcl & _ & Hcr & _).
  pose proof Hb1 as Hb1'.
  apply next_batch_Ret in Hb1' as [(_ & _ & Hsl & _) _]; [|done..].
  simpl in Hsl.
  destruct (lookup_lt_is_Some_2 (_cursor self) b) as [c0 Hc0].
  { apply lookup_lt_Some in Hl. lia. }
  destruct (next_batch_slot _ _ _ _ _ _ Hc Hr Hb1 Hc0)
    as (_ & k & Hkn & Hk0 & Hcur & Hlen & Hend & _).
  simpl in *. rewrite Hl in Hlen. injection Hlen as Hlen.
  destruct (Nat.ltb_spec k (Z.to_nat (_num_unrollings self))); [|lia].
  specialize (Hend ltac:(lia)).
  destruct Hinv1 as (Hcls1 & _ & _ & _ & _ & Hcl1 & _ & Hcr1 & _).
  apply next_batch_Ret in Hb2 as (_ & _ & Hflags); [|done..].
  rewrite (Hflags b _ Hcur).
  assert (Hstart : stream_start self1
                     ((c0 + Z.of_nat k) mod _data_size self) = true).
  { rewrite Hself1. apply (entity_start_stream_start self); [|done].
    apply Z.mod_pos_bound. lia. }
  by rewrite Hstart.
Qed.

Lemma resume_with_reset_witness :
  reset_flags (coming_batch (after_batch (doc_generator 1 3 [0] 1))) !! 0%nat
  = Some 0%Q.
Proof.
  apply (resume_with_reset (doc_generator 1 3 [0] 1) (doc_generator 1 3 [0] 1)
           (after_batch (doc_generator 1 3 [0] 1))
           (after_batch (after_batch (doc_generator 1 3 [0] 1)))
           (coming_batch (doc_generator 1 3 [0] 1)) _ 0 2).
  - exists 5%nat, (Some doc_table), "ID"%string, "YY"%string, 3, 1, 3.
    vm_compute. reflexivity.
  - apply reach_here.
  - vm_compute. reflexivity.
  - vm_compute. reflexivity.
  - vm_compute. reflexivity.
  - simpl. lia.
Defined.

(** X6: a batch never joins two entities in one sequence: every record that
    a slot emits in a batch has the entity id of the record the cursor of the
    slot was at when the batch began. *)
Theorem one_entity_per_sequence (self0 self self' : BatchGenerator)
    (batch : Batch) (b : nat) (c0 l : Z) (t : nat) :
  constructed self0 → reachable self0 self →
  keys_ok (_data self) (_key_name self) →
  next_batch self = Ret (batch, self') → _cursor self !! b = Some c0 →
  seq_lengths batch !! b = Some l → Z.of_nat t < l →
  ∃ k0 kt, key_at self c0 = Some k0 ∧
           key_at self ((c0 + Z.of_nat t) mod _data_size self) = Some kt ∧
           cell_eqb k0 kt = true.
Proof.
  intros Hc Hr Hkeys Hb Hc0 Hl Ht.
  pose proof (constructed_inv _ Hc) as (Hinv0 & _).
  destruct (reachable_inv _ _ Hinv0 Hr) as [Hinv _].
  destruct Hinv as (_ & Hsz & Hpos & _ & _ & _ & _ & Hcr & _).
  destruct (next_batch_slot _ _ _ _ _ _ Hc Hr Hb Hc0)
    as (_ & k & Hkn & _ & _ & Hlen & _ & Hmid & _).
  simpl in *. rewrite Hl in Hlen. injection Hlen as ->.
  assert (Htk : (t < k)%nat).
  { destruct (Nat.ltb_spec k (Z.to_nat (_num_unrollings self))); lia. }
  clear Ht Hl.
  assert (Hc0r : 0 ≤ c0 < _data_size self).
  { rewrite Forall_lookup in Hcr. apply (Hcr b c0 Hc0). }
  destruct (Hkeys c0 ltac:(lia)) as [k0 Hk0]. exists k0.
  induction t as [|t IH].
  - exists k0. rewrite Z.add_0_r, Z.mod_small by done.
    split; [done|]. split; [done|apply cell_eqb_refl].
  - destruct IH as (kt & _ & Hkt & Heq); [lia|].
    specialize (Hmid (S t) ltac:(lia)). unfold entity_start in Hmid.
    replace (c0 + Z.of_nat (S t)) with (c0 + Z.of_nat t + 1) in * by lia.
    rewrite prev_index_succ in Hmid by done. rewrite Hkt in Hmid.
    destruct (Hkeys ((c0 + Z.of_nat t + 1) mod _data_size self)) as [k' Hk'].
    { rewrite <- Hsz. apply Z.mod_pos_bound. lia. }
    unfold key_at in *. rewrite Hk' in Hmid. exists k'.
    split; [done|]. split; [done|].
    apply (cell_eqb_trans _ kt); [done|]. by destruct (cell_eqb kt k').
Qed.

Lemma one_entity_per_sequence_witness :
  ∃ k0 kt, key_at (doc_generator 1 3 [0] 1) 0 = Some k0 ∧
           key_at (doc_generator 1 3 [0] 1) ((0 + Z.of_nat 1) mod 5) = Some kt ∧
           cell_eqb k0 kt = true.
Proof.
  apply (one_entity_per_sequence (doc_generator 1 3 [0] 1)
           (doc_generator 1 3 [0] 1) (after_batch (doc_generator 1 3 [0] 1))
           (coming_batch (doc_generator 1 3 [0] 1)) 0 0 2 1).
  - exists 5%nat, (Some doc_table), "ID"%string, "YY"%string, 3, 1, 3.
    vm_compute. reflexivity.
  - apply reach_here.
  - apply (table_ok_keys doc_table "ID" "YY" 3). reflexivity.
  - vm_compute. reflexivity.
  - reflexivity.
  - vm_compute. reflexivity.
  - simpl. lia.
Defined.

Lemma calc_loop_bounds (end_idx : Z) (fuel : nat) :
  ∀ self num c0 num' self',
    engine_inv self → 1 ≤ _num_unrollings self →
    end_idx ≤ _data_size self - 1 →
    _cursor self !! 0%nat = Some c0 →
    calc_loop fuel end_idx num self = Ret (num', self') →
    num' - num ≤ Z.max 0 (end_idx - _num_unrollings self - c0) ∧
    end_idx - _num_unrollings self - c0 ≤ (num' - num) * _num_unrollings self.
Proof.
  induction fuel as [|fuel IH]; intros self num c0 num' self' Hinv HU Hend Hc0 H;
    simpl in H; rewrite (getitem_Some _ _ _ Hc0) in H; simpl in H;
    (destruct (Z.ltb_spec c0 (end_idx - _num_unrollings self)) as [Hlt|Hge];
     [|injection H as <- <-; nia]); [done|].
  apply bind_Ret in H as ([batch self1] & Hb & H).
  pose proof (engine_inv_next_batch _ _ _ Hinv Hb) as Hinv1.
  destruct (next_batch_advance _ _ _ 0%nat c0 Hinv HU Hb Hc0) as (k & Hk & Hc1).
  pose proof (next_batch_same _ _ _ Hb) as [c Hself1].
  assert (Hin : 0 ≤ c0).
  { destruct Hinv as (_ & _ & _ & _ & _ & _ & _ & Hcr & _).
    rewrite Forall_lookup in Hcr. apply (Hcr 0%nat c0 Hc0). }
  rewrite Z.mod_small in Hc1 by lia.
  apply (IH self1 (num + 1) (c0 + k)) in H; try done.
  - rewrite Hself1 in H. simpl in H. nia.
  - by rewrite Hself1.
  - by rewrite Hself1.
Qed.

(** X7: with [num_unrollings >= 1] the estimate of a constructed generator is
    at most [end_idx - num_unrollings] (every probing batch moves slot 0 by
    at least one record) and, multiplied by [num_unrollings], at least that
    (no batch moves it by more than [num_unrollings]); it is below the number
    of records. [end_idx] is [_init_cursor[1]] when [batch_size > 1] and
    [size - 1] otherwise. *)
Theorem estimate_bounds (self : BatchGenerator) :
  constructed self → 1 ≤ _num_unrollings self →
  ∃ num end_idx,
    num_batches self = Some num ∧
    (if 1 <? _batch_size self then _init_cursor self !! 1%nat = Some end_idx
     else end_idx = _data_size self - 1) ∧
    0 ≤ num ≤ Z.max 0 (end_idx - _num_unrollings self) ∧
    end_idx - _num_unrollings self ≤ num * _num_unrollings self ∧
    num < num_data_points self.
Proof.
  intros (fuel & file & key & target & n & B & U & H) HU.
  apply __init___Ret in H as (self1 & num & Hinit & Hcalc & -> & Hnum).
  pose proof (_calc_num_batches_same _ _ _ _ Hcalc) as (_ & _ & [z Hz]).
  assert (HB : 1 ≤ B).
  { apply init_fields_Ret in Hinit as (? & ? & ? & _ & _ & _ & (Hl & _) & ->).
    simpl in Hz. apply lookup_lt_Some in Hz. lia. }
  apply init_fields_inv in Hinit as (Hinv & Hcur & _); [|done].
  pose proof Hinv as (_ & _ & Hpos & _ & Hil & _ & Hir & _ & Hz0).
  unfold _calc_num_batches in Hcalc. cbv zeta in Hcalc.
  apply bind_Ret in Hcalc as (end_idx & Hend & Hcalc).
  apply bind_Ret in Hcalc as ([num1 self2] & Hloop & Hcalc).
  injection Hcalc as -> _. simpl in HU, Hend |- *.
  assert (Hspec : (if 1 <? _batch_size self1
                   then _init_cursor self1 !! 1%nat = Some end_idx
                   else end_idx = _data_size self1 - 1) ∧
                  end_idx ≤ _data_size self1 - 1).
  { destruct (1 <? _batch_size self1).
    - apply getitem_Ret in Hend. split; [done|].
      rewrite Forall_lookup in Hir. specialize (Hir 1%nat _ Hend).
      unfold in_range in Hir. lia.
    - injection Hend as <-. split; [done|lia]. }
  destruct Hspec as [Hspec Hle].
  apply (calc_loop_bounds end_idx fuel (rewind self1) 0 0) in Hloop;
    [|by apply engine_inv_rewind|done|done|done].
  simpl in Hloop. exists num, end_idx. unfold num_data_points. simpl.
  split; [done|]. split; [done|]. lia.
Qed.

Lemma estimate_bounds_witness :
  ∃ num end_idx,
    num_batches (doc_generator 1 2 [0] 1) = Some num ∧
    (if 1 <? 1 then [0] !! 1%nat = Some end_idx else end_idx = 5 - 1) ∧
    0 ≤ num ≤ Z.max 0 (end_idx - 2) ∧
    end_idx - 2 ≤ num * 2 ∧
    num < num_data_points (doc_generator 1 2 [0] 1).
Proof.
  apply (estimate_bounds (doc_generator 1 2 [0] 1)).
  - exists 5%nat, (Some doc_table), "ID"%string, "YY"%string, 3, 1, 2.
    vm_compute. reflexivity.
  - simpl. lia.
Defined.

(** Where the scan for the next entity stops: on a record of another entity
    than [key], reached from a record of the entity [key]. *)
Lemma skip_entity_stops (fuel : nat) (data : DataFrame) (key_name : string)
    (key : cell) :
  ∀ idx idx',
    0 ≤ idx < len data →
    skip_entity fuel data key_name (len data) key idx = Ret idx' →
    (∃ k', field data idx' key_name = Some k' ∧ cell_eqb k' key = false) ∧
    (idx' = idx ∨
     ∃ p kp, 0 ≤ p < len data ∧ idx' = (p + 1) mod len data ∧
             field data p key_name = Some kp ∧ cell_eqb kp key = true).
Proof.
  induction fuel as [|fuel IH]; intros idx idx' Hidx H;
    simpl in H; apply bind_Ret in H as (k & Hk & H); apply loc_Ret in Hk;
    (destruct (cell_eqb k key) eqn:Hkk;
     [|injection H as <-; split; [by exists k|by left]]); [done|].
  apply bind_Ret in H as (i & Hi & H). apply pymod_Ret in Hi as [_ ->].
  apply IH in H as [Hstop Hfrom]; [|apply Z.mod_pos_bound; lia].
  split; [done|]. right. destruct Hfrom as [->|Hfrom]; [|done].
  by exists idx, k.
Qed.

Lemma starts_aligned_step (fuel : nat) (data : DataFrame) (key_name : string)
    (batch_size : Z) (i : nat) (ic ic' : list Z) :
  (i < Z.to_nat batch_size)%nat →
  aligned_upto data key_name batch_size (len data / batch_size) i ic →
  starts_aligned data key_name i ic →
  align_body fuel data key_name (len data) i ic = Ret ic' →
  starts_aligned data key_name (S i) ic'.
Proof.
  intros Hi (Hlen & Htodo & _) Hal H. unfold align_body in H.
  apply bind_Ret in H as (idx & Hidx & H). apply getitem_Ret in Hidx.
  apply bind_Ret in H as (key & Hkey & H). apply loc_Ret in Hkey.
  apply bind_Ret in H as (idx' & Hskip & H).
  pose proof (field_Some _ _ _ _ Hkey) as [Hrange _].
  apply skip_entity_stops in Hskip as [(k' & Hk' & Hne) Hfrom]; [|done].
  destruct (Nat.ltb_spec 0 i) as [Hpos|Hzero].
  - apply setitem_Ret in H as [_ ->].
    intros b j Hb. destruct (decide (b = i)) as [->|Hbi].
    + rewrite list_lookup_insert_eq by lia. intros [= <-].
      destruct Hfrom as [->|(p & kp & Hp & -> & Hkp & Hpk)].
      { assert (k' = key) as -> by congruence.
        by rewrite cell_eqb_refl in Hne. }
      exists kp, k'. split; [|split; [done|]].
      * rewrite <- Hkp. f_equal.
        destruct (Z.eq_dec (p + 1) (len data)) as [He|Hn].
        -- rewrite He, Z.mod_same by lia. simpl. lia.
        -- rewrite Z.mod_small by lia. destruct (Z.ltb_spec 0 (p + 1)); lia.
      * destruct (cell_eqb kp k') eqn:Heq; [|done].
        rewrite cell_eqb_sym in Heq.
        by rewrite (cell_eqb_trans _ _ _ Heq Hpk) in Hne.
    + rewrite list_lookup_insert_ne by lia. apply Hal. lia.
  - injection H as <-. intros b j Hb. apply Hal. lia.
Qed.

Lemma init_fields_aligned (fuel : nat) (file : option DataFrame)
    (key_name target_name : string) (num_inputs batch_size num_unrollings : Z)
    (self : BatchGenerator) :
  init_fields fuel file key_name target_name num_inputs batch_size
    num_unrollings = Ret self →
  starts_aligned (_data self) (_key_name self) (Z.to_nat (_batch_size self))
    (_init_cursor self).
Proof.
  unfold init_fields. destruct file as [data|]; [|done]. intros H.
  apply bind_Ret in H as (i & _ & H). apply bind_Ret in H as (? & _ & H).
  apply bind_Ret in H as (j' & _ & H). apply bind_Ret in H as (? & _ & H).
  apply bind_Ret in H as (segment & Hseg & H).
  unfold floordiv in Hseg. destruct (Z.eqb_spec batch_size 0); [done|].
  injection Hseg as <-.
  apply bind_Ret in H as (ic & Hic & H). injection H as <-. simpl.
  apply (for_in_seq_inv (λ i ic,
           aligned_upto data key_name batch_size (len data / batch_size) i ic ∧
           starts_aligned data key_name i ic)) in Hic; [apply Hic| |].
  - split; [apply (aligned_upto_0 data key_name batch_size)|].
    intros b idx Hb. lia.
  - intros i0 t t' Hi [Ht1 Ht2] Hb. split.
    + apply (aligned_upto_step fuel data key_name batch_size _ i0 t); auto. lia.
    + apply (starts_aligned_step fuel data key_name batch_size i0 t); auto. lia.
Qed.

(** X8: construction puts the cursor of every slot on a record where a
    sequence begins: slot 0 on record 0, every other slot on the first record
    of an entity; so every reset flag of the first batch is 0. *)
Theorem starts_on_entities (self : BatchGenerator) :
  constructed self →
  _cursor self = _init_cursor self ∧
  _init_cursor self !! 0%nat = Some 0 ∧
  (∀ b idx, (0 < b)%nat → _init_cursor self !! b = Some idx →
            entity_start self idx = true) ∧
  (∀ batch self' b,
     next_batch self = Ret (batch, self') →
     (b < Z.to_nat (_batch_size self))%nat →
     reset_flags batch !! b = Some 0%Q).
Proof.
  intros Hc. pose proof (constructed_inv _ Hc) as (Hinv & Hcur & _).
  pose proof Hinv as (Hcls & Hsz & Hpos & HB & Hil & Hcl & Hir & Hcr & Hz).
  assert (Hstarts : ∀ b idx, (0 < b)%nat → _init_cursor self !! b = Some idx →
                             entity_start self idx = true).
  { destruct Hc as (fuel & file & key & target & n & B & U & H).
    apply __init___Ret in H as (self1 & num & Hinit & _ & -> & _).
    apply init_fields_aligned in Hinit. simpl in *.
    intros b idx Hb Hidx.
    destruct (Hinit b idx) as (kp & k & Hkp & Hk & Hne); [|done|].
    { apply lookup_lt_Some in Hidx. lia. }
    unfold entity_start, key_at, prev_index. simpl.
    rewrite Hsz, Hkp, Hk. by rewrite Hne. }
  split; [done|]. split; [done|]. split; [done|].
  intros batch self' b Hb Hlt.
  apply next_batch_Ret in Hb as (_ & _ & Hflags); [|done..].
  destruct (lookup_lt_is_Some_2 (_cursor self) b) as [idx Hidx]; [lia|].
  rewrite (Hflags b idx Hidx).
  assert (Hs : stream_start self idx = true); [|by rewrite Hs].
  rewrite Hcur in Hidx. destruct b as [|b].
  - assert (idx = 0) as -> by congruence. done.
  - apply entity_start_stream_start; [|apply (Hstarts (S b)); [lia|done]].
    rewrite Forall_lookup in Hir. apply (Hir _ _ Hidx).
Qed.

Lemma starts_on_entities_witness :
  _cursor (doc_generator 2 1 [0; 0] 0) = _init_cursor (doc_generator 2 1 [0; 0] 0) ∧
  [0; 0] !! 0%nat = Some 0 ∧
  (∀ b idx, (0 < b)%nat → [0; 0] !! b = Some idx →
            entity_start (doc_generator 2 1 [0; 0] 0) idx = true) ∧
  (∀ batch self' b,
     next_batch (doc_generator 2 1 [0; 0] 0) = Ret (batch, self') →
     (b < Z.to_nat 2)%nat →
     reset_flags batch !! b = Some 0%Q).
Proof.
  apply (starts_on_entities (doc_generator 2 1 [0; 0] 0)).
  exists 5%nat, (Some doc_table), "ID"%string, "YY"%string, 3, 2, 1.
  vm_compute. reflexivity.
Defined.

Lemma next_step_body_rows (step : Z) (b : nat) (v v' : step_vars) (nx ny : nat) :
  next_step_body step b v = Ret v' →
  Forall (λ r, length r = nx) (sv_x v) → Forall (λ r, length r = ny) (sv_y v) →
  Forall (λ r, length r = nx) (sv_x v') ∧ Forall (λ r, length r = ny) (sv_y v').
Proof.
  intros H Hx Hy. apply next_step_body_Ret in H. cbv zeta in H.
  destruct H as (idx & xr & yr & a & _ & Hxr & Hyr & _ & Hcase).
  pose proof (Forall_lookup_1 _ _ _ _ Hx Hxr) as Hlx.
  pose proof (Forall_lookup_1 _ _ _ _ Hy Hyr) as Hly. simpl in Hlx, Hly.
  destruct Hcase as
    [(_ & _ & _ & -> & -> & _)
    |(_ & (xr' & Hxlen & ->) & (val & w0 & w1 & _ & _ & _ & ->) & _)].
  - split; apply Forall_insert; try done; by rewrite length_replicate.
  - split; apply Forall_insert; try done; [congruence|].
    by rewrite !length_insert.
Qed.

Lemma _next_step_rows (self : BatchGenerator) (step : Z) (sl : list Z)
    (v : step_vars) :
  _next_step self step sl = Ret v →
  Forall (λ r, length r = Z.to_nat (_num_inputs self)) (sv_x v) ∧
  Forall (λ r, length r = Z.to_nat (_num_classes self)) (sv_y v).
Proof.
  unfold _next_step. intros H.
  apply bind_Ret in H as (x & Hx & H). apply bind_Ret in H as (y & Hy & H).
  apply np_zeros2_Ret in Hx as (_ & _ & ->).
  apply np_zeros2_Ret in Hy as (_ & _ & ->).
  apply (for_in_seq_inv (λ _ v,
           Forall (λ r, length r = Z.to_nat (_num_inputs self)) (sv_x v) ∧
           Forall (λ r, length r = Z.to_nat (_num_classes self)) (sv_y v)))
    in H; [done| |].
  - simpl. split; apply Forall_replicate; apply length_replicate.
  - intros i t t' _ [Hx Hy] Hb. by apply (next_step_body_rows step i t).
Qed.

(** X9: the arrays of a batch have the sizes the docstring of [Batch] gives
    them: [inputs], [targets] and [attribs] have [num_unrollings] entries;
    every entry of [inputs] is [batch_size] rows of [num_inputs] values, every
    entry of [targets] is [batch_size] rows of two values, every entry of
    [attribs] has [batch_size] elements; [seq_lengths] and [reset_flags] have
    [batch_size] elements. *)
Theorem batch_shape (self0 self self' : BatchGenerator) (batch : Batch) :
  constructed self0 → reachable self0 self →
  next_batch self = Ret (batch, self') →
  length (inputs batch) = Z.to_nat (_num_unrollings self) ∧
  length (targets batch) = Z.to_nat (_num_unrollings self) ∧
  length (attribs batch) = Z.to_nat (_num_unrollings self) ∧
  length (seq_lengths batch) = Z.to_nat (_batch_size self) ∧
  length (reset_flags batch) = Z.to_nat (_batch_size self) ∧
  Forall (frame_shape (Z.to_nat (_batch_size self))
            (Z.to_nat (_num_inputs self))) (inputs batch) ∧
  Forall (frame_shape (Z.to_nat (_batch_size self)) 2) (targets batch) ∧
  Forall (λ a, length a = Z.to_nat (_batch_size self)) (attribs batch).
Proof.
  intros Hc Hr Hb. pose proof (constructed_inv _ Hc) as (Hinv0 & _).
  destruct (reachable_inv _ _ Hinv0 Hr) as [Hinv _].
  pose proof Hinv as (Hcls & Hsz & Hpos & HB & _ & Hcl & _ & Hcr & _).
  pose proof Hb as Hb'.
  apply next_batch_Ret in Hb' as ((_ & _ & Hsl & Hxl & Hyl & Hal & _) & Hrf & _);
    [|done..].
  simpl in *. do 5 (split; [done|]).
  unfold next_batch in Hb.
  apply bind_Ret in Hb as (sl & Hsl0 & Hb). apply np_full_Ret in Hsl0 as ->.
  apply bind_Ret in Hb as (rf & _ & Hb).
  apply bind_Ret in Hb as (v & Hv & Hb). injection Hb as <- _. simpl.
  apply (for_in_seq_inv (λ n v,
           steps_done self n v ∧
           Forall (frame_shape (Z.to_nat (_batch_size self))
                     (Z.to_nat (_num_inputs self))) (bv_x_batch v) ∧
           Forall (frame_shape (Z.to_nat (_batch_size self)) 2) (bv_y_batch v) ∧
           Forall (λ a, length a = Z.to_nat (_batch_size self)) (bv_attribs v)))
    in Hv; [apply Hv| |].
  - split; [|by repeat split; apply Forall_nil].
    split; [apply same_but_cursor_refl|]. simpl.
    rewrite length_replicate. repeat split; try done.
    intros b c0 Hc0. exists 0%nat. simpl.
    assert (Hlt : (b < Z.to_nat (_batch_size self))%nat).
    { apply lookup_lt_Some in Hc0. lia. }
    split; [done|]. split; [lia|]. split.
    { rewrite Hc0. f_equal. rewrite Z.add_0_r. symmetry. apply Z.mod_small.
      rewrite Forall_lookup in Hcr. by apply (Hcr b). }
    split; [by apply lookup_replicate_2|].
    repeat split; intros; lia.
  - intros i t t' Hi (Hdone & Hfx & Hfy & Hfa) Hbody.
    split; [apply (steps_done_step self Hcls i t); [lia|done..]|].
    destruct Hdone as ([c Hself] & Hcl' & Hsl' & _).
    unfold next_batch_body in Hbody.
    apply bind_Ret in Hbody as (s & Hs & Hbody). injection Hbody as <-. simpl.
    pose proof (_next_step_rows _ _ _ _ Hs) as [Hrx Hry].
    apply _next_step_Ret in Hs as (_ & Hx & Hy & Ha & _);
      [|by rewrite Hself in *..].
    rewrite Hself in *. simpl in *. rewrite Hcls in Hry.
    split; [|split]; apply Forall_app; (split; [done|]);
      apply Forall_singleton; done.
Qed.

Lemma batch_shape_witness :
  length (inputs (coming_batch (doc_generator 1 3 [0] 1))) = Z.to_nat 3 ∧
  length (targets (coming_batch (doc_generator 1 3 [0] 1))) = Z.to_nat 3 ∧
  length (attribs (coming_batch (doc_generator 1 3 [0] 1))) = Z.to_nat 3 ∧
  length (seq_lengths (coming_batch (doc_generator 1 3 [0] 1))) = Z.to_nat 1 ∧
  length (reset_flags (coming_batch (doc_generator 1 3 [0] 1))) = Z.to_nat 1 ∧
  Forall (frame_shape (Z.to_nat 1) (Z.to_nat 3))
    (inputs (coming_batch (doc_generator 1 3 [0] 1))) ∧
  Forall (frame_shape (Z.to_nat 1) 2)
    (targets (coming_batch (doc_generator 1 3 [0] 1))) ∧
  Forall (λ a, length a = Z.to_nat 1)
    (attribs (coming_batch (doc_generator 1 3 [0] 1))).
Proof.
  apply (batch_shape (doc_generator 1 3 [0] 1) (doc_generator 1 3 [0] 1)
           (after_batch (doc_generator 1 3 [0] 1))).
  - exists 5%nat, (Some doc_table), "ID"%string, "YY"%string, 3, 1, 3.
    vm_compute. reflexivity.
  - apply reach_here.
  - vm_compute. reflexivity.
Defined.

Lemma as_floats_Forall2 (cs : list cell) (qs : list Q) :
  as_floats cs = Ret qs → Forall2 (λ c x, as_float c = Ret x) cs qs.
Proof.
  revert qs. induction cs as [|c cs IH]; intros qs H.
  - injection H as <-. constructor.
  - cbn [as_floats] in H. apply bind_Ret in H as (x & Hx & H).
    apply bind_Ret in H as (xs & Hxs & H). injection H as <-.
    constructor; [done|]. by apply IH.
Qed.

(** X10: in every cell before the length recorded for a slot, the input row
    is what the code reads from the record [t] records after the cursor of the
    slot: when the record has [num_inputs] fields after the label column,
    the row holds, field by field, the float64 stored for each of them (an
    int64 converted, and rounded beyond 53 bits; a float64 as it is).  The
    attribute is the date of that record, or [None] when the table has no
    date column. *)
Theorem emitted_inputs (self0 self self' : BatchGenerator) (batch : Batch)
    (b : nat) (c0 l : Z) (t : nat) :
  constructed self0 → reachable self0 self →
  next_batch self = Ret (batch, self') → _cursor self !! b = Some c0 →
  seq_lengths batch !! b = Some l → Z.of_nat t < l →
  ∃ xrow a,
    features_at self ((c0 + Z.of_nat t) mod _data_size self) = Ret xrow ∧
    attrib_at self ((c0 + Z.of_nat t) mod _data_size self) = Ret a ∧
    at2 (inputs batch) t b = Some xrow ∧
    at2 (attribs batch) t b = Some a ∧
    (∀ r,
       rows (_data self) !! Z.to_nat ((c0 + Z.of_nat t) mod _data_size self)
       = Some r →
       length r = (Z.to_nat (_factor_start_idx self)
                   + Z.to_nat (_num_inputs self))%nat →
       Forall2 (λ c x, as_float c = Ret x)
         (drop (Z.to_nat (_factor_start_idx self)) r) xrow) ∧
    ("date"%string ∉ columns (_data self) → a = None).
Proof.
  intros Hc Hr Hb Hc0 Hl Ht.
  pose proof (constructed_inv _ Hc) as (Hinv0 & _).
  destruct (reachable_inv _ _ Hinv0 Hr) as [Hinv [c0' Hsame]].
  pose proof Hinv as (Hcls & Hsz & Hpos & HB & _ & Hcl & _ & Hcr & _).
  destruct (next_batch_slot _ _ _ _ _ _ Hc Hr Hb Hc0)
    as (_ & k & Hkn & _ & _ & Hlen & _). simpl in Hlen.
  assert (Htn : (t < Z.to_nat (_num_unrollings self))%nat).
  { rewrite Hl in Hlen. injection Hlen as ->.
    destruct (Nat.ltb_spec k (Z.to_nat (_num_unrollings self))); lia. }
  destruct (next_batch_inputs _ _ _ _ _ Hinv Hb Hc0 t l Htn Hl Ht)
    as (xrow & a & Hf & Ha & Hx & Hat).
  exists xrow, a. do 4 (split; [done|]). split.
  - intros r Hrow Hlenr.
    pose proof (Z.mod_pos_bound (c0 + Z.of_nat t) (_data_size self) Hpos) as Hm.
    destruct (constructed_start _ Hc) as (j & _ & Hj).
    rewrite Hsame in Hf.
    unfold features_at, iloc_from, len in Hf. simpl in Hf.
    rewrite Hsame in Hrow, Hlenr, Hsz, Hm. simpl in *. unfold len in Hsz.
    destruct (Z.ltb_spec ((c0 + Z.of_nat t) mod _data_size self0) 0); [lia|].
    destruct (Z.ltb_spec ((c0 + Z.of_nat t) mod _data_size self0) 0); [lia|].
    destruct (Z.leb_spec (Z.of_nat (length (rows (_data self0))))
                ((c0 + Z.of_nat t) mod _data_size self0)); [lia|].
    simpl in Hf. rewrite Hrow in Hf.
    destruct (Z.ltb_spec (_factor_start_idx self0) 0); [lia|].
    simpl in Hf. unfold broadcast_row in Hf.
    apply bind_Ret in Hf as (qs & Hqs & Hf).
    apply as_floats_Forall2 in Hqs.
    pose proof (Forall2_length _ _ _ Hqs) as Hq. rewrite length_drop in Hq.
    destruct (Nat.eqb_spec (length qs) (Z.to_nat (_num_inputs self0))); [|lia].
    injection Hf as <-. by rewrite Hsame.
  - intros Hnd. unfold attrib_at in Ha.
    rewrite bool_decide_eq_false_2 in Ha by done. by injection Ha as <-.
Qed.

Lemma emitted_inputs_witness :
  ∃ xrow a,
    features_at (doc_generator 1 3 [0] 1) ((0 + Z.of_nat 1) mod 5) = Ret xrow ∧
    attrib_at (doc_generator 1 3 [0] 1) ((0 + Z.of_nat 1) mod 5) = Ret a ∧
    at2 (inputs (coming_batch (doc_generator 1 3 [0] 1))) 1 0 = Some xrow ∧
    at2 (attribs (coming_batch (doc_generator 1 3 [0] 1))) 1 0 = Some a ∧
    (∀ r,
       rows doc_table !! Z.to_nat ((0 + Z.of_nat 1) mod 5) = Some r →
       length r = (Z.to_nat 2 + Z.to_nat 3)%nat →
       Forall2 (λ c x, as_float c = Ret x) (drop (Z.to_nat 2) r) xrow) ∧
    ("date"%string ∉ columns doc_table → a = None).
Proof.
  apply (emitted_inputs (doc_generator 1 3 [0] 1) (doc_generator 1 3 [0] 1)
           (after_batch (doc_generator 1 3 [0] 1)) _ _ _ 2).
  - exists 5%nat, (Some doc_table), "ID"%string, "YY"%string, 3, 1, 3.
    vm_compute. reflexivity.
  - apply reach_here.
  - vm_compute. reflexivity.
  - reflexivity.
  - vm_compute. reflexivity.
  - simpl. lia.
Defined.

Lemma omap_Forall2 {A B C : Type} (g : A → option B) (h : A → C)
    (R : B → C → Prop) (l : list A) :
  (∀ x, x ∈ l → ∃ y, g x = Some y ∧ R y (h x)) →
  Forall2 R (omap g l) (h <$> l).
Proof.
  induction l as [|x l IH]; intros H; [constructor|].
  destruct (H x) as (y & Hy & HR); [apply list_elem_of_here|].
  cbn [omap list_omap fmap list_fmap]. rewrite Hy.
  constructor; [done|]. apply IH. intros z Hz. apply H.
  by apply list_elem_of_further.
Qed.

Lemma labels_from_app (self : BatchGenerator) (c0 : Z) (k K : nat) :
  0 < _data_size self →
  labels_from self c0 (k + K)
  = labels_from self c0 k
    ++ labels_from self ((c0 + Z.of_nat k) mod _data_size self) K.
Proof.
  intros Hpos. unfold labels_from. rewrite seq_app, fmap_app. f_equal.
  replace (0 + k)%nat with (k + 0)%nat by lia.
  rewrite <- (fmap_add_seq k 0 K), <- list_fmap_compose.
  apply list_fmap_ext. intros _ i _. simpl. f_equal.
  rewrite Z.add_mod_idemp_l by lia. f_equal. lia.
Qed.

(** X11: over any run of batches a slot emits the records of the table in
    their order from its cursor on, cyclically, each one once: the target rows
    before the recorded lengths, put end to end, are the rows computed from
    the labels of the [K] records from the cursor on, where [K] is their
    number, and the run leaves the cursor [K] records further. *)
Theorem stream_is_consecutive (N : nat) :
  ∀ (self0 self self' : BatchGenerator) (batches : list Batch)
    (b : nat) (c0 : Z),
    constructed self0 → reachable self0 self →
    0 ≤ _num_unrollings self →
    next_batches N self = Ret (batches, self') →
    _cursor self !! b = Some c0 →
    _cursor self' !! b
    = Some ((c0 + Z.of_nat (length (slot_stream batches b)))
            mod _data_size self) ∧
    Forall2 is_target (slot_stream batches b)
      (labels_from self c0 (length (slot_stream batches b))).
Proof.
  induction N as [|N IH]; intros self0 self self' batches b c0 Hc Hr HU H Hc0;
    pose proof (constructed_inv _ Hc) as (Hinv0 & _);
    destruct (reachable_inv _ _ Hinv0 Hr) as [Hinv _];
    pose proof Hinv as (_ & _ & Hpos & _ & _ & _ & _ & Hcr & _).
  - injection H as <- <-. simpl. split; [|constructor].
    rewrite Z.add_0_r, Z.mod_small; [done|].
    rewrite Forall_lookup in Hcr. apply (Hcr b c0 Hc0).
  - simpl in H. apply bind_Ret in H as ([batch self1] & Hb & H).
    apply bind_Ret in H as ([rest self2] & Hrest & H). injection H as <- <-.
    destruct (next_batch_slot _ _ _ _ _ _ Hc Hr Hb Hc0)
      as (_ & k & Hkn & _ & Hcur & Hlen & _ & _ & Hreal & _).
    simpl in Hcur, Hlen, Hreal.
    assert (Hlen' : seq_lengths batch !! b = Some (Z.of_nat k)).
    { rewrite Hlen. f_equal.
      destruct (Nat.ltb_spec k (Z.to_nat (_num_unrollings self))); lia. }
    pose proof (next_batch_same _ _ _ Hb) as [c Hself1].
    assert (Hemit : Forall2 is_target (emitted_targets batch b)
                      (labels_from self c0 k)).
    { unfold emitted_targets, labels_from. rewrite Hlen', Nat2Z.id.
      apply omap_Forall2. intros t Ht. apply elem_of_seq in Ht.
      destruct (Hreal t ltac:(lia)) as (val & row & Hval & Hrow & Hy).
      exists row. split; [done|]. by exists val. }
    pose proof (Forall2_length _ _ _ Hemit) as Hk.
    unfold labels_from in Hk. rewrite length_fmap, length_seq in Hk.
    destruct (IH self0 self1 self2 rest b
                ((c0 + Z.of_nat k) mod _data_size self))
      as [Hcur' Hrest']; try done.
    { by apply (reach_next_batch _ self batch). }
    { by rewrite Hself1. }
    rewrite Hself1 in Hcur', Hrest'. simpl in Hcur', Hrest'.
    cbn [slot_stream foldr]. fold (slot_stream rest b).
    rewrite length_app, Hk. split.
    + rewrite Hcur'. f_equal. rewrite Z.add_mod_idemp_l by lia. f_equal. lia.
    + rewrite labels_from_app by done. by apply Forall2_app.
Qed.

Lemma stream_is_consecutive_witness :
  _cursor (after_batches 3 (doc_generator 1 3 [0] 1)) !! 0%nat
  = Some ((0 + Z.of_nat (length (slot_stream
                                   (coming_batches 3 (doc_generator 1 3 [0] 1))
                                   0)))
          mod 5) ∧
  Forall2 is_target (slot_stream (coming_batches 3 (doc_generator 1 3 [0] 1)) 0)
    (labels_from (doc_generator 1 3 [0] 1) 0
       (length (slot_stream (coming_batches 3 (doc_generator 1 3 [0] 1)) 0))).
Proof.
  apply (stream_is_consecutive 3 (doc_generator 1 3 [0] 1)
           (doc_generator 1 3 [0] 1)).
  - exists 5%nat, (Some doc_table), "ID"%string, "YY"%string, 3, 1, 3.
    vm_compute. reflexivity.
  - apply reach_here.
  - simpl. lia.
  - vm_compute. reflexivity.
  - reflexivity.
Defined.

Lemma as_floats_cases (cs : list cell) :
  as_floats cs = Raise ValueError ∨
  ∃ qs, as_floats cs = Ret qs ∧ length qs = length cs.
Proof.
  induction cs as [|c cs IH]; [right; by exists []|].
  cbn [as_floats].
  destruct c as [|z|q]; [by left| |]; simpl;
    (destruct IH as [->|(qs & -> & Hlen)]; [by left|]); right;
    eexists; (split; [done|]); simpl; by rewrite Hlen.
Qed.

Lemma broadcast_row_mismatch (n : nat) (vals : list cell) :
  length vals ≠ n → length vals ≠ 1%nat →
  broadcast_row n vals = Raise ValueError.
Proof.
  intros Hn H1. unfold broadcast_row.
  destruct (as_floats_cases vals) as [->|(qs & -> & Hlen)]; [done|]. simpl.
  destruct (Nat.eqb_spec (length qs) n); [lia|].
  destruct qs as [|q [|q' qs]]; simpl in *; done || lia.
Qed.

Lemma _get_reset_flags_keys (self : BatchGenerator) :
  engine_inv self → keys_ok (_data self) (_key_name self) →
  ∃ rf, _get_reset_flags self = Ret rf.
Proof.
  intros (Hcls & Hsz & Hpos & HB & _ & Hcl & _ & Hcr & _) Hkeys.
  unfold _get_reset_flags, np_ones.
  destruct (Z.ltb_spec (_batch_size self) 0); [lia|]. simpl.
  apply (for_in_seq_total
           (λ _ (l : list Q), length l = Z.to_nat (_batch_size self))).
  - by rewrite length_replicate.
  - intros i l l' _ Hl Hb. apply reset_flags_body_Ret in Hb as (idx & _ & ->).
    destruct (stream_start self idx); by rewrite ?length_insert.
  - intros i l Hi Hl. unfold reset_flags_body.
    destruct (lookup_lt_is_Some_2 (_cursor self) i) as [idx Hidx]; [lia|].
    rewrite (getitem_Some _ _ _ Hidx). simpl.
    assert (Hrange : 0 ≤ idx < len (_data self)).
    { rewrite Forall_lookup in Hcr. rewrite <- Hsz. by apply (Hcr i). }
    destruct (Z.eqb_spec idx 0) as [->|Hne]; simpl.
    + rewrite setitem_lt by lia. by eexists.
    + destruct (Hkeys idx Hrange) as [k Hk].
      destruct (Hkeys (idx - 1)) as [kp Hkp]; [lia|].
      rewrite (loc_Some _ _ _ _ Hk), (loc_Some _ _ _ _ Hkp). simpl.
      destruct (negb (cell_eqb k kp)); [rewrite setitem_lt by lia|]; by eexists.
Qed.

(** X12: [num_inputs] has to be the number of columns that follow the label
    column: when the table has another number of them, and not exactly one,
    every call of [next_batch] with [num_unrollings >= 1] raises [ValueError],
    at the first record it copies; construction itself may have returned. *)
Theorem wrong_num_inputs_raises (self0 self : BatchGenerator) :
  constructed self0 → reachable self0 self →
  keys_ok (_data self) (_key_name self) → rectangular (_data self) →
  1 ≤ _num_unrollings self →
  Z.of_nat (length (columns (_data self))
            - Z.to_nat (_factor_start_idx self)) ≠ _num_inputs self →
  (length (columns (_data self)) - Z.to_nat (_factor_start_idx self))%nat
  ≠ 1%nat →
  next_batch self = Raise ValueError.
Proof.
  intros Hc Hr Hkeys Hrect HU Hn H1.
  pose proof (constructed_inv _ Hc) as (Hinv0 & _).
  destruct (reachable_inv _ _ Hinv0 Hr) as [Hinv [c0 Hsame]].
  destruct (constructed_start _ Hc) as (j & _ & Hj).
  assert (Hstart : 0 ≤ _factor_start_idx self) by (rewrite Hsame; simpl; lia).
  pose proof Hinv as (Hcls & Hsz & Hpos & HB & _ & Hcl & _ & Hcr & _).
  unfold next_batch, np_full.
  destruct (Z.ltb_spec (_batch_size self) 0); [lia|]. simpl.
  destruct (_get_reset_flags_keys self Hinv Hkeys) as [rf ->]. simpl.
  unfold range at 1.
  destruct (Z.to_nat (_num_unrollings self)) as [|U] eqn:HUn; [lia|].
  assert (Hstep : ∀ sl, _next_step self 0 sl = Raise ValueError).
  { intros sl. unfold _next_step, np_zeros2.
    destruct (Z.ltb_spec (_batch_size self) 0); [lia|].
    destruct (Z.ltb_spec (_num_inputs self) 0); [done|].
    destruct (Z.ltb_spec (_num_classes self) 0); [lia|]. simpl.
    unfold range.
    destruct (Z.to_nat (_batch_size self)) as [|B] eqn:HBn; [lia|].
    assert (Hbody : ∀ x y attr,
      next_step_body 0 0
        {| sv_x := zero_row (_num_inputs self) :: x; sv_y := y;
           sv_attr := attr; sv_seq_lengths := sl; sv_self := self |}
      = Raise ValueError).
    { intros x y attr. unfold next_step_body. cbv zeta. simpl.
      destruct (lookup_lt_is_Some_2 (_cursor self) 0) as [idx Hidx]; [lia|].
      rewrite (getitem_Some _ _ _ Hidx). simpl.
      assert (Hrange : 0 ≤ idx < len (_data self)).
      { rewrite Forall_lookup in Hcr. rewrite <- Hsz. by apply (Hcr 0%nat). }
      unfold iloc_from, len in *.
      destruct (Z.ltb_spec idx 0); [lia|].
      destruct (Z.ltb_spec idx 0); [lia|].
      destruct (Z.leb_spec (Z.of_nat (length (rows (_data self)))) idx); [lia|].
      simpl.
      destruct (lookup_lt_is_Some_2 (rows (_data self)) (Z.to_nat idx))
        as [r Hrow]; [lia|].
      rewrite Hrow. destruct (Z.ltb_spec (_factor_start_idx self) 0); [lia|].
      simpl. unfold assign_row. simpl.
      pose proof (Forall_lookup_1 _ _ _ _ Hrect Hrow) as Hlen. simpl in Hlen.
      rewrite broadcast_row_mismatch; [done| |].
      - unfold zero_row. rewrite length_replicate, length_drop, Hlen. lia.
      - by rewrite length_drop, Hlen. }
    simpl. by rewrite Hbody. }
  assert (Hbody : ∀ x y a sl,
    next_batch_body 0
      {| bv_x_batch := x; bv_y_batch := y; bv_attribs := a;
         bv_seq_lengths := sl; bv_self := self |} = Raise ValueError).
  { intros x y a sl. unfold next_batch_body. simpl. by rewrite Hstep. }
  simpl. by rewrite Hbody.
Qed.

Lemma wrong_num_inputs_raises_witness :
  next_batch narrow_generator = Raise ValueError.
Proof.
  apply (wrong_num_inputs_raises narrow_generator narrow_generator).
  - exists 5%nat, (Some doc_table), "ID"%string, "YY"%string, 2, 1, 4.
    vm_compute. reflexivity.
  - apply reach_here.
  - apply (table_ok_keys doc_table "ID" "YY" 3). reflexivity.
  - repeat constructor.
  - simpl. lia.
  - simpl. lia.
  - simpl. lia.
Defined.
